(** * Adoption platform back end: data store, route handlers and their properties

    A shallow embedding of the route handlers and services of the back end
    (adoption workflow, animal registry, donation registry, login), with the
    relational store written as finite maps keyed by the row id.  Handlers
    take the store and the request and return the HTTP response together
    with the new store. *)

From Stdlib Require Import ZArith String Ascii List Bool Lia.
From stdpp Require Import base option gmap strings list fin_maps pretty.

Local Open Scope Z_scope.
Local Open Scope string_scope.

(** ** JavaScript strings

    A string of the program is held as the bytes of its UTF-8 encoding. *)

(** [!s] on a string: only the empty string is falsy. *)
Definition truthy (s : string) : bool := negb (String.eqb s "").

(** [x || null] on an optional string. *)
Definition or_null (x : option string) : option string :=
  match x with
  | Some s => if truthy s then Some s else None
  | None => None
  end.

(** The white space below U+0080: U+0009 to U+000D and U+0020. *)
Definition is_space (c : ascii) : bool :=
  let n := nat_of_ascii c in
  ((9 <=? n)%nat && (n <=? 13)%nat) || (n =? 32)%nat.

(** The white space above U+007F that [String.prototype.trim] removes, by
    its encoding: U+00A0 in two bytes; U+1680, U+2000 to U+200A, U+2028,
    U+2029, U+202F, U+205F, U+3000 and U+FEFF in three. *)
Definition is_space2 (a b : ascii) : bool :=
  (nat_of_ascii a =? 194)%nat && (nat_of_ascii b =? 160)%nat.

Definition is_space3 (a b c : ascii) : bool :=
  let x := nat_of_ascii a in
  let y := nat_of_ascii b in
  let z := nat_of_ascii c in
  ((x =? 225) && (y =? 154) && (z =? 128))%nat ||
  ((x =? 226) && (y =? 128) &&
   (((128 <=? z) && (z <=? 138)) || (z =? 168) || (z =? 169) || (z =? 175)))%nat ||
  ((x =? 226) && (y =? 129) && (z =? 159))%nat ||
  ((x =? 227) && (y =? 128) && (z =? 128))%nat ||
  ((x =? 239) && (y =? 187) && (z =? 191))%nat.

(** The bytes behind the white space at the start; [space2] and [space3]
    tell the white space of two and of three bytes. *)
Fixpoint strip_space (space2 : ascii → ascii → bool)
    (space3 : ascii → ascii → ascii → bool) (l : list ascii) : list ascii :=
  match l with
  | [] => []
  | a :: l1 =>
    if is_space a then strip_space space2 space3 l1
    else
      match l1 with
      | [] => l
      | b :: l2 =>
        if space2 a b then strip_space space2 space3 l2
        else
          match l2 with
          | [] => l
          | c :: l3 => if space3 a b c then strip_space space2 space3 l3 else l
          end
      end
  end.

(** The string starts with white space. *)
Definition leading_space (space2 : ascii → ascii → bool)
    (space3 : ascii → ascii → ascii → bool) (l : list ascii) : bool :=
  match l with
  | [] => false
  | a :: l1 =>
    is_space a ||
    match l1 with
    | [] => false
    | b :: l2 =>
      space2 a b || match l2 with [] => false | c :: _ => space3 a b c end
    end
  end.

Definition trim_start : list ascii → list ascii :=
  strip_space is_space2 is_space3.

(** The same on the reversed string, where the bytes of a character come
    last byte first: the white space at the end. *)
Definition trim_start_rev : list ascii → list ascii :=
  strip_space (λ b a, is_space2 a b) (λ c b a, is_space3 a b c).

(** [String.prototype.trim] *)
Definition trim (s : string) : string :=
  string_of_list_ascii
    (rev (trim_start_rev (rev (trim_start (list_ascii_of_string s))))).

(** [s.length], the number of UTF-16 code units of the string: one for a
    character encoded in up to three bytes, two for one encoded in four. *)
Definition code_units (c : ascii) : nat :=
  let n := nat_of_ascii c in
  if (n <? 128)%nat then 1%nat
  else if (n <? 192)%nat then 0%nat
  else if (n <? 240)%nat then 1%nat
  else 2%nat.

Fixpoint js_length (s : string) : nat :=
  match s with
  | EmptyString => 0%nat
  | String c s' => (code_units c + js_length s')%nat
  end.

(** The strings within ASCII. *)
Fixpoint is_ascii (s : string) : bool :=
  match s with
  | EmptyString => true
  | String c s' => (nat_of_ascii c <? 128)%nat && is_ascii s'
  end.

(** [String.prototype.toLowerCase] on the letters [A] to [Z]: the method as
    it acts on ASCII strings.  The lower-cased form of a string with a
    character outside ASCII is none of the two addresses that
    [determineUserRole] compares with, in the program as here. *)
Definition lower_ascii (c : ascii) : ascii :=
  let n := nat_of_ascii c in
  if ((65 <=? n)%nat && (n <=? 90)%nat)%bool then ascii_of_nat (n + 32) else c.

Fixpoint toLowerCase (s : string) : string :=
  match s with
  | EmptyString => EmptyString
  | String c s' => String (lower_ascii c) (toLowerCase s')
  end.

(** [hay.includes(needle)]. *)
Fixpoint includes (needle hay : string) : bool :=
  String.prefix needle hay ||
  match hay with
  | EmptyString => false
  | String _ hay' => includes needle hay'
  end.

(** [arr.includes(s)] on an array of strings. *)
Definition array_includes (arr : list string) (s : string) : bool :=
  existsb (String.eqb s) arr.

(** ** Values of a request body

    A field of the parsed JSON body, as far as the handlers tell values
    apart.  The handlers cast the body to its interface without a check, so a
    field can hold any value. *)
Inductive JsValue : Type :=
  | JsUndefined                (* the key is missing *)
  | JsNull
  | JsBool (b : bool)
  | JsNumber (n : Z)           (* an integer *)
  | JsFraction                 (* a number that is not an integer *)
  | JsString (s : string)
  | JsObject.                  (* an object or an array *)

(** [!!v] *)
Definition js_truthy (v : JsValue) : bool :=
  match v with
  | JsUndefined | JsNull => false
  | JsBool b => b
  | JsNumber n => negb (Z.eqb n 0)
  | JsFraction => true
  | JsString s => truthy s
  | JsObject => true
  end.

(** [v.trim()]: [None] when the call throws a [TypeError], as it does on
    every value but a string. *)
Definition js_trim (v : JsValue) : option string :=
  match v with
  | JsString s => Some (trim s)
  | _ => None
  end.

(** [v?.trim()]: [undefined] on [undefined] and [null]. *)
Definition js_trim_optional (v : JsValue) : option (option string) :=
  match v with
  | JsUndefined | JsNull => Some None
  | JsString s => Some (Some (trim s))
  | _ => None
  end.

(** [typeof v] *)
Definition js_typeof (v : JsValue) : string :=
  match v with
  | JsUndefined => "undefined"
  | JsNull | JsObject => "object"
  | JsBool _ => "boolean"
  | JsNumber _ | JsFraction => "number"
  | JsString _ => "string"
  end.

(** A value as the key of an integer column in a query: the database client
    validates the arguments of a query and throws on every value but an
    integer ([None]). *)
Definition js_int (v : JsValue) : option Z :=
  match v with
  | JsNumber n => Some n
  | _ => None
  end.

(** The age of a body: missing, [null] or a number.  A body whose age is of
    another type, or a number that is not an integer, is outside the model. *)
Inductive JsAge : Type :=
  | AgeUndefined
  | AgeNull
  | AgeNumber (n : Z).

(** ** Rows of the store *)

Record Animal := mkAnimal {
  an_type : string;
  an_name : string;
  an_city : string;
  an_age : Z;
  an_breed : string;
  an_description : option string;
  an_status : string
}.

Record Adopt := mkAdopt {
  ad_userid : Z;
  ad_animalid : Z;
  ad_firstname : string;
  ad_lastname : string;
  ad_phone : string;
  ad_status : string;
  ad_user : option string
}.

Record Donation := mkDonation {
  dn_userid : option Z;
  dn_email : string;
  dn_amount : Z;
  dn_status : string;
  dn_paymentId : option string;
  dn_paymentMethod : option string
}.

Record User := mkUser {
  us_firstname : string;
  us_lastname : string;
  us_email : string;
  us_password : string;
  us_phone : option string;
  us_role : option string
}.

Definition animal_with_status (s : string) (a : Animal) : Animal :=
  mkAnimal (an_type a) (an_name a) (an_city a) (an_age a) (an_breed a)
           (an_description a) s.

Definition adopt_with_status (s : string) (u : option string) (r : Adopt) : Adopt :=
  mkAdopt (ad_userid r) (ad_animalid r) (ad_firstname r) (ad_lastname r)
          (ad_phone r) s u.

Definition user_with_role (role : option string) (u : User) : User :=
  mkUser (us_firstname u) (us_lastname u) (us_email u) (us_password u)
         (us_phone u) role.

(** The store: one finite map per table, keyed by the row's [id], and the
    next value of each auto-increment sequence the handlers draw from. *)
Record DB := mkDB {
  animals : gmap Z Animal;
  adopts : gmap Z Adopt;
  donations : gmap Z Donation;
  users : gmap Z User;
  next_animal : Z;
  next_adopt : Z
}.

Definition set_animals (m : gmap Z Animal) (db : DB) : DB :=
  mkDB m (adopts db) (donations db) (users db) (next_animal db) (next_adopt db).

Definition set_adopts (m : gmap Z Adopt) (db : DB) : DB :=
  mkDB (animals db) m (donations db) (users db) (next_animal db) (next_adopt db).

Definition set_donations (m : gmap Z Donation) (db : DB) : DB :=
  mkDB (animals db) (adopts db) m (users db) (next_animal db) (next_adopt db).

Definition set_users (m : gmap Z User) (db : DB) : DB :=
  mkDB (animals db) (adopts db) (donations db) m (next_animal db) (next_adopt db).

Definition empty_db : DB := mkDB ∅ ∅ ∅ ∅ 1 1.

(** ** Queries *)

(** [prisma.adopt.count({ where })]: the number of rows the condition holds of. *)
Definition adopt_count (cond : Z → Adopt → bool) (m : gmap Z Adopt) : nat :=
  size (filter (λ kv, cond kv.1 kv.2 = true) m).

(** [prisma.adopt.updateMany({ where, data })]. *)
Definition adopt_updateMany (cond : Z → Adopt → bool) (upd : Adopt → Adopt)
    (m : gmap Z Adopt) : gmap Z Adopt :=
  map_imap (λ i r, Some (if cond i r then upd r else r)) m.

(** [prisma.adopt.create]: the row gets the next id of the sequence. *)
Definition adopt_create (r : Adopt) (db : DB) : DB :=
  mkDB (animals db) (<[next_adopt db := r]> (adopts db)) (donations db)
       (users db) (next_animal db) (next_adopt db + 1).

Definition animal_create (a : Animal) (db : DB) : DB :=
  mkDB (<[next_animal db := a]> (animals db)) (adopts db) (donations db)
       (users db) (next_animal db + 1) (next_adopt db).

(** Conditions used in the [where] clauses. *)
Definition is_status (s : string) (r : Adopt) : bool := String.eqb (ad_status r) s.

Definition for_animal (x : Z) (r : Adopt) : bool := Z.eqb (ad_animalid r) x.

(** [{ userid, animalid, status: { in: ['pending', 'approved'] } }] *)
Definition active_for (uid x : Z) (i : Z) (r : Adopt) : bool :=
  Z.eqb (ad_userid r) uid && for_animal x r &&
  array_includes ["pending"; "approved"] (ad_status r).

(** [{ animalid, id: { not: adoptionId }, status: 'pending' }] *)
Definition other_pending (x adoptionId : Z) (i : Z) (r : Adopt) : bool :=
  for_animal x r && negb (Z.eqb i adoptionId) && is_status "pending" r.

(** Counting conditions of the properties below. *)
Definition pending_for (x : Z) (i : Z) (r : Adopt) : bool :=
  for_animal x r && is_status "pending" r.

Definition approved_for (x : Z) (i : Z) (r : Adopt) : bool :=
  for_animal x r && is_status "approved" r.

(** ** Responses *)

(** The envelope [{ success, message }] with its status code.  [res_success]
    is [None] where the handler does not set the field. *)
Record Response := mkResponse {
  res_status : Z;
  res_success : option bool;
  res_message : string
}.

Definition ok (code : Z) (msg : string) : Response := mkResponse code (Some true) msg.
Definition failure (code : Z) (msg : string) : Response := mkResponse code (Some false) msg.

(** Error classes of the specification, read off the status code.  A state
    or uniqueness violation is reported as 409 or as 400 depending on the
    resource. *)
Definition NotFound (r : Response) : Prop := res_status r = 404.
Definition Conflict (r : Response) : Prop := res_status r = 409 ∨ res_status r = 400.
Definition Forbidden (r : Response) : Prop := res_status r = 403.
Definition Validation (r : Response) : Prop := res_status r = 400.

(** ** Transactions

    A transaction body runs on the store and either returns a value and the
    new store or throws.  [transaction] commits the new store in the first
    case and keeps the store it started from in the second. *)
Definition Tx (A : Type) : Type := DB → option (A * DB).

Global Instance tx_ret : MRet Tx := λ A a db, Some (a, db).

Global Instance tx_bind : MBind Tx :=
  λ A B k m db, match m db with
                | Some (a, db') => k a db'
                | None => None
                end.

Definition transaction {A} (body : Tx A) (db : DB) : option A * DB :=
  match body db with
  | Some (a, db') => (Some a, db')
  | None => (None, db)
  end.

(** [tx.adopt.update({ where: { id }, data })]: throws when no row has the id. *)
Definition tx_adopt_update (id : Z) (upd : Adopt → Adopt) : Tx Adopt :=
  λ db, match adopts db !! id with
        | Some r => Some (upd r, set_adopts (<[id := upd r]> (adopts db)) db)
        | None => None
        end.

Definition tx_animal_update (id : Z) (upd : Animal → Animal) : Tx Animal :=
  λ db, match animals db !! id with
        | Some a => Some (upd a, set_animals (<[id := upd a]> (animals db)) db)
        | None => None
        end.

Definition tx_adopt_updateMany (cond : Z → Adopt → bool) (upd : Adopt → Adopt)
    : Tx unit :=
  λ db, Some ((), set_adopts (adopt_updateMany cond upd (adopts db)) db).

Definition tx_adopt_count (cond : Z → Adopt → bool) : Tx nat :=
  λ db, Some (adopt_count cond (adopts db), db).

(** Reading a property of a joined row that may be [null]. *)
Definition tx_deref {A} (o : option A) : Tx A :=
  λ db, match o with Some a => Some (a, db) | None => None end.

(** ** Adoption workflow (routes of the adoption router) *)

(** [prisma.adopt.findFirst({ where })]: some row the condition holds of, or
    [null]. *)
Definition adopt_findFirst (cond : Z → Adopt → bool) (m : gmap Z Adopt)
    : option (Z * Adopt) :=
  head (map_to_list (filter (λ kv, cond kv.1 kv.2 = true) m)).

Record CreateAdoptionRequest := mkCreateAdoptionRequest {
  car_animalId : JsValue;
  car_firstname : JsValue;
  car_lastname : JsValue;
  car_phone : JsValue
}.

(** The presence check of [POST /adoptions]. *)
Definition adoption_fields_present (b : CreateAdoptionRequest) : bool :=
  js_truthy (car_animalId b) && js_truthy (car_firstname b) &&
  js_truthy (car_lastname b) && js_truthy (car_phone b).

(** The answer of the [catch] block of [POST /adoptions]; its envelope says
    [success: true]. *)
Definition create_adoption_error : Response :=
  mkResponse 500 (Some true) "Erreur lors de la création de la demande d'adoption".

(** [POST /adoptions]; [userId] is the identity that the authentication
    middleware attached to the request.  The lookup of the animal throws when
    [animalId] is no integer, and the [trim] calls in the data of the new row
    throw on a field that is no string; the [catch] block answers both. *)
Definition create_adoption (userId : Z) (b : CreateAdoptionRequest) (db : DB)
    : Response * DB :=
  if negb (adoption_fields_present b) then
    (failure 400 "Tous les champs sont requis (animalId, firstname, lastname, phone)", db)
  else
    match js_int (car_animalId b) with
    | None => (create_adoption_error, db)
    | Some animalId =>
      match animals db !! animalId with
      | None => (failure 404 "Animal non trouvé", db)
      | Some animal =>
        if negb (String.eqb (an_status animal) "available") then
          (failure 400 "Cet animal n'est plus disponible à l'adoption", db)
        else
          match adopt_findFirst (active_for userId animalId) (adopts db) with
          | Some _ =>
            (mkResponse 409 None
               "Vous avez déjà une demande d'adoption en cours pour cet animal", db)
          | None =>
            match js_trim (car_firstname b), js_trim (car_lastname b),
                  js_trim (car_phone b) with
            | Some firstname, Some lastname, Some phone =>
              (ok 201 "Demande d'adoption créée avec succcès",
               adopt_create
                 (mkAdopt userId animalId firstname lastname phone "pending" None)
                 db)
            | _, _, _ => (create_adoption_error, db)
            end
          end
      end
    end.

(** [DELETE /adoption/:id].  [adoptionId] is the result of [parseInt] on the
    path parameter, [None] standing for [NaN]. *)
Definition cancel_adoption (userId : Z) (adoptionId : option Z) (db : DB)
    : Response * DB :=
  match adoptionId with
  | None => (failure 400 "ID de demande d'adoption invalide", db)
  | Some id =>
    match adopts db !! id with
    | None => (failure 404 "Demande d'adoption non trouvée", db)
    | Some adoption =>
      if negb (Z.eqb (ad_userid adoption) userId) then
        (failure 403 "Vous ne pouvez annulez que vos propres d'adoption", db)
      else if negb (String.eqb (ad_status adoption) "pending") then
        (failure 400 "Vous ne pouvez annuler que les demandes en attente", db)
      else
        (ok 200 "Demande d'adoption annulée avec succès",
         set_adopts (delete id (adopts db)) db)
    end
  end.

Definition auto_reject_comment : string :=
  "Rejeté automatiquement - animal adopté par un autre utilisateur".

(** The body of the transaction of [PUT /admin/adoptions/:id].
    [existingAdoption] and [existingAnimal] are the request and its joined
    animal as loaded before the transaction starts. *)
Definition decide_tx (adoptionId : Z) (existingAdoption : Adopt)
    (existingAnimal : option Animal) (status : string)
    (adminComment : option string) : Tx Adopt :=
  updatedAdoption ← tx_adopt_update adoptionId
                      (adopt_with_status status (or_null adminComment));
  (if String.eqb status "approved" then
     tx_animal_update (ad_animalid existingAdoption) (animal_with_status "adopted");;
     tx_adopt_updateMany
       (other_pending (ad_animalid existingAdoption) adoptionId)
       (adopt_with_status "rejected" (Some auto_reject_comment))
   else mret ());;
  (if String.eqb status "rejected" then
     animal ← tx_deref existingAnimal;
     if String.eqb (an_status animal) "pending" then
       otherPendingAdoptions ←
         tx_adopt_count (other_pending (ad_animalid existingAdoption) adoptionId);
       if Nat.eqb otherPendingAdoptions 0 then
         tx_animal_update (ad_animalid existingAdoption)
                          (animal_with_status "available");;
         mret ()
       else mret ()
     else mret ()
   else mret ());;
  mret updatedAdoption.

Definition decide_message (status : string) : string :=
  "Demande d'adoption " ++
  (if String.eqb status "approved" then "approuvée"
   else if String.eqb status "rejected" then "rejetée" else "mise à jour") ++
  " avec succès".

(** [PUT /admin/adoptions/:id] with body [{ status, adminComment }]. *)
Definition decide_adoption (adoptionId : option Z) (status : string)
    (adminComment : option string) (db : DB) : Response * DB :=
  match adoptionId with
  | None => (failure 400 "ID de demande d'adoption invalide", db)
  | Some id =>
    if negb (array_includes ["pending"; "approved"; "rejected"] status) then
      (failure 400 "Statut invalide. Statuts autorisés: pending, approved, rejected", db)
    else
      match adopts db !! id with
      | None => (failure 404 "Demande d'adoption non trouvée", db)
      | Some existingAdoption =>
        match transaction
                (decide_tx id existingAdoption
                   (animals db !! ad_animalid existingAdoption) status adminComment)
                db with
        | (Some _, db') => (ok 200 (decide_message status), db')
        | (None, db') =>
          (failure 500 "Erreur lors de la mise à jour de la demande d'adoption", db')
        end
      end
  end.

(** [DELETE /admin/adoptions/:id] *)
Definition admin_delete_adoption (adoptionId : option Z) (db : DB)
    : Response * DB :=
  match adoptionId with
  | None => (failure 400 "ID de demande d'adoption invalide", db)
  | Some id =>
    match adopts db !! id with
    | None => (failure 404 "Demande d'adoption non trouvée", db)
    | Some _ =>
      (ok 200 "Demande d'adoption supprimée avec succès",
       set_adopts (delete id (adopts db)) db)
    end
  end.

(** ** Donation registry *)

(** [DELETE /admin/donations/:id] *)
Definition delete_donation (donationId : option Z) (db : DB) : Response * DB :=
  match donationId with
  | None => (failure 400 "ID de don invalide", db)
  | Some id =>
    match donations db !! id with
    | None => (failure 404 "Don non trouvé", db)
    | Some donation =>
      if String.eqb (dn_status donation) "completed" then
        (failure 400 "Impossible de supprimer un don déjà complété", db)
      else
        (ok 200 "Don supprimé avec succès",
         set_donations (delete id (donations db)) db)
    end
  end.

(** ** Animal registry (AnimalService and its routes) *)

(** A service call either returns or throws [new Error(msg)]. *)
Inductive Result (A : Type) : Type :=
  | Returns (a : A)
  | Throws (msg : string).
Arguments Returns {A} a.
Arguments Throws {A} msg.

Global Instance result_bind : MBind Result :=
  λ A B k r, match r with
             | Returns a => k a
             | Throws msg => Throws msg
             end.

Record Validity := mkValidity { valid : bool; message : option string }.

(** [AnimalService.isValidAge] *)
Definition isValidAge (age : Z) : Validity :=
  if Z.leb age 0 then mkValidity false (Some "L'âge doit être supérieur à 0")
  else if Z.ltb 30 age then mkValidity false (Some "L'âge semble anormalement élevé")
  else mkValidity true None.

(** [AnimalService.isValidAnimalName] *)
Definition isValidAnimalName (name : string) : Validity :=
  if (js_length (trim name) <? 2)%nat then
    mkValidity false (Some "Le nom de l'animal doit contenir au moins 2 caractères")
  else if (50 <? js_length (trim name))%nat then
    mkValidity false (Some "Le nom de l'animal ne peut pas dépasser 50 caractères")
  else mkValidity true None.

Record CreateAnimalRequest := mkCreateAnimalRequest {
  cr_type : JsValue;
  cr_name : JsValue;
  cr_city : JsValue;
  cr_age : JsAge;
  cr_breed : JsValue;
  cr_description : JsValue
}.

(** [AnimalService.createAnimal], on the data the route hands over. *)
Definition createAnimal (type name city : string) (age : Z) (breed : string)
    (description : option string) (db : DB) : Result Animal * DB :=
  if negb (truthy type) || negb (truthy name) || negb (truthy city)
     || negb (truthy breed) then
    (Throws "Tous les champs obligatoires doivent être renseignés", db)
  else if Z.leb age 0 then
    (Throws "L'âge de l'animal doit être supérieur à 0", db)
  else
    let animal := mkAnimal (trim type) (trim name) (trim city) age (trim breed)
                           (or_null (trim <$> description)) "available" in
    (Returns animal, animal_create animal db).

(** The answer of the [catch] block of [POST /animals]. *)
Definition create_animal_error : Response :=
  failure 500 "Erreur lors de la création de l'animal".

(** [POST /animals].  [isValidAnimalName] calls [name.trim()] and the route
    calls [trim] on the type, the city and the breed ([?.trim] on the
    description) before it calls the service: each call throws on a value
    that is no string, and the [catch] block answers. *)
Definition create_animal (b : CreateAnimalRequest) (db : DB) : Response * DB :=
  if negb (js_truthy (cr_type b)) || negb (js_truthy (cr_name b))
     || negb (js_truthy (cr_city b)) || negb (js_truthy (cr_breed b)) then
    (failure 400
       "Tous les champs obligatoires doivent être renseignés (type, name, city, breed)",
     db)
  else
    match cr_age b with
    | AgeUndefined | AgeNull => (failure 400 "L'âge de l'animal est obligatoire", db)
    | AgeNumber age =>
      match cr_name b with
      | JsString name =>
        if negb (valid (isValidAnimalName name)) then
          (failure 400 (default "" (message (isValidAnimalName name))), db)
        else if negb (valid (isValidAge age)) then
          (failure 400 (default "" (message (isValidAge age))), db)
        else
          match js_trim (cr_type b), js_trim (cr_city b), js_trim (cr_breed b),
                js_trim_optional (cr_description b) with
          | Some type, Some city, Some breed, Some description =>
            match createAnimal type (trim name) city age breed description db with
            | (Returns _, db') => (ok 201 "Animal créé avec succès", db')
            | (Throws _, db') => (create_animal_error, db')
            end
          | _, _, _, _ => (create_animal_error, db)
          end
      | _ => (create_animal_error, db)
      end
    end.

Record UpdateAnimalRequest := mkUpdateAnimalRequest {
  up_type : JsValue;
  up_name : JsValue;
  up_city : JsValue;
  up_age : JsAge;
  up_breed : JsValue;
  up_description : JsValue;
  up_status : JsValue
}.

Definition invalid_status_message : string :=
  "Statut invalide. Statuts autorisés: available, adopted, pending".

(** The message of the [TypeError] that [updateData.field.trim()] throws on a
    value that is no string. *)
Definition trim_error (field : string) (v : JsValue) : string :=
  match v with
  | JsNull => "Cannot read properties of null (reading 'trim')"
  | _ => "updateData." ++ field ++ ".trim is not a function"
  end.

(** [if (updateData.field !== undefined) clean.field = updateData.field.trim()]:
    the new value of a text column, [current] when the field is missing. *)
Definition updated_text (field : string) (v : JsValue) (current : string)
    : Result string :=
  match v with
  | JsUndefined => Returns current
  | JsString s => Returns (trim s)
  | _ => Throws (trim_error field v)
  end.

Definition updated_age (v : JsAge) (current : Z) : Result Z :=
  match v with
  | AgeUndefined => Returns current
  | AgeNull => Throws "L'âge de l'animal doit être supérieur à 0"
  | AgeNumber age =>
    if Z.leb age 0 then Throws "L'âge de l'animal doit être supérieur à 0"
    else Returns age
  end.

Definition updated_description (v : JsValue) (current : option string)
    : Result (option string) :=
  match v with
  | JsUndefined => Returns current
  | JsString d => Returns (or_null (Some (trim d)))
  | _ => Throws (trim_error "description" v)
  end.

Definition updated_status (v : JsValue) (current : string) : Result string :=
  match v with
  | JsUndefined => Returns current
  | JsString s =>
    if array_includes ["available"; "adopted"; "pending"] s then Returns s
    else Throws invalid_status_message
  | _ => Throws invalid_status_message
  end.

(** The row that [AnimalService.updateAnimal] writes: the fields are
    prepared in the order of the source, and the first one that throws ends
    the call. *)
Definition cleanUpdateData (u : UpdateAnimalRequest) (existingAnimal : Animal)
    : Result Animal :=
  type ← updated_text "type" (up_type u) (an_type existingAnimal);
  name ← updated_text "name" (up_name u) (an_name existingAnimal);
  city ← updated_text "city" (up_city u) (an_city existingAnimal);
  age ← updated_age (up_age u) (an_age existingAnimal);
  breed ← updated_text "breed" (up_breed u) (an_breed existingAnimal);
  description ← updated_description (up_description u)
                  (an_description existingAnimal);
  status ← updated_status (up_status u) (an_status existingAnimal);
  Returns (mkAnimal type name city age breed description status).

(** [AnimalService.updateAnimal] *)
Definition updateAnimal (animalId : Z) (u : UpdateAnimalRequest) (db : DB)
    : Result Animal * DB :=
  match animals db !! animalId with
  | None => (Throws "Animal non trouvé", db)
  | Some existingAnimal =>
    match cleanUpdateData u existingAnimal with
    | Throws msg => (Throws msg, db)
    | Returns updatedAnimal =>
      (Returns updatedAnimal,
       set_animals (<[animalId := updatedAnimal]> (animals db)) db)
    end
  end.

Definition update_animal_error : Response :=
  failure 500 "Erreur lors de la mise à jour de l'animal".

(** The [catch] block of [PUT /animals/:id]. *)
Definition update_animal_caught (msg : string) : Response :=
  if String.eqb msg "Animal non trouvé" then failure 404 msg
  else if includes "Statut invalide" msg then failure 400 msg
  else update_animal_error.

(** [name && !AnimalService.isValidAnimalName(name).valid]: the message of
    the refusal, if any; [None] when [name.trim()] throws, which the [catch]
    block answers with 500. *)
Definition name_refused (name : JsValue) : option (option string) :=
  if js_truthy name then
    match name with
    | JsString n =>
      Some (if valid (isValidAnimalName n) then None
            else Some (default "" (message (isValidAnimalName n))))
    | _ => None
    end
  else Some None.

(** [age !== undefined && !AnimalService.isValidAge(age).valid]; in
    [isValidAge(null)] the comparison [null <= 0] holds. *)
Definition age_refused (age : JsAge) : option string :=
  match age with
  | AgeUndefined => None
  | AgeNull => message (isValidAge 0)
  | AgeNumber n => if valid (isValidAge n) then None else message (isValidAge n)
  end.

(** [PUT /animals/:id] *)
Definition update_animal (animalId : option Z) (u : UpdateAnimalRequest) (db : DB)
    : Response * DB :=
  match animalId with
  | None => (failure 400 "ID d'animal invalide", db)
  | Some id =>
    if negb (js_truthy (up_type u)) && negb (js_truthy (up_name u))
       && negb (js_truthy (up_city u))
       && match up_age u with AgeUndefined => true | _ => false end
       && negb (js_truthy (up_breed u)) && negb (js_truthy (up_description u))
       && negb (js_truthy (up_status u)) then
      (failure 400 "Vous devez fournir au moins un champ à mettre à jour", db)
    else
      match name_refused (up_name u) with
      | None => (update_animal_error, db)
      | Some (Some msg) => (failure 400 msg, db)
      | Some None =>
        match age_refused (up_age u) with
        | Some msg => (failure 400 msg, db)
        | None =>
          match updateAnimal id u db with
          | (Returns _, db') => (ok 200 "Animal mis à jour avec succès", db')
          | (Throws msg, db') => (update_animal_caught msg, db')
          end
        end
      end
  end.

(** Modelled from the spec: the relational schema is not part of the sources.
    The specification lets an animal with rejected or approved requests in
    its history be deleted, the handlers read the animal joined to a request
    without a null check, and the user service deletes a user relying on the
    relations being deleted in cascade.  So the relation from a request to
    its animal is taken to be required and to cascade: the rows of [adopt]
    that reference the deleted animal go with it. *)
Definition animal_delete (animalId : Z) (db : DB) : DB :=
  set_animals (delete animalId (animals db))
    (set_adopts (filter (λ kv, for_animal animalId kv.2 = false) (adopts db)) db).

(** [AnimalService.deleteAnimal]: [existingAnimal.adopt] is the set of rows
    of [adopt] that reference the animal. *)
Definition deleteAnimal (animalId : Z) (db : DB) : Result string * DB :=
  match animals db !! animalId with
  | None => (Throws "Animal non trouvé", db)
  | Some existingAnimal =>
    let adopt := filter (λ kv, for_animal animalId kv.2 = true) (adopts db) in
    let pendingAdoptions := filter (λ kv, is_status "pending" kv.2 = true) adopt in
    if (0 <? size pendingAdoptions)%nat then
      (Throws "Impossible de supprimer un animal avec des demandes d'adoption en cours",
       db)
    else
      (Returns "Animal supprimé avec succès", animal_delete animalId db)
  end.

(** [DELETE /animals/:id] *)
Definition delete_animal (animalId : option Z) (db : DB) : Response * DB :=
  match animalId with
  | None => (failure 400 "ID d'animal invalide", db)
  | Some id =>
    match deleteAnimal id db with
    | (Returns msg, db') => (ok 200 msg, db')
    | (Throws msg, db') =>
      if String.eqb msg "Animal non trouvé" then (failure 404 msg, db')
      else if includes "demandes d'adoption en cours" msg then (failure 409 msg, db')
      else (failure 500 "Erreur lors de la suppression de l'animal", db')
    end
  end.

(** [AnimalService.markAsAdopted] *)
Definition markAsAdopted (animalId : Z) (db : DB) : Result Animal * DB :=
  match animals db !! animalId with
  | None => (Throws "Animal non trouvé", db)
  | Some animal =>
    if String.eqb (an_status animal) "adopted" then
      (Throws "Cet animal est déjà adopté", db)
    else
      (Returns (animal_with_status "adopted" animal),
       set_animals (<[animalId := animal_with_status "adopted" animal]> (animals db)) db)
  end.

(** [PATCH /animals/:id/adopt] *)
Definition mark_adopted (animalId : option Z) (db : DB) : Response * DB :=
  match animalId with
  | None => (failure 400 "ID d'animal invalide", db)
  | Some id =>
    match markAsAdopted id db with
    | (Returns _, db') => (ok 200 "Animal marqué comme adopté avec succès", db')
    | (Throws msg, db') =>
      if String.eqb msg "Animal non trouvé" then (failure 404 msg, db')
      else if includes "déjà adopté" msg then (failure 400 msg, db')
      else (failure 500 "Erreur lors du marquage comme adopté", db')
    end
  end.

(** [AnimalService.markAsAvailable] *)
Definition markAsAvailable (animalId : Z) (db : DB) : Result Animal * DB :=
  match animals db !! animalId with
  | None => (Throws "Animal non trouvé", db)
  | Some animal =>
    (Returns (animal_with_status "available" animal),
     set_animals (<[animalId := animal_with_status "available" animal]> (animals db)) db)
  end.

(** [PATCH /animals/:id/available] *)
Definition mark_available (animalId : option Z) (db : DB) : Response * DB :=
  match animalId with
  | None => (failure 400 "ID d'animal invalide", db)
  | Some id =>
    match markAsAvailable id db with
    | (Returns _, db') => (ok 200 "Animal remis comme disponible avec succès", db')
    | (Throws msg, db') =>
      if String.eqb msg "Animal non trouvé" then (failure 404 msg, db')
      else (failure 500 "Erreur lors de la remise en disponibilité", db')
    end
  end.

(** ** Login (AuthService) *)

Definition ADMIN_EMAILS : list string := ["admin@adaopte.com"; "manager@adaopte.com"].

(** [AuthService.determineUserRole] *)
Definition determineUserRole (email : string) : string :=
  if array_includes ADMIN_EMAILS (toLowerCase email) then "admin" else "user".

(** The payload [{ userId, email, role }] that [generateToken] hands to
    [JWT.sign].  The claims [iat] and [exp] that the library adds from the
    clock, and the signature, are left out: a [Token] says what a token
    carries about the user, and two tokens issued at different times are
    different strings although their payloads are equal. *)
Record Token := mkToken { tk_userId : Z; tk_email : string; tk_role : string }.

Definition generateToken (userId : Z) (email : string) (role : string) : Token :=
  mkToken userId email role.

(** The user object of the login result (the row without its password). *)
Record UserView := mkUserView {
  uv_id : Z;
  uv_firstname : string;
  uv_lastname : string;
  uv_email : string;
  uv_phone : option string;
  uv_role : option string
}.

Record LoginResult := mkLoginResult { lr_user : UserView; lr_token : Token }.

(** [role || 'user'] on the nullable [role] column. *)
Definition role_or_user (role : option string) : string :=
  default "user" (or_null role).

(** [expectedRole !== user.role] *)
Definition role_differs (expectedRole : string) (role : option string) : bool :=
  match role with
  | Some r => negb (String.eqb expectedRole r)
  | None => true
  end.

(** [prisma.user.findUnique({ where: { email } })]; [email] is a unique column. *)
Definition user_findByEmail (email : string) (m : gmap Z User) : option (Z * User) :=
  head (map_to_list (filter (λ kv, us_email kv.2 = email) m)).

Section Login.

(** [bcrypt.compare(password, hash)], an external collaborator. *)
Variable comparePassword : string → string → bool.

(** [AuthService.login] *)
Definition login (email password : string) (db : DB) : Result LoginResult * DB :=
  match user_findByEmail email (users db) with
  | None => (Throws "Email ou mot de passe incorrect", db)
  | Some (id, user) =>
    if negb (comparePassword password (us_password user)) then
      (Throws "Email ou mot de passe incorrect", db)
    else
      let expectedRole := determineUserRole email in
      let db' :=
        if role_differs expectedRole (us_role user) then
          set_users (<[id := user_with_role (Some expectedRole) user]> (users db)) db
        else db in
      let token := generateToken id (us_email user) (role_or_user (us_role user)) in
      (Returns
         (mkLoginResult
            (mkUserView id (us_firstname user) (us_lastname user) (us_email user)
                        (us_phone user) (us_role user))
            token),
       db')
  end.

End Login.

(** ** Stores the decision handler commits *)

(** The store after an approval of request [id] (row [A], animal [X]). *)
Definition approve_store (id : Z) (A : Adopt) (X : Animal) (c : option string)
    (db : DB) : DB :=
  set_adopts
    (adopt_updateMany (other_pending (ad_animalid A) id)
       (adopt_with_status "rejected" (Some auto_reject_comment))
       (<[id := adopt_with_status "approved" (or_null c) A]> (adopts db)))
    (set_animals (<[ad_animalid A := animal_with_status "adopted" X]> (animals db)) db).

(** The store after a rejection of request [id] (row [A], animal [X]). *)
Definition reject_store (id : Z) (A : Adopt) (X : Animal) (c : option string)
    (db : DB) : DB :=
  let rows := <[id := adopt_with_status "rejected" (or_null c) A]> (adopts db) in
  if String.eqb (an_status X) "pending"
     && Nat.eqb (adopt_count (other_pending (ad_animalid A) id) rows) 0 then
    set_animals (<[ad_animalid A := animal_with_status "available" X]> (animals db))
                (set_adopts rows db)
  else set_adopts rows db.

(** The store after request [id] is set back to [pending]. *)
Definition repend_store (id : Z) (A : Adopt) (c : option string) (db : DB) : DB :=
  set_adopts (<[id := adopt_with_status "pending" (or_null c) A]> (adopts db)) db.

(** The store the handler commits for each of the three accepted statuses. *)
Definition decide_store (id : Z) (A : Adopt) (X : Animal) (status : string)
    (c : option string) (db : DB) : DB :=
  if String.eqb status "approved" then approve_store id A X c db
  else if String.eqb status "rejected" then reject_store id A X c db
  else repend_store id A c db.

(** The scenario of the specification: animal 7 is available and has two
    pending requests, 101 by user 1 and 102 by user 2. *)
Definition animal_7 : Animal :=
  mkAnimal "chien" "Rex" "Paris" 3 "labrador" None "available".

Definition request_101 : Adopt :=
  mkAdopt 1 7 "Ada" "Lovelace" "0601020304" "pending" None.

Definition request_102 : Adopt :=
  mkAdopt 2 7 "Alan" "Turing" "0605060708" "pending" None.

Definition scenario_db : DB :=
  mkDB {[7 := animal_7]} {[101 := request_101; 102 := request_102]} ∅ ∅ 8 103.

(** The scenario after request 101 is approved, and after request 102 is
    rejected instead. *)
Definition settled_db : DB :=
  (decide_adoption (Some 101) "approved" None scenario_db).2.

Definition declined_db : DB :=
  (decide_adoption (Some 102) "rejected" None scenario_db).2.

(** An animal whose status is [pending], with a single pending request. *)
Definition waiting_db : DB :=
  mkDB {[7 := animal_with_status "pending" animal_7]} {[101 := request_101]}
       ∅ ∅ 8 102.

(** Two donations, one completed and one pending. *)
Definition donation_db : DB :=
  mkDB ∅ ∅
       {[1 := mkDonation (Some 1) "ada@example.com" 50 "completed" None (Some "card");
         2 := mkDonation None "alan@example.com" 20 "pending" None None]}
       ∅ 1 1.

(** A store with one user whose [role] column is [null], and one with a user
    stored as [user] whose address is on the list of administrators. *)
Definition legacy_user : User :=
  mkUser "Bob" "Martin" "bob@example.com" "$2a$12$hash" None None.

Definition legacy_db : DB := mkDB ∅ ∅ ∅ {[5 := legacy_user]} 1 1.

Definition manager_user : User :=
  mkUser "Eve" "Durand" "manager@adaopte.com" "$2a$12$hash" None (Some "user").

Definition manager_db : DB := mkDB ∅ ∅ ∅ {[6 := manager_user]} 1 1.

(** ** Operations and reachable stores *)

Inductive Op : Type :=
  | CreateAdoption (userId : Z) (b : CreateAdoptionRequest)
  | Decide (adoptionId : option Z) (status : string) (adminComment : option string)
  | Cancel (userId : Z) (adoptionId : option Z)
  | CreateAnimal (b : CreateAnimalRequest)
  | UpdateAnimal (animalId : option Z) (u : UpdateAnimalRequest)
  | DeleteAnimal (animalId : option Z)
  | MarkAdopted (animalId : option Z)
  | MarkAvailable (animalId : option Z)
  | AdminDeleteAdoption (adoptionId : option Z).

Definition run (op : Op) (db : DB) : Response * DB :=
  match op with
  | CreateAdoption userId b => create_adoption userId b db
  | Decide id status c => decide_adoption id status c db
  | Cancel userId id => cancel_adoption userId id db
  | CreateAnimal b => create_animal b db
  | UpdateAnimal id u => update_animal id u db
  | DeleteAnimal id => delete_animal id db
  | MarkAdopted id => mark_adopted id db
  | MarkAvailable id => mark_available id db
  | AdminDeleteAdoption id => admin_delete_adoption id db
  end.

(** Stores reachable from the empty store by any sequence of operations. *)
Inductive reachable : DB → Prop :=
  | reachable_empty : reachable empty_db
  | reachable_step op db : reachable db → reachable (run op db).2.

(** The adoption invariant of the specification. *)
Definition adoption_consistent (db : DB) : Prop :=
  ∀ x X, animals db !! x = Some X →
    (an_status X = "adopted" ↔
     adopt_count (approved_for x) (adopts db) = 1%nat).

(** Operations of the guarded workflow: decisions are taken on pending
    requests only, the administrator deletes no approved request, an animal
    update leaves the status alone, and the two manual status overrides are
    not used. *)
Definition in_workflow (op : Op) (db : DB) : Prop :=
  match op with
  | Decide (Some id) _ _ => ∀ A, adopts db !! id = Some A → ad_status A = "pending"
  | AdminDeleteAdoption (Some id) =>
      ∀ A, adopts db !! id = Some A → ad_status A ≠ "approved"
  | UpdateAnimal _ u => up_status u = JsUndefined
  | MarkAdopted _ | MarkAvailable _ => False
  | _ => True
  end.

Inductive workflow_reachable : DB → Prop :=
  | workflow_empty : workflow_reachable empty_db
  | workflow_step op db :
      workflow_reachable db → in_workflow op db →
      workflow_reachable (run op db).2.

(** Row [i] is an approved (a pending) request for animal [x]. *)
Definition approved_row (db : DB) (x i : Z) : Prop :=
  ∃ r, adopts db !! i = Some r ∧ ad_animalid r = x ∧ ad_status r = "approved".

Definition pending_row (db : DB) (x i : Z) : Prop :=
  ∃ r, adopts db !! i = Some r ∧ ad_animalid r = x ∧ ad_status r = "pending".

(** The invariant of the guarded workflow. *)
Record workflow_inv (db : DB) : Prop := mkWorkflowInv {
  inv_animal_ids : ∀ x X, animals db !! x = Some X → x < next_animal db;
  inv_adopt_ids : ∀ i r, adopts db !! i = Some r →
                    i < next_adopt db ∧ ad_animalid r < next_animal db;
  inv_adopted : ∀ x X, animals db !! x = Some X → an_status X = "adopted" →
                  (∃ i, approved_row db x i ∧ ∀ j, approved_row db x j → j = i) ∧
                  (∀ i, ¬ pending_row db x i);
  inv_free : ∀ x X, animals db !! x = Some X → an_status X ≠ "adopted" →
               ∀ i, ¬ approved_row db x i
}.

(** One animal, marked adopted by hand. *)
Definition rex : CreateAnimalRequest :=
  mkCreateAnimalRequest (JsString "chien") (JsString "Rex") (JsString "Paris")
    (AgeNumber 3) (JsString "labrador") JsUndefined.

Definition marked_db : DB :=
  (run (MarkAdopted (Some 1)) (run (CreateAnimal rex) empty_db).2).2.

(** Stores reached by short runs that use the operations outside the guarded
    workflow: animal 1 with request 1 approved, and then the animal marked
    available, the approved request deleted, the approved request decided
    again, or the status written through the animal update. *)
Definition ask_rex : CreateAdoptionRequest :=
  mkCreateAdoptionRequest (JsNumber 1) (JsString "Ada") (JsString "Lovelace")
    (JsString "0601020304").

Definition approved_db : DB :=
  (run (Decide (Some 1) "approved" None)
     (run (CreateAdoption 1 ask_rex) (run (CreateAnimal rex) empty_db).2).2).2.

Definition released_db : DB := (run (MarkAvailable (Some 1)) approved_db).2.

Definition orphaned_db : DB := (run (AdminDeleteAdoption (Some 1)) approved_db).2.

Definition redecided_db : DB := (run (Decide (Some 1) "rejected" None) approved_db).2.

Definition status_written_db : DB :=
  (run (UpdateAnimal (Some 1)
          (mkUpdateAnimalRequest JsUndefined JsUndefined JsUndefined AgeUndefined
             JsUndefined JsUndefined (JsString "adopted")))
       (run (CreateAnimal rex) empty_db).2).2.

(** Every animal of the store carries one of the three statuses of the data
    model. *)
Definition animal_statuses_valid (db : DB) : Prop :=
  ∀ x X, animals db !! x = Some X →
    array_includes ["available"; "adopted"; "pending"] (an_status X) = true.

(** ** Definitions for the further properties *)

(** A text field that may be left out: [Some None] for [undefined] and
    [null], [None] for a value that is no string. *)
Definition js_optional_string (v : JsValue) : option (option string) :=
  match v with
  | JsUndefined | JsNull => Some None
  | JsString s => Some (Some s)
  | _ => None
  end.

(** The animal that [POST /animals] stores for the fields of an accepted
    body. *)
Definition animal_of_body (type name city : string) (age : Z) (breed : string)
    (description : option string) : Animal :=
  mkAnimal (trim type) (trim name) (trim city) age (trim breed)
           (or_null (trim <$> description)) "available".

(** The body of [POST /animals] carries the text fields and the age given:
    strings, a description that is a string or left out, and a number. *)
Definition animal_fields (b : CreateAnimalRequest) (type name city : string)
    (age : Z) (breed : string) (description : option string) : Prop :=
  cr_type b = JsString type ∧ cr_name b = JsString name ∧
  cr_city b = JsString city ∧ cr_age b = AgeNumber age ∧
  cr_breed b = JsString breed ∧
  js_optional_string (cr_description b) = Some description.

(** A text field of an update that the service can prepare: it is missing
    or a string. *)
Definition text_field (v : JsValue) : bool :=
  match v with
  | JsUndefined | JsString _ => true
  | _ => false
  end.

Definition text_fields (u : UpdateAnimalRequest) : bool :=
  text_field (up_type u) && text_field (up_name u) && text_field (up_city u)
  && text_field (up_breed u) && text_field (up_description u).

(** Stores reachable from the empty store by operations that satisfy a guard. *)
Inductive reachable_when (guard : Op → DB → Prop) : DB → Prop :=
  | reachable_when_empty : reachable_when guard empty_db
  | reachable_when_step op db :
      reachable_when guard db → guard op db →
      reachable_when guard (run op db).2.


(** Row [i] is an active (pending or approved) request of user [uid] for
    animal [x]. *)
Definition active_row (db : DB) (uid x i : Z) : Prop :=
  ∃ r, adopts db !! i = Some r ∧ ad_userid r = uid ∧ ad_animalid r = x ∧
       (ad_status r = "pending" ∨ ad_status r = "approved").


(** The ids of the requests are below the next value of their sequence. *)
Definition adopt_ids_fresh (db : DB) : Prop :=
  ∀ i r, adopts db !! i = Some r → i < next_adopt db.

(** Every request carries one of the three statuses of the data model. *)
Definition adopt_statuses_valid (db : DB) : Prop :=
  ∀ i r, adopts db !! i = Some r →
    array_includes ["pending"; "approved"; "rejected"] (ad_status r) = true.

(** [prisma.animal.count({ where: { status } })] and its analogue on
    donations. *)
Definition animal_count (cond : Animal → bool) (m : gmap Z Animal) : nat :=
  size (filter (λ kv, cond kv.2 = true) m).

Definition donation_count (cond : Donation → bool) (m : gmap Z Donation) : nat :=
  size (filter (λ kv, cond kv.2 = true) m).

(** The counts of [AnimalService.getAnimalStats]; the groupings by type and
    by city are left out. *)
Record AnimalStats := mkAnimalStats {
  as_total : nat;
  as_available : nat;
  as_adopted : nat;
  as_pending : nat
}.

Definition getAnimalStats (db : DB) : AnimalStats :=
  mkAnimalStats
    (size (animals db))
    (animal_count (λ a, String.eqb (an_status a) "available") (animals db))
    (animal_count (λ a, String.eqb (an_status a) "adopted") (animals db))
    (animal_count (λ a, String.eqb (an_status a) "pending") (animals db)).

(** The counts by status of [GET /admin/adoptions/stats]; the count of the
    current month and the recent requests, which read the creation date, are
    left out. *)
Record AdoptionStats := mkAdoptionStats {
  os_total : nat;
  os_pending : nat;
  os_approved : nat;
  os_rejected : nat
}.

Definition adoption_stats (db : DB) : AdoptionStats :=
  mkAdoptionStats
    (size (adopts db))
    (adopt_count (λ _, is_status "pending") (adopts db))
    (adopt_count (λ _, is_status "approved") (adopts db))
    (adopt_count (λ _, is_status "rejected") (adopts db)).

(** The counts of [GET /admin/donations/stats]; the sum of the amounts is
    left out.  [failedDonations] is computed by subtraction on JavaScript
    numbers. *)
Record DonationStats := mkDonationStats {
  ds_totalDonations : Z;
  ds_completedDonations : Z;
  ds_pendingDonations : Z;
  ds_failedDonations : Z
}.

Definition donation_stats (db : DB) : DonationStats :=
  let totalCount := Z.of_nat (size (donations db)) in
  let completedDonations :=
    Z.of_nat (donation_count (λ d, String.eqb (dn_status d) "completed")
                (donations db)) in
  let pendingDonations :=
    Z.of_nat (donation_count (λ d, String.eqb (dn_status d) "pending")
                (donations db)) in
  mkDonationStats totalCount completedDonations pendingDonations
    (totalCount - completedDonations - pendingDonations).

(** ** Reading one donation or one request *)

(** A response that carries a payload; [dr_message] is [None] where the
    handler sets no message. *)
Record DataResponse (D : Type) := mkDataResponse {
  dr_status : Z;
  dr_success : bool;
  dr_message : option string;
  dr_data : option D
}.
Arguments mkDataResponse {D} _ _ _ _.
Arguments dr_status {D} _.
Arguments dr_success {D} _.
Arguments dr_message {D} _.
Arguments dr_data {D} _.

Definition refused {D} (code : Z) (msg : string) : DataResponse D :=
  mkDataResponse code false (Some msg) None.

(** [GET /donations/:id]; the payload is the row (the joined user is left
    out).  [donation.userid] is [null] for an anonymous donation. *)
Definition get_donation (userId : Z) (donationId : option Z) (db : DB)
    : DataResponse Donation :=
  match donationId with
  | None => refused 400 "ID de don invalide"
  | Some id =>
    match donations db !! id with
    | None => refused 404 "Don non trouvé"
    | Some donation =>
      if match dn_userid donation with
         | Some u => negb (Z.eqb u userId)
         | None => true
         end then
        refused 403 "Vous ne pouvez consulter que vos propres dons"
      else mkDataResponse 200 true None (Some donation)
    end
  end.

(** [GET /adoptions/:id]; the payload is the row with its joined animal. *)
Definition get_adoption (userId : Z) (adoptionId : option Z) (db : DB)
    : DataResponse (Adopt * option Animal) :=
  match adoptionId with
  | None => refused 400 "ID de demande d'adoption invalide"
  | Some id =>
    match adopts db !! id with
    | None => refused 404 "Demande d'adoption non trouvée"
    | Some adoption =>
      if negb (Z.eqb (ad_userid adoption) userId) then
        refused 403 "Vous ne pouvez consulter que vos propres demandes d'adoption"
      else
        mkDataResponse 200 true None
          (Some (adoption, animals db !! ad_animalid adoption))
    end
  end.

(** ** Updating a donation *)

(** The body of [PUT /admin/donations/:id]; a field is [None] when the body
    does not carry it. *)
Record UpdateDonationRequest := mkUpdateDonationRequest {
  ud_status : option string;
  ud_paymentId : option string;
  ud_paymentMethod : option string
}.

Definition donation_statuses : list string :=
  ["pending"; "completed"; "failed"; "refunded"].

(** [prisma.donation.update]: a field that the data does not carry keeps its
    value. *)
Definition donation_updated (b : UpdateDonationRequest) (d : Donation) : Donation :=
  mkDonation (dn_userid d) (dn_email d) (dn_amount d)
    (default (dn_status d) (ud_status b))
    (match ud_paymentId b with Some p => Some p | None => dn_paymentId d end)
    (match ud_paymentMethod b with Some p => Some p | None => dn_paymentMethod d end).

(** [PUT /admin/donations/:id] *)
Definition update_donation (donationId : option Z) (b : UpdateDonationRequest)
    (db : DB) : Response * DB :=
  match donationId with
  | None => (failure 400 "ID de don invalide", db)
  | Some id =>
    match donations db !! id with
    | None => (failure 404 "Don non trouvé", db)
    | Some existingDonation =>
      if match ud_status b with
         | Some status => truthy status && negb (array_includes donation_statuses status)
         | None => false
         end then
        (failure 400
           "Statut invalide. Statuts autorisés: pending, completed, failed, refunded",
         db)
      else
        (ok 200 "Don mis à jour avec succès",
         set_donations (<[id := donation_updated b existingDonation]> (donations db)) db)
    end
  end.

(** ** Searching animals *)

(** The filters that the route hands to [AnimalService.searchAnimals]. *)
Record SearchFilters := mkSearchFilters {
  sf_type : option string;
  sf_city : option string;
  sf_breed : option string;
  sf_minAge : option Z;
  sf_maxAge : option Z;
  sf_status : option string
}.

(** The query string of [GET /animals/search].  A text parameter that is
    absent is the empty string; an age parameter is [None] when absent or
    empty, and otherwise the result of [parseInt], [Some None] standing for
    [NaN]. *)
Record SearchQuery := mkSearchQuery {
  sq_type : string;
  sq_city : string;
  sq_breed : string;
  sq_minAge : option (option Z);
  sq_maxAge : option (option Z);
  sq_status : string
}.

(** [AnimalService.getAvailableAnimals], as the set of rows it returns (the
    order by creation date is left out, here and in the search). *)
Definition getAvailableAnimals (db : DB) : gmap Z Animal :=
  filter (λ kv, String.eqb (an_status kv.2) "available" = true) (animals db).

Section Search.

(** The case-insensitive substring match of the database,
    [{ contains: needle, mode: 'insensitive' }]. *)
Variable contains_insensitive : string → string → bool.

(** [if (filters.f) where.f = { contains: filters.f, mode: 'insensitive' }] *)
Definition text_matches (f : option string) (field : string) : bool :=
  match f with
  | Some needle => if truthy needle then contains_insensitive needle field else true
  | None => true
  end.

(** The [where] clause that [AnimalService.searchAnimals] builds. *)
Definition search_where (f : SearchFilters) (a : Animal) : bool :=
  text_matches (sf_type f) (an_type a) &&
  text_matches (sf_city f) (an_city a) &&
  text_matches (sf_breed f) (an_breed a) &&
  match sf_minAge f with Some n => Z.leb n (an_age a) | None => true end &&
  match sf_maxAge f with Some n => Z.leb (an_age a) n | None => true end &&
  String.eqb (an_status a) (default "available" (or_null (sf_status f))).

(** [AnimalService.searchAnimals] *)
Definition searchAnimals (f : SearchFilters) (db : DB) : gmap Z Animal :=
  filter (λ kv, search_where f kv.2 = true) (animals db).

Definition filter_text (s : string) : option string :=
  if truthy s then Some s else None.

(** [filters.minAge && filters.maxAge && filters.minAge > filters.maxAge] *)
Definition ages_crossed (minAge maxAge : option Z) : bool :=
  match minAge, maxAge with
  | Some lo, Some hi => negb (Z.eqb lo 0) && negb (Z.eqb hi 0) && Z.ltb hi lo
  | _, _ => false
  end.

(** The checks on an age parameter: [None] when it is refused ([NaN] or
    negative), else the filter it becomes. *)
Definition checked_age (p : option (option Z)) : option (option Z) :=
  match p with
  | None => Some None
  | Some None => None
  | Some (Some n) => if Z.ltb n 0 then None else Some (Some n)
  end.

(** [GET /animals/search] *)
Definition search_animals (q : SearchQuery) (db : DB)
    : DataResponse (gmap Z Animal) :=
  match checked_age (sq_minAge q) with
  | None => refused 400 "L'âge minimum doit être un nombre positif"
  | Some minAge =>
    match checked_age (sq_maxAge q) with
    | None => refused 400 "L'âge maximum doit être un nombre positif"
    | Some maxAge =>
      if ages_crossed minAge maxAge then
        refused 400 "L'âge minimum ne peut pas être supérieur à l'âge maximum"
      else
        let animals :=
          searchAnimals
            (mkSearchFilters (filter_text (sq_type q)) (filter_text (sq_city q))
               (filter_text (sq_breed q)) minAge maxAge
               (filter_text (sq_status q))) db in
        mkDataResponse 200 true
          (Some (pretty (size animals) ++ " animal(s) trouvé(s)")) (Some animals)
    end
  end.

End Search.

(** ** Accounts (AuthService and the authentication routes) *)

(** The store together with the next value of the sequence of user ids. *)
Record AuthStore := mkAuthStore { au_db : DB; au_next_user : Z }.

Record RegisterData := mkRegisterData {
  rd_firstname : string;
  rd_lastname : string;
  rd_email : string;
  rd_password : string;
  rd_phone : option string
}.

(** [AuthService.isValidPassword] *)
Definition isValidPassword (password : string) : Validity :=
  if (js_length password <? 6)%nat then
    mkValidity false (Some "Le mot de passe doit contenir au moins 6 caractères")
  else mkValidity true None.

(** [AuthService.isAdmin] *)
Definition isAdmin (userId : Z) (db : DB) : bool :=
  match users db !! userId with
  | Some user => match us_role user with
                 | Some role => String.eqb role "admin"
                 | None => false
                 end
  | None => false
  end.

(** [AuthService.promoteToAdmin] and [AuthService.demoteFromAdmin]: the
    update throws when no user has the id, and the method then returns
    [false]. *)
Definition promoteToAdmin (userId : Z) (db : DB) : bool * DB :=
  match users db !! userId with
  | Some user =>
    (true, set_users (<[userId := user_with_role (Some "admin") user]> (users db)) db)
  | None => (false, db)
  end.

Definition demoteFromAdmin (userId : Z) (db : DB) : bool * DB :=
  match users db !! userId with
  | Some user =>
    (true, set_users (<[userId := user_with_role (Some "user") user]> (users db)) db)
  | None => (false, db)
  end.

(** [email] is a unique column of the users. *)
Definition emails_unique (m : gmap Z User) : Prop :=
  ∀ i j u v, m !! i = Some u → m !! j = Some v → us_email u = us_email v → i = j.

Section Accounts.

(** [bcrypt.hash(password, SALT_ROUNDS)] and [bcrypt.compare(password, hash)],
    external collaborators. *)
Variable hashPassword : string → string.
Variable comparePassword : string → string → bool.

(** [AuthService.register] *)
Definition register (d : RegisterData) (st : AuthStore)
    : Result LoginResult * AuthStore :=
  match user_findByEmail (rd_email d) (users (au_db st)) with
  | Some _ => (Throws "Un utilisateur avec cet email existe déjà", st)
  | None =>
    let hashedPassword := hashPassword (rd_password d) in
    let role := determineUserRole (rd_email d) in
    let user := mkUser (rd_firstname d) (rd_lastname d) (rd_email d) hashedPassword
                       (rd_phone d) (Some role) in
    let id := au_next_user st in
    let token := generateToken id (us_email user) (role_or_user (us_role user)) in
    (Returns
       (mkLoginResult
          (mkUserView id (us_firstname user) (us_lastname user) (us_email user)
                      (us_phone user) (us_role user))
          token),
     mkAuthStore (set_users (<[id := user]> (users (au_db st))) (au_db st)) (id + 1))
  end.

(** The [catch] block of [POST /login]. *)
Definition login_caught {D} (msg : string) : DataResponse D :=
  if includes "incorrect" msg then refused 401 msg
  else refused 500 "Erreur lors de la connexion".

(** [POST /login].  [email.trim()] throws on an address that is no string.
    A password that is no string reaches [bcrypt.compare] behind the lookup
    of the user, and the library rejects the call with an error that names
    the types of its arguments. *)
Definition login_route (email password : JsValue) (db : DB)
    : DataResponse LoginResult * DB :=
  if negb (js_truthy email) || negb (js_truthy password) then
    (refused 400 "Email et mot de passe requis", db)
  else
    match js_trim email with
    | None => (refused 500 "Erreur lors de la connexion", db)
    | Some trimmed =>
      match password with
      | JsString password =>
        match login comparePassword (toLowerCase trimmed) password db with
        | (Returns result, db') =>
          (mkDataResponse 200 true (Some "Connexion réussie") (Some result), db')
        | (Throws msg, db') => (login_caught msg, db')
        end
      | _ =>
        match user_findByEmail (toLowerCase trimmed) (users db) with
        | None => (login_caught "Email ou mot de passe incorrect", db)
        | Some _ =>
          (login_caught ("Illegal arguments: " ++ js_typeof password ++ ", string"),
           db)
        end
      end
    end.

End Accounts.

(** [AuthService.isValidEmail]: the test of the regular expression
    [/^[^\s@]+@[^\s@]+\.[^\s@]+$/], as it acts on ASCII strings. *)

(** The class [[^\s@]]. *)
Definition email_char (c : ascii) : bool :=
  negb (is_space c) && negb (Ascii.eqb c "@").

(** The characters before the first [@] and those after it. *)
Fixpoint split_at_sign (l : list ascii) : option (list ascii * list ascii) :=
  match l with
  | [] => None
  | c :: l' =>
    if Ascii.eqb c "@" then Some ([], l')
    else match split_at_sign l' with
         | Some (a, rest) => Some (c :: a, rest)
         | None => None
         end
  end.

(** Some dot of [l] has a character before it and a character after it. *)
Fixpoint dot_between (l : list ascii) : bool :=
  match l with
  | [] => false
  | _ :: l' =>
    match l' with
    | c :: _ :: _ => Ascii.eqb c "." || dot_between l'
    | _ => false
    end
  end.

Definition isValidEmail (email : string) : bool :=
  match split_at_sign (list_ascii_of_string email) with
  | Some (a, rest) =>
    negb (bool_decide (a = [])) && forallb email_char a &&
    forallb email_char rest && dot_between rest
  | None => false
  end.

(** The body of [POST /register].  The address and the password are
    strings here: a body that carries another value in one of them is outside
    the model. *)
Record RegisterRequest := mkRegisterRequest {
  rr_firstname : JsValue;
  rr_lastname : JsValue;
  rr_email : string;
  rr_password : string;
  rr_phone : JsValue
}.

Section Registration.

Variable hashPassword : string → string.

(** [POST /register].  The [trim] calls on the names ([?.trim] on the
    phone) throw on a value that is no string, before the service is
    called. *)
Definition register_route (b : RegisterRequest) (st : AuthStore)
    : DataResponse LoginResult * AuthStore :=
  if negb (js_truthy (rr_firstname b)) || negb (js_truthy (rr_lastname b))
     || negb (truthy (rr_email b)) || negb (truthy (rr_password b)) then
    (refused 400 "Tous les champs sont requis (firstname, lastname, email, password)",
     st)
  else if negb (isValidEmail (rr_email b)) then
    (refused 400 "Format d'email invalide", st)
  else if negb (valid (isValidPassword (rr_password b))) then
    (mkDataResponse 400 false (message (isValidPassword (rr_password b))) None, st)
  else
    match js_trim (rr_firstname b), js_trim (rr_lastname b),
          js_trim_optional (rr_phone b) with
    | Some firstname, Some lastname, Some phone =>
      match register hashPassword
              (mkRegisterData firstname lastname (toLowerCase (trim (rr_email b)))
                 (rr_password b) phone) st with
      | (Returns result, st') =>
        (mkDataResponse 201 true (Some "Utilisateur créé avec succès") (Some result),
         st')
      | (Throws msg, st') =>
        if includes "existe déjà" msg then (refused 409 msg, st')
        else (refused 500 "Erreur lors de l'inscription", st')
      end
    | _, _, _ => (refused 500 "Erreur lors de l'inscription", st)
    end.

End Registration.

(** A stand-in for the password hash on concrete stores: the hash of a
    password is the password behind a prefix. *)
Definition plain_hash (p : string) : string := "hash:" ++ p.

Definition plain_compare (p h : string) : bool := String.eqb h (plain_hash p).

Definition ada_request : RegisterRequest :=
  mkRegisterRequest (JsString "Ada") (JsString "Lovelace") "Ada@Example.com"
    "secret1" JsUndefined.

(** * Properties *)

(** ** Counting and lookup lemmas for the tables *)

Lemma size_one_singleton {A} (m : gmap Z A) :
  size m = 1%nat → ∃ i x, m = {[i := x]}.
Proof.
  intros Hs.
  assert (Hne : size m ≠ 0%nat) by lia.
  apply map_size_ne_0_lookup in Hne as [i [x Hix]].
  exists i, x.
  assert (Hd : delete i m = ∅).
  { apply map_size_empty_iff. rewrite map_size_delete_Some by eauto. lia. }
  rewrite <- (insert_delete_id m i x Hix), Hd. done.
Qed.

Lemma adopt_count_zero c (m : gmap Z Adopt) :
  adopt_count c m = 0%nat ↔ ∀ i r, m !! i = Some r → c i r = false.
Proof.
  unfold adopt_count. rewrite map_size_empty_iff, map_empty_filter; unfold map_Forall.
  split.
  - intros H i r Hi. specialize (H i r Hi). simpl in H.
    by destruct (c i r).
  - intros H i r Hi. simpl. rewrite (H i r Hi). done.
Qed.

Lemma adopt_count_one c (m : gmap Z Adopt) :
  adopt_count c m = 1%nat ↔
  ∃ i r, m !! i = Some r ∧ c i r = true ∧
         ∀ j r', m !! j = Some r' → c j r' = true → j = i.
Proof.
  unfold adopt_count. split.
  - intros Hs. apply size_one_singleton in Hs as [i [r Heq]].
    exists i, r.
    assert (Hi : filter (λ kv, c kv.1 kv.2 = true) m !! i = Some r)
      by (rewrite Heq; apply lookup_singleton_eq).
    apply map_lookup_filter_Some in Hi as [Hi Hc]. simpl in Hc.
    repeat split; try done.
    intros j r' Hj Hcj.
    assert (Hf : filter (λ kv, c kv.1 kv.2 = true) m !! j = Some r')
      by (apply map_lookup_filter_Some; done).
    rewrite Heq in Hf. apply lookup_singleton_Some in Hf as [? _]. done.
  - intros [i [r [Hi [Hc Hu]]]].
    assert (Heq : filter (λ kv, c kv.1 kv.2 = true) m = {[i := r]}).
    { apply map_eq. intros j. destruct (decide (j = i)) as [->|Hne].
      - rewrite lookup_singleton_eq. apply map_lookup_filter_Some. done.
      - rewrite lookup_singleton_ne by done.
        apply map_lookup_filter_None. right. intros r' Hj Hcj. simpl in Hcj.
        apply Hne. eauto. }
    rewrite Heq. apply map_size_singleton.
Qed.

Lemma adopt_findFirst_None c (m : gmap Z Adopt) :
  adopt_findFirst c m = None ↔ ∀ i r, m !! i = Some r → c i r = false.
Proof.
  unfold adopt_findFirst. rewrite head_None, map_to_list_empty_iff.
  rewrite <- adopt_count_zero. unfold adopt_count. by rewrite map_size_empty_iff.
Qed.

Lemma adopt_findFirst_Some c (m : gmap Z Adopt) i r :
  m !! i = Some r → c i r = true → is_Some (adopt_findFirst c m).
Proof.
  intros Hi Hc. destruct (adopt_findFirst c m) eqn:E; [eauto|].
  rewrite adopt_findFirst_None in E. rewrite (E i r Hi) in Hc. done.
Qed.

Lemma lookup_adopt_updateMany c upd (m : gmap Z Adopt) i :
  adopt_updateMany c upd m !! i =
  (λ r, if c i r then upd r else r) <$> m !! i.
Proof.
  unfold adopt_updateMany. rewrite map_lookup_imap.
  by destruct (m !! i).
Qed.

Lemma decide_tx_approved db id A X oX c :
  adopts db !! id = Some A →
  animals db !! ad_animalid A = Some X →
  decide_tx id A oX "approved" c db =
  Some (adopt_with_status "approved" (or_null c) A, approve_store id A X c db).
Proof.
  intros HA HX. unfold decide_tx, mbind, tx_bind, mret, tx_ret, tx_adopt_update.
  rewrite HA. simpl. unfold tx_animal_update. simpl. rewrite HX. simpl.
  reflexivity.
Qed.

Lemma decide_adoption_atomic id status c db :
  let '(r, db') := decide_adoption (Some id) status c db in
  (res_status r = 200 ∧
   ∃ A a, adopts db !! id = Some A ∧
          decide_tx id A (animals db !! ad_animalid A) status c db = Some (a, db'))
  ∨ (res_status r ≠ 200 ∧ db' = db).
Proof.
  unfold decide_adoption.
  destruct (negb _); [right; done|].
  destruct (adopts db !! id) as [A|] eqn:HA; [|right; done].
  unfold transaction.
  destruct (decide_tx id A _ status c db) as [[a db']|] eqn:E.
  - left. split; [done|]. eauto.
  - right. done.
Qed.

Lemma decide_adoption_approved db id A X c :
  adopts db !! id = Some A →
  animals db !! ad_animalid A = Some X →
  decide_adoption (Some id) "approved" c db =
  (ok 200 "Demande d'adoption approuvée avec succès", approve_store id A X c db).
Proof.
  intros HA HX. unfold decide_adoption. simpl. rewrite HA.
  unfold transaction. rewrite (decide_tx_approved db id A X _ c HA HX).
  reflexivity.
Qed.

(** C1: approving request [A] for animal [X] answers 200 and commits, as the
    result of one transaction, a store in which [A] is approved, [X] is
    adopted, every other request for [X] that was pending is rejected, and
    every other request is as it was; no request for [X] is left pending.
    For any new status the handler commits the whole transaction body or
    leaves the store as it was. *)
Theorem approve_cascade (db : DB) (id : Z) (A : Adopt) (X : Animal)
    (c : option string) :
  adopts db !! id = Some A →
  animals db !! ad_animalid A = Some X →
  ∃ db',
    decide_adoption (Some id) "approved" c db =
      (ok 200 "Demande d'adoption approuvée avec succès", db') ∧
    transaction (decide_tx id A (Some X) "approved" c) db =
      (Some (adopt_with_status "approved" (or_null c) A), db') ∧
    adopts db' !! id = Some (adopt_with_status "approved" (or_null c) A) ∧
    animals db' = <[ad_animalid A := animal_with_status "adopted" X]> (animals db) ∧
    (∀ j B, j ≠ id → adopts db !! j = Some B →
            ad_animalid B = ad_animalid A → ad_status B = "pending" →
            adopts db' !! j =
              Some (adopt_with_status "rejected" (Some auto_reject_comment) B)) ∧
    (∀ j B, j ≠ id → adopts db !! j = Some B →
            ad_animalid B ≠ ad_animalid A ∨ ad_status B ≠ "pending" →
            adopts db' !! j = Some B) ∧
    (∀ j, adopts db !! j = None → adopts db' !! j = None) ∧
    adopt_count (pending_for (ad_animalid A)) (adopts db') = 0%nat ∧
    (∀ status c',
       (decide_adoption (Some id) status c' db).2 = db ∨
       ∃ a, decide_tx id A (Some X) status c' db =
              Some (a, (decide_adoption (Some id) status c' db).2)).
Proof.
  intros HA HX.
  assert (Hall : ∀ status c',
             (decide_adoption (Some id) status c' db).2 = db ∨
             ∃ a, decide_tx id A (Some X) status c' db =
                    Some (a, (decide_adoption (Some id) status c' db).2)).
  { intros status c'. pose proof (decide_adoption_atomic id status c' db) as Hat.
    destruct (decide_adoption (Some id) status c' db) as [r db'].
    destruct Hat as [[_ [A0 [a [HA0 Htx]]]]|[_ ->]]; [right|left; reflexivity].
    simpl. rewrite HA in HA0. injection HA0 as <-. rewrite HX in Htx. eauto. }
  exists (approve_store id A X c db).
  split; [by apply decide_adoption_approved|].
  split; [unfold transaction; by rewrite (decide_tx_approved db id A X _ c HA HX)|].
  unfold approve_store. simpl.
  assert (Hself : other_pending (ad_animalid A) id id
                    (adopt_with_status "approved" (or_null c) A) = false).
  { unfold other_pending. rewrite Z.eqb_refl. simpl. by rewrite andb_false_r. }
  split.
  { rewrite lookup_adopt_updateMany, lookup_insert_eq. simpl. by rewrite Hself. }
  split; [done|].
  split.
  { intros j B Hj HB Hx Hs.
    rewrite lookup_adopt_updateMany, lookup_insert_ne, HB by done. simpl.
    unfold other_pending, for_animal, is_status. rewrite Hx, Hs, Z.eqb_refl.
    apply Z.eqb_neq in Hj. rewrite Hj. by simpl. }
  split.
  { intros j B Hj HB Hor.
    rewrite lookup_adopt_updateMany, lookup_insert_ne, HB by done. simpl.
    unfold other_pending, for_animal, is_status.
    destruct Hor as [Hx|Hs].
    - apply Z.eqb_neq in Hx. rewrite Hx. by simpl.
    - apply String.eqb_neq in Hs. rewrite Hs. by rewrite andb_false_r. }
  split.
  { intros j Hj. rewrite lookup_adopt_updateMany.
    destruct (decide (j = id)) as [->|Hne]; [congruence|].
    by rewrite lookup_insert_ne, Hj. }
  split; [|exact Hall].
  apply adopt_count_zero. intros j r Hj.
  rewrite lookup_adopt_updateMany in Hj.
  unfold pending_for, for_animal, is_status.
  destruct (decide (j = id)) as [->|Hne].
  - rewrite lookup_insert_eq in Hj. simpl in Hj. rewrite Hself in Hj.
    injection Hj as <-. simpl. by rewrite andb_false_r.
  - rewrite lookup_insert_ne in Hj by done.
    destruct (adopts db !! j) as [B|] eqn:HB; [|done]. simpl in Hj.
    injection Hj as <-.
    unfold other_pending, for_animal, is_status.
    apply Z.eqb_neq in Hne. rewrite Hne. simpl.
    destruct (ad_animalid B =? ad_animalid A)%Z eqn:Ex; simpl.
    + destruct (String.eqb (ad_status B) "pending") eqn:Es; simpl.
      * by rewrite Ex.
      * by rewrite Ex, Es.
    + by rewrite Ex.
Qed.

(** ** The decision handler on the three accepted statuses *)

Lemma valid_decision_status status :
  array_includes ["pending"; "approved"; "rejected"] status = true →
  status = "pending" ∨ status = "approved" ∨ status = "rejected".
Proof.
  unfold array_includes. simpl. rewrite !orb_true_iff, !String.eqb_eq.
  intros [?|[?|[?|?]]]; auto. discriminate.
Qed.

Lemma decide_tx_rejected db id A X c :
  adopts db !! id = Some A →
  animals db !! ad_animalid A = Some X →
  decide_tx id A (Some X) "rejected" c db =
  Some (adopt_with_status "rejected" (or_null c) A, reject_store id A X c db).
Proof.
  intros HA HX. unfold decide_tx, reject_store, mbind, tx_bind, mret, tx_ret,
    tx_adopt_update, tx_deref, tx_adopt_count, tx_animal_update.
  rewrite HA. simpl.
  destruct (String.eqb (an_status X) "pending"); simpl; [|done].
  destruct (Nat.eqb _ 0); simpl; [|done].
  rewrite HX. done.
Qed.

Lemma decide_tx_pending db id A oX c :
  adopts db !! id = Some A →
  decide_tx id A oX "pending" c db =
  Some (adopt_with_status "pending" (or_null c) A, repend_store id A c db).
Proof.
  intros HA. unfold decide_tx, repend_store, mbind, tx_bind, mret, tx_ret,
    tx_adopt_update.
  rewrite HA. done.
Qed.

Lemma decide_adoption_valid db id A X status c :
  adopts db !! id = Some A →
  animals db !! ad_animalid A = Some X →
  array_includes ["pending"; "approved"; "rejected"] status = true →
  decide_adoption (Some id) status c db =
  (ok 200 (decide_message status), decide_store id A X status c db).
Proof.
  intros HA HX Hs. unfold decide_adoption. rewrite Hs, HA. simpl negb. cbv iota.
  unfold transaction, decide_store. rewrite HX.
  destruct (valid_decision_status status Hs) as [-> | [-> | ->]].
  - by rewrite (decide_tx_pending db id A _ c HA).
  - by rewrite (decide_tx_approved db id A X _ c HA HX).
  - by rewrite (decide_tx_rejected db id A X c HA HX).
Qed.

Lemma decide_store_lookup db id A X status c :
  array_includes ["pending"; "approved"; "rejected"] status = true →
  adopts (decide_store id A X status c db) !! id =
  Some (adopt_with_status status (or_null c) A).
Proof.
  intros Hs. unfold decide_store.
  destruct (valid_decision_status status Hs) as [-> | [-> | ->]]; simpl.
  - unfold repend_store. simpl. by rewrite lookup_insert_eq.
  - unfold approve_store. simpl.
    rewrite lookup_adopt_updateMany, lookup_insert_eq. simpl.
    unfold other_pending. rewrite Z.eqb_refl. simpl. by rewrite andb_false_r.
  - unfold reject_store. destruct (_ && _); simpl; by rewrite lookup_insert_eq.
Qed.

Lemma valid_animal_status s :
  array_includes ["available"; "adopted"; "pending"] s = true →
  s = "available" ∨ s = "adopted" ∨ s = "pending".
Proof.
  unfold array_includes. simpl. rewrite !orb_true_iff, !String.eqb_eq.
  intros [?|[?|[?|?]]]; auto. discriminate.
Qed.

Lemma pending_for_true x i r :
  pending_for x i r = true ↔ ad_animalid r = x ∧ ad_status r = "pending".
Proof.
  unfold pending_for, for_animal, is_status.
  by rewrite andb_true_iff, Z.eqb_eq, String.eqb_eq.
Qed.

Lemma approved_for_true x i r :
  approved_for x i r = true ↔ ad_animalid r = x ∧ ad_status r = "approved".
Proof.
  unfold approved_for, for_animal, is_status.
  by rewrite andb_true_iff, Z.eqb_eq, String.eqb_eq.
Qed.

Lemma other_pending_true x id i r :
  other_pending x id i r = true ↔
  ad_animalid r = x ∧ i ≠ id ∧ ad_status r = "pending".
Proof.
  unfold other_pending, for_animal, is_status.
  rewrite !andb_true_iff, negb_true_iff, Z.eqb_eq, Z.eqb_neq, String.eqb_eq.
  tauto.
Qed.

(** C5: rejecting the last pending request of an animal whose status is not
    [adopted] (and is one of the data model's, as it is in every reachable
    store) answers 200 and leaves no pending request for the animal and the
    animal [available]. *)
Theorem reject_last_pending (db : DB) (id : Z) (A : Adopt) (X : Animal)
    (c : option string) :
  adopts db !! id = Some A →
  animals db !! ad_animalid A = Some X →
  ad_status A = "pending" →
  adopt_count (pending_for (ad_animalid A)) (adopts db) = 1%nat →
  array_includes ["available"; "adopted"; "pending"] (an_status X) = true →
  an_status X ≠ "adopted" →
  ∃ db',
    decide_adoption (Some id) "rejected" c db =
      (ok 200 "Demande d'adoption rejetée avec succès", db') ∧
    adopt_count (pending_for (ad_animalid A)) (adopts db') = 0%nat ∧
    an_status <$> animals db' !! ad_animalid A = Some "available".
Proof.
  intros HA HX Hpend Hone Hvalid Hnot.
  exists (reject_store id A X c db).
  split.
  { rewrite (decide_adoption_valid db id A X "rejected" c HA HX) by done. done. }
  apply adopt_count_one in Hone as [i [r [Hi [Hc Huniq]]]].
  assert (Hid : id = i).
  { apply (Huniq id A HA). apply pending_for_true. done. }
  subst i.
  set (rows := <[id := adopt_with_status "rejected" (or_null c) A]> (adopts db)).
  assert (Hothers : adopt_count (other_pending (ad_animalid A) id) rows = 0%nat).
  { apply adopt_count_zero. intros j r' Hj.
    destruct (other_pending (ad_animalid A) id j r') eqn:E; [|done].
    apply other_pending_true in E as [Hx [Hne Hs]].
    unfold rows in Hj. rewrite lookup_insert_ne in Hj by done.
    exfalso. apply Hne. apply (Huniq j r' Hj). by apply pending_for_true. }
  assert (Hrows : adopt_count (pending_for (ad_animalid A)) rows = 0%nat).
  { apply adopt_count_zero. intros j r' Hj.
    destruct (pending_for (ad_animalid A) j r') eqn:E; [|done].
    apply pending_for_true in E as [Hx Hs].
    unfold rows in Hj. destruct (decide (j = id)) as [->|Hne].
    - rewrite lookup_insert_eq in Hj. injection Hj as <-. simpl in Hs. discriminate.
    - rewrite lookup_insert_ne in Hj by done.
      exfalso. apply Hne. apply (Huniq j r' Hj). by apply pending_for_true. }
  unfold reject_store. fold rows. rewrite Hothers. simpl Nat.eqb.
  destruct (valid_animal_status _ Hvalid) as [Hs | [Hs | Hs]]; [|done|].
  - rewrite Hs. simpl. split; [done|]. rewrite HX. simpl. by rewrite Hs.
  - rewrite Hs. simpl. split; [done|]. by rewrite lookup_insert_eq.
Qed.

Lemma not_conflict_200 r : res_status r = 200 → ¬ Conflict r.
Proof. unfold Conflict. intros ->. intros [?|?]; discriminate. Qed.

(** C3, as stated, fails: in the scenario of the specification, once 101 is
    approved (which rejected 102), approving 102 is not refused.  It answers
    200, changes the store, and leaves 101 and 102 both approved. *)
Lemma approve_after_sibling_approved :
  let out := decide_adoption (Some 102) "approved" None settled_db in
  ad_status <$> adopts settled_db !! 102 = Some "rejected" ∧
  ¬ Conflict out.1 ∧
  out.1 = ok 200 "Demande d'adoption approuvée avec succès" ∧
  out.2 ≠ settled_db ∧
  ad_status <$> adopts out.2 !! 102 = Some "approved" ∧
  ad_status <$> adopts out.2 !! 101 = Some "approved" ∧
  an_status <$> animals out.2 !! 7 = Some "adopted".
Proof.
  intros out.
  assert (H102 : ad_status <$> adopts settled_db !! 102 = Some "rejected")
    by (by vm_compute).
  assert (H102' : ad_status <$> adopts out.2 !! 102 = Some "approved") by (by vm_compute).
  split; [done|].
  split; [apply not_conflict_200; by vm_compute|].
  split; [by vm_compute|].
  split; [intros E; rewrite E in H102'; rewrite H102 in H102'; discriminate|].
  split; [done|].
  split; by vm_compute.
Qed.

(** C3, amended: the decision handler does not look at the current status of
    the request.  Whatever that status is, a decision with one of the three
    accepted statuses on a request whose animal exists answers 200, not a
    conflict, sets the request to the new status and commits the cascade of
    that status. *)
Theorem decide_ignores_current_status (db : DB) (id : Z) (A : Adopt) (X : Animal)
    (status : string) (c : option string) :
  adopts db !! id = Some A →
  animals db !! ad_animalid A = Some X →
  array_includes ["pending"; "approved"; "rejected"] status = true →
  ∃ db',
    decide_adoption (Some id) status c db = (ok 200 (decide_message status), db') ∧
    ¬ Conflict (ok 200 (decide_message status)) ∧
    db' = decide_store id A X status c db ∧
    adopts db' !! id = Some (adopt_with_status status (or_null c) A).
Proof.
  intros HA HX Hs. exists (decide_store id A X status c db).
  split; [by apply decide_adoption_valid|].
  split; [by apply not_conflict_200|].
  split; [done|].
  by apply decide_store_lookup.
Qed.

(** ** Creating, cancelling and deleting *)

Lemma active_for_true uid x i r :
  active_for uid x i r = true ↔
  ad_userid r = uid ∧ ad_animalid r = x ∧
  (ad_status r = "pending" ∨ ad_status r = "approved").
Proof.
  unfold active_for, for_animal, array_includes. simpl.
  rewrite !andb_true_iff, !orb_true_iff, !Z.eqb_eq, !String.eqb_eq.
  intuition discriminate.
Qed.

(** C4, as stated, fails: the handler checks that the four fields of the body
    are present before it looks anything up.  With an empty first name, a
    call for an animal that does not exist is not answered with 404, and a
    call for an available animal by a user with no active request inserts
    nothing.  The same call with a first name that is a number and not a
    string passes the presence check and inserts nothing either: [trim]
    throws and the answer is 500. *)
Lemma create_adoption_checks_fields_first :
  let b := mkCreateAdoptionRequest (JsNumber 7) (JsString "") (JsString "Lovelace")
             (JsString "0601020304") in
  let b' := mkCreateAdoptionRequest (JsNumber 7) (JsNumber 5) (JsString "Lovelace")
              (JsString "0601020304") in
  (animals empty_db !! 7 = None ∧
   ¬ NotFound (create_adoption 3 b empty_db).1) ∧
  (an_status <$> animals scenario_db !! 7 = Some "available" ∧
   adopt_findFirst (active_for 3 7) (adopts scenario_db) = None ∧
   create_adoption 3 b scenario_db =
     (failure 400 "Tous les champs sont requis (animalId, firstname, lastname, phone)",
      scenario_db) ∧
   adoption_fields_present b' = true ∧
   create_adoption 3 b' scenario_db = (create_adoption_error, scenario_db)).
Proof.
  intros b b'. split; [split|split; [|split; [|split; [|split]]]]; by vm_compute.
Qed.

(** C4, amended: a call that lacks one of the four fields is answered with a
    validation error and changes nothing.  A call that carries them all fails
    with 500 when [animalId] is no integer; with 404 when the animal does not
    exist; else with a conflict (400) when the animal is not available; else
    with a conflict (409) when the user has a pending or approved request for
    the animal; else (also after a rejected request) it inserts a pending
    request with the trimmed names and phone and leaves the animals as they
    were when the three are strings, and fails with 500 when one of them is
    not.  Every failure leaves the store as it was. *)
Theorem create_adoption_cases (userId : Z) (b : CreateAdoptionRequest) (db : DB) :
  (adoption_fields_present b = false →
     ∃ r, create_adoption userId b db = (r, db) ∧ Validation r) ∧
  (adoption_fields_present b = true →
     (js_int (car_animalId b) = None →
        ∃ r, create_adoption userId b db = (r, db) ∧ res_status r = 500) ∧
     (∀ animalId, car_animalId b = JsNumber animalId →
        (animals db !! animalId = None →
           ∃ r, create_adoption userId b db = (r, db) ∧ NotFound r) ∧
        (∀ X, animals db !! animalId = Some X →
              an_status X ≠ "available" →
           ∃ r, create_adoption userId b db = (r, db) ∧ Conflict r ∧
                res_status r = 400) ∧
        (∀ X i r0, animals db !! animalId = Some X →
              an_status X = "available" →
              adopts db !! i = Some r0 →
              ad_userid r0 = userId → ad_animalid r0 = animalId →
              ad_status r0 = "pending" ∨ ad_status r0 = "approved" →
           ∃ r, create_adoption userId b db = (r, db) ∧ Conflict r ∧
                res_status r = 409) ∧
        (∀ X, animals db !! animalId = Some X →
              an_status X = "available" →
              (∀ i r0, adopts db !! i = Some r0 →
                       ad_userid r0 = userId → ad_animalid r0 = animalId →
                       ad_status r0 ≠ "pending" ∧ ad_status r0 ≠ "approved") →
           (∀ firstname lastname phone,
              car_firstname b = JsString firstname →
              car_lastname b = JsString lastname →
              car_phone b = JsString phone →
              ∃ r db', create_adoption userId b db = (r, db') ∧ res_status r = 201 ∧
                db' = adopt_create
                        (mkAdopt userId animalId (trim firstname) (trim lastname)
                           (trim phone) "pending" None) db ∧
                animals db' = animals db) ∧
           (js_trim (car_firstname b) = None ∨ js_trim (car_lastname b) = None ∨
            js_trim (car_phone b) = None →
              ∃ r, create_adoption userId b db = (r, db) ∧ res_status r = 500)))).
Proof.
  split.
  { intros Hf. unfold create_adoption. rewrite Hf. simpl. eexists. split; [done|].
    done. }
  intros Hf. unfold create_adoption. rewrite Hf. simpl negb. cbv iota.
  split.
  { intros ->. eexists. split; [done|]. done. }
  intros animalId ->. cbn [js_int].
  split; [|split; [|split]].
  - intros ->. eexists. split; [done|]. done.
  - intros X -> Hs. apply String.eqb_neq in Hs. rewrite Hs. simpl.
    eexists. split; [done|]. split; [by right|done].
  - intros X i r0 -> Hs Hi Hu Ha Hact. apply String.eqb_eq in Hs. rewrite Hs. simpl.
    destruct (adopt_findFirst_Some (active_for userId animalId)
                (adopts db) i r0 Hi) as [kv ->].
    { by apply active_for_true. }
    eexists. split; [done|]. split; [by left|done].
  - intros X -> Hs Hnone. apply String.eqb_eq in Hs. rewrite Hs. simpl.
    assert (E : adopt_findFirst (active_for userId animalId) (adopts db) = None).
    { apply adopt_findFirst_None. intros i r0 Hi.
      destruct (active_for userId animalId i r0) eqn:E; [|done].
      apply active_for_true in E as [Hu [Ha Hst]].
      destruct (Hnone i r0 Hi Hu Ha) as [? ?]. destruct Hst; done. }
    rewrite E. split.
    + intros firstname lastname phone -> -> ->. simpl.
      eexists _, _. split; [done|]. done.
    + intros Hbad.
      destruct (js_trim (car_firstname b)) as [f|];
        [|eexists; split; [done|]; done].
      destruct (js_trim (car_lastname b)) as [l|];
        [|eexists; split; [done|]; done].
      destruct (js_trim (car_phone b)) as [ph|];
        [|eexists; split; [done|]; done].
      by destruct Hbad as [?|[?|?]].
Qed.

(** C7: cancelling an existing request fails with 403 when the requester is
    not its owner, else with a conflict (400) when it is not pending, else
    deletes the request; the animals are left as they were in every case. *)
Theorem cancel_adoption_cases (userId id : Z) (A : Adopt) (db : DB) :
  adopts db !! id = Some A →
  (ad_userid A ≠ userId →
     ∃ r, cancel_adoption userId (Some id) db = (r, db) ∧ Forbidden r) ∧
  (ad_userid A = userId → ad_status A ≠ "pending" →
     ∃ r, cancel_adoption userId (Some id) db = (r, db) ∧ Conflict r ∧
          res_status r = 400) ∧
  (ad_userid A = userId → ad_status A = "pending" →
     ∃ r db', cancel_adoption userId (Some id) db = (r, db') ∧ res_status r = 200 ∧
       adopts db' = delete id (adopts db) ∧ adopts db' !! id = None) ∧
  animals (cancel_adoption userId (Some id) db).2 = animals db.
Proof.
  intros HA. unfold cancel_adoption. rewrite HA.
  split; [|split; [|split]].
  - intros Hu. apply Z.eqb_neq in Hu. rewrite Hu. simpl. by eexists.
  - intros Hu Hs. apply Z.eqb_eq in Hu. apply String.eqb_neq in Hs.
    rewrite Hu, Hs. simpl. eexists. split; [done|]. split; [by right|done].
  - intros Hu Hs. apply Z.eqb_eq in Hu. apply String.eqb_eq in Hs.
    rewrite Hu, Hs. simpl. eexists _, _. split; [done|]. split; [done|].
    split; [done|]. simpl. apply lookup_delete_eq.
  - destruct (negb _); [done|]. destruct (negb _); done.
Qed.

(** C8: deleting a donation fails with 404 when no donation has the id, with a
    conflict (400) that leaves the record in place when its status is
    [completed], and removes the record for any other status. *)
Theorem delete_donation_cases (id : Z) (db : DB) :
  (donations db !! id = None →
     ∃ r, delete_donation (Some id) db = (r, db) ∧ NotFound r) ∧
  (∀ d, donations db !! id = Some d → dn_status d = "completed" →
     ∃ r, delete_donation (Some id) db = (r, db) ∧ Conflict r ∧
          res_status r = 400 ∧ donations db !! id = Some d) ∧
  (∀ d, donations db !! id = Some d → dn_status d ≠ "completed" →
     ∃ r db', delete_donation (Some id) db = (r, db') ∧ res_status r = 200 ∧
       donations db' = delete id (donations db) ∧ donations db' !! id = None).
Proof.
  unfold delete_donation. split; [|split].
  - intros ->. by eexists.
  - intros d Hd Hs. rewrite Hd. apply String.eqb_eq in Hs. rewrite Hs.
    eexists. split; [done|]. split; [by right|]. done.
  - intros d Hd Hs. rewrite Hd. apply String.eqb_neq in Hs. rewrite Hs.
    eexists _, _. split; [done|]. split; [done|]. split; [done|].
    simpl. apply lookup_delete_eq.
Qed.

Lemma adopt_count_delete_unique c (m : gmap Z Adopt) id A :
  m !! id = Some A → c id A = true →
  adopt_count c m = 1%nat → adopt_count c (delete id m) = 0%nat.
Proof.
  intros HA Hc Hone. apply adopt_count_one in Hone as [i [r [Hi [Hci Huniq]]]].
  apply adopt_count_zero. intros j r' Hj.
  destruct (c j r') eqn:E; [|done].
  apply lookup_delete_Some in Hj as [Hne Hj].
  exfalso. apply Hne. rewrite (Huniq id A HA Hc). symmetry. by apply (Huniq j r').
Qed.

(** C9: the administrator's deletion removes an existing request of any
    status and nothing else: other requests and all animals are as they were.
    So deleting the one approved request of an adopted animal leaves it
    adopted with no approved request, and deleting the last pending request
    leaves the animal's status as it was. *)
Theorem admin_delete_adoption_frame (id : Z) (A : Adopt) (db : DB) :
  adopts db !! id = Some A →
  ∃ db',
    admin_delete_adoption (Some id) db =
      (ok 200 "Demande d'adoption supprimée avec succès", db') ∧
    db' = set_adopts (delete id (adopts db)) db ∧
    adopts db' !! id = None ∧
    (∀ j, j ≠ id → adopts db' !! j = adopts db !! j) ∧
    animals db' = animals db ∧
    (ad_status A = "approved" →
     adopt_count (approved_for (ad_animalid A)) (adopts db) = 1%nat →
     ∀ X, animals db !! ad_animalid A = Some X → an_status X = "adopted" →
       animals db' !! ad_animalid A = Some X ∧
       adopt_count (approved_for (ad_animalid A)) (adopts db') = 0%nat) ∧
    (ad_status A = "pending" →
     adopt_count (pending_for (ad_animalid A)) (adopts db) = 1%nat →
     ∀ X, animals db !! ad_animalid A = Some X → an_status X ≠ "available" →
       animals db' !! ad_animalid A = Some X ∧
       adopt_count (pending_for (ad_animalid A)) (adopts db') = 0%nat).
Proof.
  intros HA. unfold admin_delete_adoption. rewrite HA.
  eexists. split; [done|]. split; [done|]. simpl.
  split; [apply lookup_delete_eq|].
  split; [intros j Hj; by apply lookup_delete_ne|].
  split; [done|].
  split.
  - intros Hs Hone X HX _. split; [done|].
    apply (adopt_count_delete_unique _ _ id A); try done.
    by apply approved_for_true.
  - intros Hs Hone X HX _. split; [done|].
    apply (adopt_count_delete_unique _ _ id A); try done.
    by apply pending_for_true.
Qed.

Lemma pending_rows_none (m : gmap Z Adopt) x :
  size (filter (λ kv, is_status "pending" kv.2 = true)
          (filter (λ kv, for_animal x kv.2 = true) m)) = 0%nat ↔
  ∀ i r, m !! i = Some r → ad_animalid r = x → ad_status r ≠ "pending".
Proof.
  rewrite map_size_empty_iff, map_empty_filter. unfold map_Forall. split.
  - intros H i r Hi Hx Hs. apply (H i r); simpl.
    + apply map_lookup_filter_Some. split; [done|]. simpl. by apply Z.eqb_eq.
    + by apply String.eqb_eq.
  - intros H i r Hi Hs. simpl in Hs.
    apply map_lookup_filter_Some in Hi as [Hi Hx]. simpl in Hx.
    apply Z.eqb_eq in Hx. apply String.eqb_eq in Hs. by apply (H i r).
Qed.

(** C6: deleting an animal fails with 404 when it does not exist, with a
    conflict (409) that leaves it in place when some request that references
    it is pending, and succeeds when none is, whatever rejected or approved
    requests reference it. *)
Theorem delete_animal_cases (id : Z) (db : DB) :
  (animals db !! id = None →
     ∃ r, delete_animal (Some id) db = (r, db) ∧ NotFound r) ∧
  (∀ X i r0, animals db !! id = Some X →
       adopts db !! i = Some r0 → ad_animalid r0 = id → ad_status r0 = "pending" →
     ∃ r, delete_animal (Some id) db = (r, db) ∧ Conflict r ∧ res_status r = 409 ∧
          animals db !! id = Some X) ∧
  (∀ X, animals db !! id = Some X →
       (∀ i r0, adopts db !! i = Some r0 → ad_animalid r0 = id →
                ad_status r0 ≠ "pending") →
     ∃ r db', delete_animal (Some id) db = (r, db') ∧ res_status r = 200 ∧
       animals db' = delete id (animals db) ∧ animals db' !! id = None).
Proof.
  unfold delete_animal, deleteAnimal. split; [|split].
  - intros ->. simpl. by eexists.
  - intros X i r0 HX Hi Hx Hs. rewrite HX.
    destruct (size _) as [|n] eqn:E.
    { pose proof (proj1 (pending_rows_none _ _) E) as E'.
      by destruct (E' i r0 Hi Hx). }
    simpl. eexists. split; [done|]. split; [by left|done].
  - intros X HX Hnone. rewrite HX.
    rewrite (proj2 (pending_rows_none _ _) Hnone). simpl.
    eexists _, _. split; [done|]. split; [done|]. split; [done|].
    apply lookup_delete_eq.
Qed.

(** ** Login *)

(** C10, as stated, fails on a user whose stored role is [null]: the login
    writes the derived role [user] to the store, and the token it issues
    carries [user] too, which is the updated role and not the stored one. *)
Lemma login_null_role_token :
  let expectedRole := determineUserRole "bob@example.com" in
  let out := login (λ _ _, true) "bob@example.com" "secret" legacy_db in
  us_role legacy_user = None ∧
  role_differs expectedRole (us_role legacy_user) = true ∧
  us_role <$> users out.2 !! 5 = Some (Some expectedRole) ∧
  ∃ res, out.1 = Returns res ∧
         tk_role (lr_token res) = expectedRole ∧
         Some (tk_role (lr_token res)) ≠ us_role legacy_user.
Proof.
  intros expectedRole out.
  split; [done|]. split; [done|]. split; [by vm_compute|].
  eexists. split; [by vm_compute|]. split; [by vm_compute|]. done.
Qed.

Lemma role_or_user_stored r : r ≠ "" → role_or_user (Some r) = r.
Proof.
  intros Hr. unfold role_or_user, or_null, truthy.
  apply String.eqb_neq in Hr. by rewrite Hr.
Qed.

(** C10, amended: on a successful login whose derived role differs from the
    stored one, the stored role is overwritten with the derived role, the
    returned user object carries the role as it was stored, and the token
    carries [storedRole || 'user']: the previously stored role, different
    from the updated one, when that is a non-empty string, and the default
    [user] when it is [null] or empty. *)
Theorem login_stale_role (comparePassword : string → string → bool)
    (email password : string) (db : DB) (id : Z) (user : User) :
  user_findByEmail email (users db) = Some (id, user) →
  comparePassword password (us_password user) = true →
  role_differs (determineUserRole email) (us_role user) = true →
  ∃ res db',
    login comparePassword email password db = (Returns res, db') ∧
    users db' !! id = Some (user_with_role (Some (determineUserRole email)) user) ∧
    uv_role (lr_user res) = us_role user ∧
    tk_role (lr_token res) = role_or_user (us_role user) ∧
    (∀ r, us_role user = Some r → r ≠ "" →
          tk_role (lr_token res) = r ∧ r ≠ determineUserRole email) ∧
    (us_role user = None ∨ us_role user = Some "" → tk_role (lr_token res) = "user").
Proof.
  intros Hfind Hpw Hdiff. unfold login. rewrite Hfind, Hpw, Hdiff. simpl.
  eexists _, _. split; [done|]. simpl.
  split; [apply lookup_insert_eq|].
  split; [done|]. split; [done|].
  split.
  - intros r Hr Hne. rewrite Hr. split; [by apply role_or_user_stored|].
    rewrite Hr in Hdiff. simpl in Hdiff. apply negb_true_iff, String.eqb_neq in Hdiff.
    congruence.
  - intros [-> | ->]; done.
Qed.

(** ** The invariant of the guarded workflow *)

Ltac store_simpl :=
  unfold approved_row, pending_row, approve_store, reject_store, repend_store,
    animal_delete, adopt_create, animal_create, set_adopts, set_animals in *;
  simpl in *.

Lemma workflow_inv_empty : workflow_inv empty_db.
Proof.
  split; simpl.
  - intros x X H. by rewrite lookup_empty in H.
  - intros i r H. by rewrite lookup_empty in H.
  - intros x X H. by rewrite lookup_empty in H.
  - intros x X H. by rewrite lookup_empty in H.
Qed.

Lemma workflow_inv_transfer db db' :
  workflow_inv db →
  (∀ x X', animals db' !! x = Some X' → x < next_animal db') →
  (∀ i r, adopts db' !! i = Some r →
          i < next_adopt db' ∧ ad_animalid r < next_animal db') →
  (∀ x X', animals db' !! x = Some X' →
           ∃ X, animals db !! x = Some X ∧
                (an_status X' = "adopted" ↔ an_status X = "adopted")) →
  (∀ x i, is_Some (animals db' !! x) →
          approved_row db' x i ↔ approved_row db x i) →
  (∀ x X' i, animals db' !! x = Some X' → an_status X' = "adopted" →
             pending_row db' x i → pending_row db x i) →
  workflow_inv db'.
Proof.
  intros [Ha Hr Had Hfree] Ha' Hr' Hanim Happ Hpend.
  split; [done|done| |].
  - intros x X' HX' Hs.
    destruct (Hanim x X' HX') as [X [HX Hiff]].
    destruct (Had x X HX (proj1 Hiff Hs)) as [[i [Hi Huniq]] Hnp].
    split.
    + exists i. split.
      * apply Happ; eauto.
      * intros j Hj. apply Huniq. apply Happ; eauto.
    + intros j Hj. apply (Hnp j). by apply (Hpend x X').
  - intros x X' HX' Hs i Hi.
    destruct (Hanim x X' HX') as [X [HX Hiff]].
    apply (Hfree x X HX (λ H, Hs (proj2 Hiff H)) i).
    apply Happ; eauto.
Qed.

(** Removing a row that is not approved. *)
Lemma workflow_inv_delete_row db id A :
  workflow_inv db → adopts db !! id = Some A → ad_status A ≠ "approved" →
  workflow_inv (set_adopts (delete id (adopts db)) db).
Proof.
  intros Hinv HA Hs. apply (workflow_inv_transfer db); store_simpl; try done.
  - apply Hinv.
  - intros i r Hi. apply lookup_delete_Some in Hi as [_ Hi]. by apply Hinv.
  - intros x X' HX'. exists X'. done.
  - intros x i _. split.
    + intros [r [Hi Hrest]]. apply lookup_delete_Some in Hi as [_ Hi]. eauto.
    + intros [r [Hi [Hx Hst]]]. exists r. split; [|done].
      apply lookup_delete_Some. split; [|done]. intros ->. congruence.
  - intros x X' i _ _ [r [Hi Hrest]]. apply lookup_delete_Some in Hi as [_ Hi].
    exists r. done.
Qed.

(** Replacing a pending row by a row of the same animal that is not approved. *)
Lemma workflow_inv_replace_row db id A A' :
  workflow_inv db → adopts db !! id = Some A → ad_status A = "pending" →
  ad_animalid A' = ad_animalid A → ad_status A' ≠ "approved" →
  workflow_inv (set_adopts (<[id := A']> (adopts db)) db).
Proof.
  intros Hinv HA Hs Hx' Hs'. apply (workflow_inv_transfer db); store_simpl; try done.
  - apply Hinv.
  - intros i r Hi. apply lookup_insert_Some in Hi as [[<- <-]|[_ Hi]].
    + rewrite Hx'. by apply Hinv.
    + by apply Hinv.
  - intros x X' HX'. exists X'. done.
  - intros x i _. split.
    + intros [r [Hi [Hx Hst]]]. apply lookup_insert_Some in Hi as [[<- <-]|[_ Hi]].
      * done.
      * eauto.
    + intros [r [Hi [Hx Hst]]]. exists r. split; [|done].
      apply lookup_insert_Some. right. split; [|done]. intros ->.
      rewrite HA in Hi. injection Hi as <-. rewrite Hs in Hst. discriminate.
  - intros x X' i _ _ [r [Hi [Hx Hst]]].
    apply lookup_insert_Some in Hi as [[<- <-]|[_ Hi]].
    + exists A. rewrite <- Hx'. done.
    + exists r. done.
Qed.

(** Adding a pending row for an animal that is not adopted. *)
Lemma workflow_inv_create_row db y Y r :
  workflow_inv db → animals db !! y = Some Y → an_status Y ≠ "adopted" →
  ad_animalid r = y → ad_status r = "pending" →
  workflow_inv (adopt_create r db).
Proof.
  intros Hinv HY HsY Hy Hs.
  assert (Hfresh : adopts db !! next_adopt db = None).
  { destruct (adopts db !! next_adopt db) as [r0|] eqn:E; [|done].
    apply Hinv in E. lia. }
  apply (workflow_inv_transfer db); store_simpl; try done.
  - apply Hinv.
  - intros i r0 Hi. apply lookup_insert_Some in Hi as [[<- <-]|[_ Hi]].
    + split; [lia|]. rewrite Hy. by apply (inv_animal_ids db Hinv y Y).
    + apply Hinv in Hi. lia.
  - intros x X' HX'. exists X'. done.
  - intros x i _. split.
    + intros [r0 [Hi [Hx Hst]]]. apply lookup_insert_Some in Hi as [[<- <-]|[_ Hi]].
      * rewrite Hs in Hst. discriminate.
      * eauto.
    + intros [r0 [Hi [Hx Hst]]]. exists r0. split; [|done].
      apply lookup_insert_Some. right. split; [|done]. intros <-. congruence.
  - intros x X' i HX' HsX' [r0 [Hi [Hx Hst]]].
    apply lookup_insert_Some in Hi as [[<- <-]|[_ Hi]].
    + rewrite Hy in Hx. subst x. congruence.
    + exists r0. done.
Qed.

(** Rewriting an animal without moving it into or out of [adopted]. *)
Lemma workflow_inv_update_animal db x0 X X' :
  workflow_inv db → animals db !! x0 = Some X →
  (an_status X' = "adopted" ↔ an_status X = "adopted") →
  workflow_inv (set_animals (<[x0 := X']> (animals db)) db).
Proof.
  intros Hinv HX Hiff. apply (workflow_inv_transfer db); store_simpl; try done.
  - intros x X1 H1. apply lookup_insert_Some in H1 as [[<- <-]|[_ H1]].
    + by apply (inv_animal_ids db Hinv x0 X).
    + by apply (inv_animal_ids db Hinv x X1).
  - apply Hinv.
  - intros x X1 H1. apply lookup_insert_Some in H1 as [[<- <-]|[_ H1]].
    + exists X. done.
    + exists X1. done.
Qed.

Lemma workflow_inv_animal_delete db id :
  workflow_inv db → workflow_inv (animal_delete id db).
Proof.
  intros Hinv. apply (workflow_inv_transfer db); store_simpl; try done.
  - intros x X' HX'. apply lookup_delete_Some in HX' as [_ HX'].
    by apply (inv_animal_ids db Hinv x X').
  - intros i r Hi. apply map_lookup_filter_Some in Hi as [Hi _]. by apply Hinv.
  - intros x X' HX'. apply lookup_delete_Some in HX' as [_ HX']. exists X'. done.
  - intros x i [X' HX']. apply lookup_delete_Some in HX' as [Hne _].
    split.
    + intros [r [Hi Hrest]]. apply map_lookup_filter_Some in Hi as [Hi _]. eauto.
    + intros [r [Hi [Hx Hst]]]. exists r. split; [|done].
      apply map_lookup_filter_Some. split; [done|]. simpl.
      unfold for_animal. apply Z.eqb_neq. congruence.
  - intros x X' i _ _ [r [Hi Hrest]].
    apply map_lookup_filter_Some in Hi as [Hi _]. exists r. done.
Qed.

Lemma workflow_inv_animal_create db a :
  workflow_inv db → an_status a = "available" →
  workflow_inv (animal_create a db).
Proof.
  intros Hinv Hs.
  assert (Hnone : ∀ i r, adopts db !! i = Some r → ad_animalid r ≠ next_animal db).
  { intros i r Hi. apply Hinv in Hi. lia. }
  split; store_simpl.
  - intros x X HX. apply lookup_insert_Some in HX as [[<- <-]|[_ HX]]; [lia|].
    apply Hinv in HX. lia.
  - intros i r Hi. apply Hinv in Hi. lia.
  - intros x X HX HsX. apply lookup_insert_Some in HX as [[<- <-]|[_ HX]].
    + rewrite Hs in HsX. discriminate.
    + apply (inv_adopted db Hinv x X HX HsX).
  - intros x X HX HsX i. apply lookup_insert_Some in HX as [[<- <-]|[_ HX]].
    + intros [r [Hi [Hx _]]]. by apply (Hnone i r).
    + apply (inv_free db Hinv x X HX HsX).
Qed.

Lemma approve_store_lookup db id A X c i :
  adopts (approve_store id A X c db) !! i =
  if decide (i = id) then Some (adopt_with_status "approved" (or_null c) A)
  else (λ r, if other_pending (ad_animalid A) id i r
             then adopt_with_status "rejected" (Some auto_reject_comment) r
             else r) <$> adopts db !! i.
Proof.
  unfold approve_store. simpl. rewrite lookup_adopt_updateMany.
  destruct (decide (i = id)) as [->|Hne].
  - rewrite lookup_insert_eq. simpl. unfold other_pending.
    rewrite Z.eqb_refl. simpl. by rewrite andb_false_r.
  - by rewrite lookup_insert_ne.
Qed.

(** Rows of other animals are not touched by an approval. *)
Lemma approve_store_other db id A X c i r :
  adopts db !! id = Some A → ad_animalid r ≠ ad_animalid A →
  adopts (approve_store id A X c db) !! i = Some r ↔ adopts db !! i = Some r.
Proof.
  intros HA Hne. rewrite approve_store_lookup.
  destruct (decide (i = id)) as [->|Hi].
  - split.
    + intros [= <-]. done.
    + rewrite HA. intros [= <-]. done.
  - destruct (adopts db !! i) as [r0|] eqn:E; simpl; [|done].
    destruct (other_pending (ad_animalid A) id i r0) eqn:Eo.
    + apply other_pending_true in Eo as [Hx _]. split.
      * intros [= <-]. done.
      * intros [= <-]. done.
    + done.
Qed.

Lemma workflow_inv_approve db id A X c :
  workflow_inv db → adopts db !! id = Some A →
  animals db !! ad_animalid A = Some X → ad_status A = "pending" →
  workflow_inv (approve_store id A X c db).
Proof.
  intros Hinv HA HX Hs.
  assert (HnotX : an_status X ≠ "adopted").
  { intros Had. destruct (inv_adopted db Hinv _ X HX Had) as [_ Hnp].
    apply (Hnp id). exists A. done. }
  pose proof (inv_free db Hinv _ X HX HnotX) as Hfree.
  assert (Hrows : ∀ x i, x ≠ ad_animalid A →
            (approved_row (approve_store id A X c db) x i ↔ approved_row db x i) ∧
            (pending_row (approve_store id A X c db) x i ↔ pending_row db x i)).
  { intros x i Hx. unfold approved_row, pending_row.
    split; split; intros [r [Hi [Hrx Hst]]]; exists r; (split; [|done]);
      (apply (approve_store_other db id A X c i r HA); [congruence|done]). }
  split.
  - intros x X'. unfold approve_store. simpl. intros HX'.
    apply lookup_insert_Some in HX' as [[<- <-]|[_ HX']].
    + by apply (inv_animal_ids db Hinv _ X).
    + by apply (inv_animal_ids db Hinv x X').
  - intros i r. rewrite approve_store_lookup.
    assert (next_animal (approve_store id A X c db) = next_animal db) as -> by done.
    assert (next_adopt (approve_store id A X c db) = next_adopt db) as -> by done.
    destruct (decide (i = id)) as [->|Hi].
    + intros [= <-]. simpl. by apply Hinv.
    + destruct (adopts db !! i) as [r0|] eqn:E; simpl; [|done].
      intros [= <-]. apply Hinv in E. by destruct (other_pending _ _ _ _).
  - intros x X' HX' HsX'.
    destruct (decide (x = ad_animalid A)) as [->|Hx].
    + split.
      * exists id. split.
        { exists (adopt_with_status "approved" (or_null c) A).
          rewrite approve_store_lookup. by rewrite decide_True. }
        intros j [r [Hj [Hrx Hst]]]. rewrite approve_store_lookup in Hj.
        destruct (decide (j = id)) as [->|Hne]; [done|].
        destruct (adopts db !! j) as [r0|] eqn:E; simpl in Hj; [|done].
        injection Hj as <-.
        destruct (other_pending (ad_animalid A) id j r0) eqn:Eo.
        { simpl in Hst. discriminate. }
        exfalso. apply (Hfree j). exists r0. done.
      * intros j [r [Hj [Hrx Hst]]]. rewrite approve_store_lookup in Hj.
        destruct (decide (j = id)) as [->|Hne].
        { injection Hj as <-. simpl in Hst. discriminate. }
        destruct (adopts db !! j) as [r0|] eqn:E; simpl in Hj; [|done].
        injection Hj as <-.
        destruct (other_pending (ad_animalid A) id j r0) eqn:Eo.
        { simpl in Hst. discriminate. }
        assert (other_pending (ad_animalid A) id j r0 = true); [|congruence].
        apply other_pending_true. done.
    + unfold approve_store in HX'. simpl in HX'.
      rewrite lookup_insert_ne in HX' by done.
      destruct (inv_adopted db Hinv x X' HX' HsX') as [[i [Hi Huniq]] Hnp].
      split.
      * exists i. split; [by apply Hrows|].
        intros j Hj. apply Huniq. by apply Hrows.
      * intros j Hj. apply (Hnp j). by apply Hrows.
  - intros x X' HX' HsX' i Hi.
    unfold approve_store in HX'. simpl in HX'.
    apply lookup_insert_Some in HX' as [[<- <-]|[Hx HX']]; [done|].
    apply (inv_free db Hinv x X' HX' HsX' i). apply Hrows; [congruence|done].
Qed.

(** ** The writes of the handlers that take a body *)

(** [POST /adoptions] leaves the store as it was or inserts one pending
    request for an available animal. *)
Lemma create_adoption_writes userId b db :
  (create_adoption userId b db).2 = db ∨
  ∃ animalId Y firstname lastname phone,
    car_animalId b = JsNumber animalId ∧
    animals db !! animalId = Some Y ∧ an_status Y = "available" ∧
    adopt_findFirst (active_for userId animalId) (adopts db) = None ∧
    create_adoption userId b db =
      (ok 201 "Demande d'adoption créée avec succcès",
       adopt_create
         (mkAdopt userId animalId firstname lastname phone "pending" None) db).
Proof.
  unfold create_adoption. destruct (negb _); [by left|].
  destruct (car_animalId b) as [| |?|animalId| |?|]; simpl; try by left.
  destruct (animals db !! animalId) as [Y|] eqn:HY; [|by left].
  destruct (String.eqb (an_status Y) "available") eqn:Hs; [|by left]. simpl.
  apply String.eqb_eq in Hs.
  destruct (adopt_findFirst _ _) eqn:Hf; [by left|].
  destruct (js_trim (car_firstname b)) as [f|]; [|by left].
  destruct (js_trim (car_lastname b)) as [l|]; [|by left].
  destruct (js_trim (car_phone b)) as [ph|]; [|by left].
  right. by eexists animalId, Y, f, l, ph.
Qed.

(** [POST /animals] leaves the store as it was or inserts one available
    animal. *)
Lemma create_animal_writes b db :
  (create_animal b db).2 = db ∨
  ∃ a, an_status a = "available" ∧
    create_animal b db = (ok 201 "Animal créé avec succès", animal_create a db).
Proof.
  unfold create_animal. destruct (_ || _); [by left|].
  destruct (cr_age b) as [| |age]; [by left|by left|].
  destruct (cr_name b) as [| |?|?| |name|]; try by left.
  destruct (negb _); [by left|]. destruct (negb _); [by left|].
  destruct (js_trim (cr_type b)) as [type|]; [|by left].
  destruct (js_trim (cr_city b)) as [city|]; [|by left].
  destruct (js_trim (cr_breed b)) as [breed|]; [|by left].
  destruct (js_trim_optional (cr_description b)) as [description|]; [|by left].
  unfold createAnimal. destruct (_ || _); [by left|].
  destruct (Z.leb age 0); [by left|]. right.
  eexists. split; [|reflexivity]. reflexivity.
Qed.

Lemma updated_status_valid v current s :
  updated_status v current = Returns s →
  (v = JsUndefined ∧ s = current) ∨
  array_includes ["available"; "adopted"; "pending"] s = true.
Proof.
  destruct v as [| |?|?| |x|]; cbn [updated_status]; try done.
  - intros [= <-]. by left.
  - destruct (array_includes ["available"; "adopted"; "pending"] x) eqn:E; [|done].
    intros [= <-]. by right.
Qed.

Lemma cleanUpdateData_status u X X' :
  cleanUpdateData u X = Returns X' →
  updated_status (up_status u) (an_status X) = Returns (an_status X').
Proof.
  unfold cleanUpdateData, mbind, result_bind.
  destruct (updated_text "type" _ _); [|done].
  destruct (updated_text "name" _ _); [|done].
  destruct (updated_text "city" _ _); [|done].
  destruct (updated_age _ _); [|done].
  destruct (updated_text "breed" _ _); [|done].
  destruct (updated_description _ _); [|done].
  destruct (updated_status _ _); [|done].
  by intros [= <-].
Qed.

(** [PUT /animals/:id] leaves the store as it was or rewrites the animal it
    addresses. *)
Lemma update_animal_writes oid u db :
  (update_animal oid u db).2 = db ∨
  ∃ id X X', oid = Some id ∧ animals db !! id = Some X ∧
    cleanUpdateData u X = Returns X' ∧
    update_animal oid u db =
      (ok 200 "Animal mis à jour avec succès",
       set_animals (<[id := X']> (animals db)) db).
Proof.
  unfold update_animal. destruct oid as [id|]; [|by left].
  destruct (_ && _); [by left|].
  destruct (name_refused (up_name u)) as [[msg|]|]; [by left| |by left].
  destruct (age_refused (up_age u)); [by left|].
  unfold updateAnimal. destruct (animals db !! id) as [X|] eqn:HX; [|by left].
  destruct (cleanUpdateData u X) as [X'|msg] eqn:Hc; [|by left].
  right. by eexists id, X, X'.
Qed.

Lemma decide_tx_no_animal db id A status c :
  adopts db !! id = Some A → status ≠ "pending" →
  array_includes ["pending"; "approved"; "rejected"] status = true →
  animals db !! ad_animalid A = None →
  decide_tx id A None status c db = None.
Proof.
  intros HA Hp Hs HX.
  unfold decide_tx, mbind, tx_bind, mret, tx_ret, tx_adopt_update,
    tx_animal_update, tx_deref.
  rewrite HA. simpl.
  destruct (valid_decision_status status Hs) as [-> | [-> | ->]]; [done| |done].
  simpl. by rewrite HX.
Qed.

Lemma workflow_inv_step op db :
  workflow_inv db → in_workflow op db → workflow_inv (run op db).2.
Proof.
  intros Hinv Hop. destruct op as [userId b|oid status c|userId oid|b|oid u|oid|oid|oid|oid];
    simpl in *; try done.
  - (* create adoption *)
    destruct (create_adoption_writes userId b db)
      as [-> | (animalId & Y & f & l & p & _ & HY & Hs & _ & ->)]; [done|]. simpl.
    apply (workflow_inv_create_row db animalId Y); try done.
    rewrite Hs. discriminate.
  - (* decide *)
    destruct oid as [id|]; [|done]. unfold decide_adoption.
    destruct (array_includes _ status) eqn:Hs; [|done]. simpl negb. cbv iota.
    destruct (adopts db !! id) as [A|] eqn:HA; [|done].
    specialize (Hop A eq_refl). unfold transaction.
    destruct (animals db !! ad_animalid A) as [X|] eqn:HX.
    + destruct (valid_decision_status status Hs) as [-> | [-> | ->]].
      * rewrite (decide_tx_pending db id A _ c HA). simpl.
        by apply (workflow_inv_replace_row db id A).
      * rewrite (decide_tx_approved db id A X _ c HA HX). simpl.
        by apply workflow_inv_approve.
      * rewrite (decide_tx_rejected db id A X c HA HX). simpl.
        assert (H1 : workflow_inv
                  (set_adopts (<[id := adopt_with_status "rejected" (or_null c) A]>
                                 (adopts db)) db))
          by (by apply (workflow_inv_replace_row db id A)).
        unfold reject_store.
        destruct (String.eqb (an_status X) "pending") eqn:HsX; simpl; [|done].
        destruct (Nat.eqb _ 0); [|done].
        apply String.eqb_eq in HsX.
        apply (workflow_inv_update_animal _ (ad_animalid A) X _ H1); [done|].
        simpl. rewrite HsX. split; discriminate.
    + destruct (decide (status = "pending")) as [-> | Hne].
      * rewrite (decide_tx_pending db id A _ c HA). simpl.
        by apply (workflow_inv_replace_row db id A).
      * by rewrite (decide_tx_no_animal db id A status c HA Hne Hs HX).
  - (* cancel *)
    destruct oid as [id|]; [|done]. unfold cancel_adoption.
    destruct (adopts db !! id) as [A|] eqn:HA; [|done].
    destruct (negb _); [done|].
    destruct (String.eqb (ad_status A) "pending") eqn:Hs; [|done]. simpl.
    apply String.eqb_eq in Hs.
    apply (workflow_inv_delete_row db id A); try done. rewrite Hs. discriminate.
  - (* create animal *)
    destruct (create_animal_writes b db) as [-> | (a & Hs & ->)]; [done|]. simpl.
    by apply workflow_inv_animal_create.
  - (* update animal *)
    destruct (update_animal_writes oid u db)
      as [-> | (id & X & X' & _ & HX & Hc & ->)]; [done|]. simpl.
    apply cleanUpdateData_status in Hc. rewrite Hop in Hc. injection Hc as Hc.
    apply (workflow_inv_update_animal db id X); [done|done|]. by rewrite Hc.
  - (* delete animal *)
    destruct oid as [id|]; [|done]. unfold delete_animal, deleteAnimal.
    destruct (animals db !! id) as [X|] eqn:HX; [|done].
    destruct (0 <? size _)%nat; [done|]. simpl.
    by apply workflow_inv_animal_delete.
  - (* admin delete *)
    destruct oid as [id|]; [|done]. unfold admin_delete_adoption.
    destruct (adopts db !! id) as [A|] eqn:HA; [|done]. simpl.
    apply (workflow_inv_delete_row db id A); auto.
Qed.

Lemma workflow_reachable_inv db : workflow_reachable db → workflow_inv db.
Proof.
  induction 1 as [|op db Hreach IH Hop].
  - apply workflow_inv_empty.
  - by apply workflow_inv_step.
Qed.

Lemma approved_row_count db x :
  adopt_count (approved_for x) (adopts db) = 1%nat ↔
  ∃ i, approved_row db x i ∧ ∀ j, approved_row db x j → j = i.
Proof.
  rewrite adopt_count_one. unfold approved_row. split.
  - intros [i [r [Hi [Hc Huniq]]]]. apply approved_for_true in Hc.
    exists i. split; [by exists r|].
    intros j [r' [Hj Hc']]. apply (Huniq j r' Hj). by apply approved_for_true.
  - intros [i [[r [Hi Hc]] Huniq]]. exists i, r.
    split; [done|]. split; [by apply approved_for_true|].
    intros j r' Hj Hc'. apply Huniq. exists r'. split; [done|].
    by apply approved_for_true in Hc'.
Qed.

(** C2, amended: in every store reachable from the empty store by operations
    of the guarded workflow (creating and cancelling requests, decisions on
    pending requests, creating, deleting and updating animals without a
    status field, the administrator deleting requests that are not
    approved), an animal is adopted if and only if exactly one request that
    references it is approved. *)
Theorem workflow_adoption_consistent (db : DB) :
  workflow_reachable db → adoption_consistent db.
Proof.
  intros Hreach. apply workflow_reachable_inv in Hreach as Hinv.
  intros x X HX. rewrite approved_row_count. split.
  - intros Hs. by destruct (inv_adopted db Hinv x X HX Hs).
  - intros [i [Hi _]].
    destruct (decide (an_status X = "adopted")) as [|Hne]; [done|].
    by destruct (inv_free db Hinv x X HX Hne i).
Qed.

(** ** Statuses of the animals in reachable stores *)

Lemma valid_status_insert db x X' :
  animal_statuses_valid db →
  array_includes ["available"; "adopted"; "pending"] (an_status X') = true →
  ∀ y Y, <[x := X']> (animals db) !! y = Some Y →
    array_includes ["available"; "adopted"; "pending"] (an_status Y) = true.
Proof.
  intros Hv HX' y Y HY. apply lookup_insert_Some in HY as [[<- <-]|[_ HY]]; [done|].
  by apply (Hv y Y).
Qed.

Ltac valid_insert Hv :=
  intros ? ? ?; store_simpl; eapply (valid_status_insert _ _ _ Hv); [|eassumption];
  first [done | simpl; by eapply Hv].

Lemma run_animal_statuses_valid op db :
  animal_statuses_valid db → animal_statuses_valid (run op db).2.
Proof.
  intros Hv.
  destruct op as [userId b|oid status c|userId oid|b|oid u|oid|oid|oid|oid]; simpl.
  - by destruct (create_adoption_writes userId b db)
      as [-> | (animalId & Y & f & l & p & _ & _ & _ & _ & ->)].
  - destruct oid as [id|]; [|done]. unfold decide_adoption.
    destruct (array_includes _ status) eqn:Hs; [|done]. simpl negb. cbv iota.
    destruct (adopts db !! id) as [A|] eqn:HA; [|done]. unfold transaction.
    destruct (animals db !! ad_animalid A) as [X|] eqn:HX.
    + destruct (valid_decision_status status Hs) as [-> | [-> | ->]].
      * by rewrite (decide_tx_pending db id A _ c HA).
      * rewrite (decide_tx_approved db id A X _ c HA HX). simpl.
        valid_insert Hv.
      * rewrite (decide_tx_rejected db id A X c HA HX). simpl.
        unfold reject_store. destruct (_ && _); [|done].
        valid_insert Hv.
    + destruct (decide (status = "pending")) as [-> | Hne].
      * by rewrite (decide_tx_pending db id A _ c HA).
      * by rewrite (decide_tx_no_animal db id A status c HA Hne Hs HX).
  - destruct oid as [id|]; [|done]. unfold cancel_adoption.
    destruct (adopts db !! id); [|done].
    destruct (negb _); [done|]. by destruct (negb _).
  - destruct (create_animal_writes b db) as [-> | (a & Hs & ->)]; [done|]. simpl.
    intros y Y HY. unfold animal_create in HY. simpl in HY.
    apply lookup_insert_Some in HY as [[<- <-]|[_ HY]]; [by rewrite Hs|].
    by apply (Hv y Y).
  - destruct (update_animal_writes oid u db)
      as [-> | (id & X & X' & _ & HX & Hc & ->)]; [done|]. simpl.
    apply cleanUpdateData_status, updated_status_valid in Hc.
    intros y Y HY. simpl in HY.
    apply lookup_insert_Some in HY as [[<- <-]|[_ HY]]; [|by apply (Hv y Y)].
    destruct Hc as [[_ ->]|Hc]; [by apply (Hv id X)|done].
  - destruct oid as [id|]; [|done]. unfold delete_animal, deleteAnimal.
    destruct (animals db !! id); [|done].
    destruct (0 <? size _)%nat; [done|]. simpl.
    intros y Y HY. unfold animal_delete in HY. simpl in HY.
    apply lookup_delete_Some in HY as [_ HY]. by apply (Hv y Y).
  - destruct oid as [id|]; [|done]. unfold mark_adopted, markAsAdopted.
    destruct (animals db !! id); [|done].
    destruct (String.eqb _ _); [done|]. simpl. valid_insert Hv.
  - destruct oid as [id|]; [|done]. unfold mark_available, markAsAvailable.
    destruct (animals db !! id); [|done]. simpl. valid_insert Hv.
  - destruct oid as [id|]; [|done]. unfold admin_delete_adoption.
    by destruct (adopts db !! id).
Qed.

(** In every reachable store the animals carry statuses of the data model. *)
Lemma reachable_animal_statuses_valid db :
  reachable db → animal_statuses_valid db.
Proof.
  induction 1 as [|op db _ IH].
  - intros x X H. simpl in H. by rewrite lookup_empty in H.
  - by apply run_animal_statuses_valid.
Qed.

(** ** The properties on concrete stores *)

Lemma inconsistent_at db x X :
  animals db !! x = Some X →
  bool_decide (an_status X = "adopted") ≠
    bool_decide (adopt_count (approved_for x) (adopts db) = 1%nat) →
  ¬ adoption_consistent db.
Proof.
  intros HX Hne Hc. apply Hne. apply bool_decide_ext. by apply Hc.
Qed.

Lemma reachable_approved_db : reachable approved_db.
Proof. unfold approved_db. do 3 apply reachable_step. apply reachable_empty. Qed.

(** C2, as stated, fails: each of the operations outside the guarded workflow
    reaches a store that breaks the invariant.  Marking an animal adopted by
    hand gives an adopted animal with no approved request; so does deleting
    or deciding again its approved request, or writing the status through
    the animal update; marking it available leaves an approved request on an
    available animal. *)
Lemma overrides_break_consistency :
  (reachable marked_db ∧
   an_status <$> animals marked_db !! 1 = Some "adopted" ∧
   adopt_count (approved_for 1) (adopts marked_db) = 0%nat ∧
   ¬ adoption_consistent marked_db) ∧
  (reachable released_db ∧ ¬ adoption_consistent released_db) ∧
  (reachable orphaned_db ∧ ¬ adoption_consistent orphaned_db) ∧
  (reachable redecided_db ∧ ¬ adoption_consistent redecided_db) ∧
  (reachable status_written_db ∧ ¬ adoption_consistent status_written_db).
Proof.
  split; [|split; [|split; [|split]]].
  - split; [|split; [|split]].
    + unfold marked_db. do 2 apply reachable_step. apply reachable_empty.
    + by vm_compute.
    + by vm_compute.
    + eapply (inconsistent_at _ 1); by vm_compute.
  - split; [apply reachable_step, reachable_approved_db|].
    eapply (inconsistent_at _ 1); by vm_compute.
  - split; [apply reachable_step, reachable_approved_db|].
    eapply (inconsistent_at _ 1); by vm_compute.
  - split; [apply reachable_step, reachable_approved_db|].
    eapply (inconsistent_at _ 1); by vm_compute.
  - split.
    + unfold status_written_db. do 2 apply reachable_step. apply reachable_empty.
    + eapply (inconsistent_at _ 1); by vm_compute.
Qed.

(** C2, amended, on the store reached by creating an animal, requesting it and
    approving the request. *)
Lemma workflow_adoption_consistent_witness :
  workflow_reachable approved_db ∧ adoption_consistent approved_db.
Proof.
  assert (H : workflow_reachable approved_db).
  { unfold approved_db.
    apply workflow_step; [apply workflow_step; [apply workflow_step|]|].
    - apply workflow_empty.
    - exact I.
    - exact I.
    - intros A HA. vm_compute in HA. injection HA as <-. reflexivity. }
  split; [exact H|]. exact (workflow_adoption_consistent approved_db H).
Defined.

(** C1 on the scenario: approving 101 rejects 102 and adopts animal 7. *)
Lemma approve_cascade_witness :
  adopts scenario_db !! 101 = Some request_101 ∧
  animals scenario_db !! ad_animalid request_101 = Some animal_7 ∧
  ∃ db',
    decide_adoption (Some 101) "approved" None scenario_db =
      (ok 200 "Demande d'adoption approuvée avec succès", db') ∧
    an_status <$> animals db' !! 7 = Some "adopted" ∧
    ad_status <$> adopts db' !! 101 = Some "approved" ∧
    ad_status <$> adopts db' !! 102 = Some "rejected".
Proof.
  split; [reflexivity|]. split; [reflexivity|].
  destruct (approve_cascade scenario_db 101 request_101 animal_7 None)
    as (db' & H1 & _ & H3 & H4 & H5 & _); [reflexivity|reflexivity|].
  exists db'. split; [exact H1|].
  split; [rewrite H4; reflexivity|].
  split; [rewrite H3; reflexivity|].
  rewrite (H5 102 request_102); [reflexivity|lia|reflexivity|reflexivity|reflexivity].
Defined.

(** C5 on an animal in status [pending] with a single pending request. *)
Lemma reject_last_pending_witness :
  adopt_count (pending_for 7) (adopts waiting_db) = 1%nat ∧
  ∃ db',
    decide_adoption (Some 101) "rejected" None waiting_db =
      (ok 200 "Demande d'adoption rejetée avec succès", db') ∧
    adopt_count (pending_for 7) (adopts db') = 0%nat ∧
    an_status <$> animals db' !! 7 = Some "available".
Proof.
  split; [vm_compute; reflexivity|].
  apply (reject_last_pending waiting_db 101 request_101
           (animal_with_status "pending" animal_7) None).
  - reflexivity.
  - reflexivity.
  - reflexivity.
  - vm_compute; reflexivity.
  - reflexivity.
  - simpl. discriminate.
Defined.

(** C3, amended, on the scenario: the rejected request 102 is approved. *)
Lemma decide_ignores_current_status_witness :
  ad_status <$> adopts settled_db !! 102 = Some "rejected" ∧
  ∃ db',
    decide_adoption (Some 102) "approved" None settled_db =
      (ok 200 "Demande d'adoption approuvée avec succès", db') ∧
    ad_status <$> adopts db' !! 102 = Some "approved".
Proof.
  split; [vm_compute; reflexivity|].
  destruct (decide_ignores_current_status settled_db 102
              (adopt_with_status "rejected" (Some auto_reject_comment) request_102)
              (animal_with_status "adopted" animal_7) "approved" None)
    as (db' & H1 & _ & _ & H4).
  - vm_compute; reflexivity.
  - vm_compute; reflexivity.
  - reflexivity.
  - exists db'. split; [exact H1|]. rewrite H4. reflexivity.
Defined.

(** C4, amended, on the scenario: one call for each outcome; the insertion is
    by user 2 after the rejection of request 102, and the last two calls
    carry an [animalId] and a first name of the wrong type. *)
Lemma create_adoption_cases_witness :
  let body := λ id firstname lastname phone,
    mkCreateAdoptionRequest (JsNumber id) (JsString firstname) (JsString lastname)
      (JsString phone) in
  (∃ r, create_adoption 3 (body 7 "" "Hopper" "0609")
          scenario_db = (r, scenario_db) ∧ Validation r) ∧
  (∃ r, create_adoption 3 (body 7 "Grace" "Hopper" "0609")
          empty_db = (r, empty_db) ∧ NotFound r) ∧
  (∃ r, create_adoption 3 (body 7 "Grace" "Hopper" "0609")
          settled_db = (r, settled_db) ∧ Conflict r ∧ res_status r = 400) ∧
  (∃ r, create_adoption 1 (body 7 "Ada" "Lovelace" "0601")
          scenario_db = (r, scenario_db) ∧ Conflict r ∧ res_status r = 409) ∧
  (ad_status <$> adopts declined_db !! 102 = Some "rejected" ∧
   ∃ r db', create_adoption 2 (body 7 " Alan " "Turing" "0605")
              declined_db = (r, db') ∧ res_status r = 201 ∧
            adopts db' !! 103 = Some (mkAdopt 2 7 "Alan" "Turing" "0605" "pending" None) ∧
            animals db' = animals declined_db) ∧
  (∃ r, create_adoption 3
          (mkCreateAdoptionRequest (JsString "7") (JsString "Grace")
             (JsString "Hopper") (JsString "0609"))
          scenario_db = (r, scenario_db) ∧ res_status r = 500) ∧
  (∃ r, create_adoption 3
          (mkCreateAdoptionRequest (JsNumber 7) (JsNumber 5) (JsString "Hopper")
             (JsString "0609"))
          scenario_db = (r, scenario_db) ∧ res_status r = 500).
Proof.
  intros body.
  assert (Hfree : ∀ db, adopts db = adopts scenario_db ∨ db = declined_db →
            ∀ uid, uid = 3 ∨ (uid = 2 ∧ db = declined_db) →
            ∀ i r0, adopts db !! i = Some r0 → ad_userid r0 = uid →
              ad_animalid r0 = 7 →
              ad_status r0 ≠ "pending" ∧ ad_status r0 ≠ "approved").
  { intros db Hdb uid Huid i r0 Hi Hu Ha.
    assert (Hrows : i = 101 ∧ r0 = request_101 ∨
                    i = 102 ∧ (r0 = request_102 ∨
                               r0 = adopt_with_status "rejected" None request_102)).
    { destruct (decide (i = 101)) as [-> | H101].
      { left. split; [done|]. destruct Hdb as [Hdb | ->].
        - rewrite Hdb in Hi. vm_compute in Hi. by injection Hi as <-.
        - vm_compute in Hi. by injection Hi as <-. }
      destruct (decide (i = 102)) as [-> | H102].
      { right. split; [done|]. destruct Hdb as [Hdb | ->].
        - rewrite Hdb in Hi. vm_compute in Hi. injection Hi as <-. by left.
        - vm_compute in Hi. injection Hi as <-. by right. }
      exfalso. destruct Hdb as [Hdb | ->].
      - rewrite Hdb in Hi. simpl in Hi.
        rewrite lookup_insert_ne in Hi by done.
        rewrite lookup_singleton_ne in Hi by done. discriminate.
      - unfold declined_db in Hi.
        rewrite (decide_adoption_valid scenario_db 102 request_102 animal_7
                   "rejected" None eq_refl eq_refl eq_refl) in Hi.
        unfold decide_store, reject_store in Hi. simpl in Hi.
        rewrite lookup_insert_ne in Hi by done.
        rewrite lookup_insert_ne in Hi by done.
        rewrite lookup_singleton_ne in Hi by done. discriminate. }
    destruct Hrows as [[-> ->]|[-> [-> | ->]]]; simpl in Hu.
    - destruct Huid as [-> | [-> _]]; discriminate.
    - destruct Huid as [-> | [-> ->]]; [discriminate|].
      vm_compute in Hi. discriminate.
    - split; discriminate. }
  split; [|split; [|split; [|split; [|split; [|split]]]]].
  - apply (create_adoption_cases 3 (body 7 "" "Hopper" "0609") scenario_db).
    reflexivity.
  - apply (proj1 (proj2 (proj2 (create_adoption_cases 3
                    (body 7 "Grace" "Hopper" "0609") empty_db) eq_refl) 7 eq_refl)).
    reflexivity.
  - apply (proj1 (proj2 (proj2 (proj2 (create_adoption_cases 3
                    (body 7 "Grace" "Hopper" "0609") settled_db) eq_refl) 7 eq_refl)))
      with (X := animal_with_status "adopted" animal_7).
    + vm_compute; reflexivity.
    + simpl; discriminate.
  - apply (proj1 (proj2 (proj2 (proj2 (proj2 (create_adoption_cases 1
                    (body 7 "Ada" "Lovelace" "0601") scenario_db) eq_refl) 7 eq_refl))))
      with (X := animal_7) (i := 101) (r0 := request_101);
      try reflexivity.
    left; reflexivity.
  - split; [vm_compute; reflexivity|].
    destruct (proj2 (proj2 (create_adoption_cases 2
                (body 7 " Alan " "Turing" "0605") declined_db) eq_refl) 7 eq_refl)
      as (_ & _ & _ & H).
    destruct (H animal_7) as [Hok _].
    + vm_compute; reflexivity.
    + reflexivity.
    + apply (Hfree declined_db); [by right|by right].
    + destruct (Hok " Alan " "Turing" "0605" eq_refl eq_refl eq_refl)
        as (r & db' & H1 & H2 & H3 & H4).
      exists r, db'. split; [exact H1|]. split; [exact H2|]. split; [|exact H4].
      rewrite H3. vm_compute. reflexivity.
  - apply (proj1 (proj2 (create_adoption_cases 3
                    (mkCreateAdoptionRequest (JsString "7") (JsString "Grace")
                       (JsString "Hopper") (JsString "0609")) scenario_db) eq_refl)).
    reflexivity.
  - destruct (proj2 (proj2 (create_adoption_cases 3
                (mkCreateAdoptionRequest (JsNumber 7) (JsNumber 5) (JsString "Hopper")
                   (JsString "0609")) scenario_db) eq_refl) 7 eq_refl)
      as (_ & _ & _ & H).
    destruct (H animal_7) as [_ Hbad].
    + vm_compute; reflexivity.
    + reflexivity.
    + apply (Hfree scenario_db); [by left|by left].
    + apply Hbad. left. reflexivity.
Defined.

(** C7 on the scenario: a stranger, the owner of an approved request, and the
    owner of a pending request. *)
Lemma cancel_adoption_cases_witness :
  (∃ r, cancel_adoption 2 (Some 101) scenario_db = (r, scenario_db) ∧ Forbidden r) ∧
  (∃ r, cancel_adoption 1 (Some 101) settled_db = (r, settled_db) ∧ Conflict r ∧
        res_status r = 400) ∧
  (∃ r db', cancel_adoption 1 (Some 101) scenario_db = (r, db') ∧
            res_status r = 200 ∧ adopts db' = delete 101 (adopts scenario_db) ∧
            adopts db' !! 101 = None) ∧
  animals (cancel_adoption 1 (Some 101) scenario_db).2 = animals scenario_db.
Proof.
  destruct (cancel_adoption_cases 2 101 request_101 scenario_db eq_refl)
    as (Hforbidden & _).
  destruct (cancel_adoption_cases 1 101
              (adopt_with_status "approved" None request_101) settled_db)
    as (_ & Hconflict & _); [vm_compute; reflexivity|].
  destruct (cancel_adoption_cases 1 101 request_101 scenario_db eq_refl)
    as (_ & _ & Hdelete & Hframe).
  split; [apply Hforbidden; simpl; lia|].
  split; [apply Hconflict; [reflexivity|simpl; discriminate]|].
  split; [apply Hdelete; reflexivity|exact Hframe].
Defined.

(** C8 on a store with a completed and a pending donation. *)
Lemma delete_donation_cases_witness :
  (∃ r, delete_donation (Some 3) donation_db = (r, donation_db) ∧ NotFound r) ∧
  (∃ r, delete_donation (Some 1) donation_db = (r, donation_db) ∧ Conflict r ∧
        is_Some (donations donation_db !! 1)) ∧
  (∃ r db', delete_donation (Some 2) donation_db = (r, db') ∧ res_status r = 200 ∧
            donations db' !! 2 = None).
Proof.
  split; [|split].
  - apply (delete_donation_cases 3 donation_db). reflexivity.
  - destruct (delete_donation_cases 1 donation_db) as (_ & H & _).
    destruct (H _ eq_refl eq_refl) as (r & H1 & H2 & _ & H3).
    exists r. rewrite H3. eauto.
  - destruct (delete_donation_cases 2 donation_db) as (_ & _ & H).
    destruct (H _ eq_refl) as (r & db' & H1 & H2 & _ & H4); [simpl; discriminate|].
    exists r, db'. auto.
Defined.

(** C9 on the scenario after the approval of 101, and on an animal in status
    [pending] with its last pending request. *)
Lemma admin_delete_adoption_frame_witness :
  (∃ db', admin_delete_adoption (Some 101) settled_db =
            (ok 200 "Demande d'adoption supprimée avec succès", db') ∧
          an_status <$> animals db' !! 7 = Some "adopted" ∧
          adopt_count (approved_for 7) (adopts db') = 0%nat) ∧
  (∃ db', admin_delete_adoption (Some 101) waiting_db =
            (ok 200 "Demande d'adoption supprimée avec succès", db') ∧
          an_status <$> animals db' !! 7 = Some "pending" ∧
          adopt_count (pending_for 7) (adopts db') = 0%nat).
Proof.
  split.
  - destruct (admin_delete_adoption_frame 101
                (adopt_with_status "approved" None request_101) settled_db)
      as (db' & H1 & _ & _ & _ & _ & Happroved & _); [vm_compute; reflexivity|].
    destruct (Happroved eq_refl) with (X := animal_with_status "adopted" animal_7)
      as [HX Hcount]; [vm_compute; reflexivity..|].
    exists db'. split; [exact H1|]. split; [|exact Hcount].
    simpl in HX. rewrite HX. reflexivity.
  - destruct (admin_delete_adoption_frame 101 request_101 waiting_db eq_refl)
      as (db' & H1 & _ & _ & _ & _ & _ & Hpending).
    destruct (Hpending eq_refl) with (X := animal_with_status "pending" animal_7)
      as [HX Hcount]; [vm_compute; reflexivity|reflexivity|simpl; discriminate|].
    exists db'. split; [exact H1|]. split; [|exact Hcount].
    simpl in HX. rewrite HX. reflexivity.
Defined.

(** C6 on the empty store, on the scenario, and on the scenario after the
    approval of 101 (one approved and one rejected request, none pending). *)
Lemma delete_animal_cases_witness :
  (∃ r, delete_animal (Some 7) empty_db = (r, empty_db) ∧ NotFound r) ∧
  (∃ r, delete_animal (Some 7) scenario_db = (r, scenario_db) ∧ Conflict r ∧
        res_status r = 409) ∧
  (adopt_count (approved_for 7) (adopts settled_db) = 1%nat ∧
   ∃ r db', delete_animal (Some 7) settled_db = (r, db') ∧ res_status r = 200 ∧
            animals db' !! 7 = None).
Proof.
  split; [|split].
  - apply (delete_animal_cases 7 empty_db). reflexivity.
  - destruct (delete_animal_cases 7 scenario_db) as (_ & H & _).
    destruct (H animal_7 101 request_101) as (r & H1 & H2 & H3 & _);
      try reflexivity.
    exists r. auto.
  - split; [vm_compute; reflexivity|].
    destruct (delete_animal_cases 7 settled_db) as (_ & _ & H).
    destruct (H (animal_with_status "adopted" animal_7))
      as (r & db' & H1 & H2 & _ & H4).
    + vm_compute; reflexivity.
    + intros i r0 Hi Hx.
      destruct (decide (i = 101)) as [-> | H101].
      { vm_compute in Hi. injection Hi as <-. discriminate. }
      destruct (decide (i = 102)) as [-> | H102].
      { vm_compute in Hi. injection Hi as <-. discriminate. }
      exfalso. unfold settled_db in Hi.
      rewrite (decide_adoption_approved scenario_db 101 request_101 animal_7
                 None eq_refl eq_refl) in Hi.
      cbn [snd] in Hi. rewrite approve_store_lookup in Hi.
      rewrite decide_False in Hi by done. simpl in Hi.
      rewrite lookup_insert_ne in Hi by done.
      rewrite lookup_singleton_ne in Hi by done. discriminate.
    + exists r, db'. auto.
Defined.

(** C10, amended, on a user stored as [user] whose address is on the list of
    administrators. *)
Lemma login_stale_role_witness :
  determineUserRole "manager@adaopte.com" = "admin" ∧
  ∃ res db',
    login (λ _ _, true) "manager@adaopte.com" "secret" manager_db = (Returns res, db') ∧
    us_role <$> users db' !! 6 = Some (Some "admin") ∧
    uv_role (lr_user res) = Some "user" ∧
    tk_role (lr_token res) = "user".
Proof.
  split; [reflexivity|].
  destruct (login_stale_role (λ _ _, true) "manager@adaopte.com" "secret"
              manager_db 6 manager_user)
    as (res & db' & H1 & H2 & H3 & H4 & _).
  - vm_compute; reflexivity.
  - reflexivity.
  - reflexivity.
  - exists res, db'. split; [exact H1|]. split; [rewrite H2; reflexivity|].
    split; [exact H3|]. rewrite H4. reflexivity.
Defined.

(** * Further properties of the handlers *)

(** ** Creating and updating animals *)

Lemma truthy_true s : truthy s = true ↔ s ≠ "".
Proof. unfold truthy. by rewrite negb_true_iff, String.eqb_neq. Qed.

Lemma truthy_false s : truthy s = false ↔ s = "".
Proof. unfold truthy. by rewrite negb_false_iff, String.eqb_eq. Qed.

Section StripSpace.

Variable space2 : ascii → ascii → bool.
Variable space3 : ascii → ascii → ascii → bool.

Lemma strip_space_fixed l :
  leading_space space2 space3 l = false → strip_space space2 space3 l = l.
Proof.
  destruct l as [|a [|b [|c l3]]]; simpl; [done| | |].
  - rewrite orb_false_r. by intros ->.
  - rewrite orb_false_r. intros [-> ->]%orb_false_iff. done.
  - intros [-> [-> ->]%orb_false_iff]%orb_false_iff. done.
Qed.

Lemma strip_space_spec n l :
  (length l ≤ n)%nat →
  leading_space space2 space3 (strip_space space2 space3 l) = false ∧
  ∃ p, l = (p ++ strip_space space2 space3 l)%list.
Proof.
  revert l. induction n as [|n IH]; intros l Hn.
  { destruct l; [|simpl in Hn; lia]. split; [done|by exists []]. }
  destruct l as [|a l1]; [split; [done|by exists []]|]. simpl in Hn.
  cbn [strip_space]. destruct (is_space a) eqn:Ea.
  { destruct (IH l1) as [H1 [p Hp]]; [lia|]. split; [done|].
    exists (a :: p). simpl. by rewrite <- Hp. }
  destruct l1 as [|b l2].
  { split; [simpl; by rewrite Ea|by exists []]. }
  simpl in Hn. destruct (space2 a b) eqn:Eb.
  { destruct (IH l2) as [H1 [p Hp]]; [lia|]. split; [done|].
    exists (a :: b :: p). simpl. by rewrite <- Hp. }
  destruct l2 as [|c l3].
  { split; [simpl; by rewrite Ea, Eb|by exists []]. }
  simpl in Hn. destruct (space3 a b c) eqn:Ec.
  { destruct (IH l3) as [H1 [p Hp]]; [lia|]. split; [done|].
    exists (a :: b :: c :: p). simpl. by rewrite <- Hp. }
  split; [simpl; by rewrite Ea, Eb, Ec|by exists []].
Qed.

Lemma strip_space_idem l :
  strip_space space2 space3 (strip_space space2 space3 l) =
  strip_space space2 space3 l.
Proof.
  apply strip_space_fixed. by apply (strip_space_spec (length l)).
Qed.

Lemma strip_space_suffix l : ∃ p, l = (p ++ strip_space space2 space3 l)%list.
Proof. by apply (strip_space_spec (length l)). Qed.

Lemma leading_space_app l q :
  leading_space space2 space3 l = true →
  leading_space space2 space3 (l ++ q) = true.
Proof.
  destruct l as [|a [|b [|c l3]]]; simpl; [done| | |].
  - rewrite orb_false_r. by intros ->.
  - rewrite orb_false_r. intros [-> | ->]%orb_true_iff; [done|].
    by rewrite orb_true_r.
  - done.
Qed.

End StripSpace.

Lemma trim_idem s : trim (trim s) = trim s.
Proof.
  unfold trim. rewrite list_ascii_of_string_of_list_ascii.
  set (l1 := trim_start (list_ascii_of_string s)).
  set (l2 := trim_start_rev (rev l1)).
  assert (H : trim_start (rev l2) = rev l2).
  { apply strip_space_fixed.
    destruct (leading_space is_space2 is_space3 (rev l2)) eqn:E; [|done].
    destruct (strip_space_suffix (λ b a, is_space2 a b) (λ c b a, is_space3 a b c)
                (rev l1)) as [p Hp].
    fold trim_start_rev in Hp. fold l2 in Hp.
    assert (Hl1 : l1 = (rev l2 ++ rev p)%list).
    { rewrite <- rev_app_distr, <- Hp. by rewrite rev_involutive. }
    apply (leading_space_app _ _ _ (rev p)) in E. rewrite <- Hl1 in E.
    unfold l1, trim_start in E.
    by rewrite (proj1 (strip_space_spec _ _ _ _ (Nat.le_refl _))) in E. }
  rewrite H, rev_involutive. unfold l2, trim_start_rev. by rewrite strip_space_idem.
Qed.

Lemma trim_empty : trim "" = "".
Proof. reflexivity. Qed.

Lemma trim_nonempty s : trim s ≠ "" → s ≠ "".
Proof. intros H ->. by apply H. Qed.

Lemma isValidAge_valid age : valid (isValidAge age) = true ↔ (1 ≤ age ≤ 30)%Z.
Proof.
  unfold isValidAge.
  destruct (Z.leb age 0) eqn:E1; simpl; [apply Z.leb_le in E1; split; [done|lia]|].
  apply Z.leb_gt in E1.
  destruct (Z.ltb 30 age) eqn:E2; simpl.
  - apply Z.ltb_lt in E2. split; [done|lia].
  - apply Z.ltb_ge in E2. split; [lia|done].
Qed.

Lemma isValidAnimalName_valid name :
  valid (isValidAnimalName name) = true ↔
  (2 ≤ js_length (trim name) ≤ 50)%nat.
Proof.
  unfold isValidAnimalName.
  destruct (js_length (trim name) <? 2)%nat eqn:E1; simpl.
  { apply Nat.ltb_lt in E1. split; [done|lia]. }
  apply Nat.ltb_ge in E1.
  destruct (50 <? js_length (trim name))%nat eqn:E2; simpl.
  - apply Nat.ltb_lt in E2. split; [done|lia].
  - apply Nat.ltb_ge in E2. split; [lia|done].
Qed.

Lemma or_null_trim_idem d : or_null (trim <$> (trim <$> d)) = or_null (trim <$> d).
Proof. destruct d as [s|]; [|done]. simpl. by rewrite trim_idem. Qed.

Lemma js_trim_Some v t : js_trim v = Some t → ∃ s, v = JsString s ∧ t = trim s.
Proof. destruct v; try done. intros [= <-]. by eexists. Qed.

Lemma js_trim_optional_Some v d :
  js_trim_optional v = Some d →
  ∃ d0, js_optional_string v = Some d0 ∧ d = trim <$> d0.
Proof. destruct v; try done; intros [= <-]; by eexists. Qed.

(** Behind the checks of the route the service is called on the trimmed
    fields of the body. *)
Lemma create_animal_checked b db type name city age breed description :
  animal_fields b type name city age breed description →
  type ≠ "" → name ≠ "" → city ≠ "" → breed ≠ "" →
  (2 ≤ js_length (trim name) ≤ 50)%nat → (1 ≤ age ≤ 30)%Z →
  create_animal b db =
    match createAnimal (trim type) (trim name) (trim city) age (trim breed)
            (trim <$> description) db with
    | (Returns _, db') => (ok 201 "Animal créé avec succès", db')
    | (Throws _, db') => (create_animal_error, db')
    end.
Proof.
  intros (Ht & Hn & Hc & Ha & Hb & Hd) Ht' Hn' Hc' Hb' Hvn Hva.
  unfold create_animal. rewrite Ht, Hn, Hc, Ha, Hb. cbn [js_truthy js_trim].
  apply truthy_true in Ht', Hn', Hc', Hb'. rewrite Ht', Hn', Hc', Hb'. simpl.
  apply isValidAnimalName_valid in Hvn. apply isValidAge_valid in Hva.
  rewrite Hvn, Hva. simpl.
  destruct (cr_description b); try done; injection Hd as <-; done.
Qed.

(** A body that is answered with 201 carries the fields of an animal. *)
Lemma create_animal_created b db :
  res_status (create_animal b db).1 = 201 →
  ∃ type name city age breed description,
    animal_fields b type name city age breed description ∧
    trim type ≠ "" ∧ trim city ≠ "" ∧ trim breed ≠ "" ∧
    (2 ≤ js_length (trim name) ≤ 50)%nat ∧ (1 ≤ age ≤ 30)%Z.
Proof.
  unfold create_animal. destruct (_ || _); [done|].
  destruct (cr_age b) as [| |age] eqn:Ha; [done|done|].
  destruct (cr_name b) as [| |?|?| |name|] eqn:Hn; try done.
  destruct (valid (isValidAnimalName name)) eqn:Hvn; [|done].
  destruct (valid (isValidAge age)) eqn:Hva; [|done]. simpl.
  apply isValidAnimalName_valid in Hvn. apply isValidAge_valid in Hva.
  destruct (js_trim (cr_type b)) as [t|] eqn:Ht; [|done].
  destruct (js_trim (cr_city b)) as [c|] eqn:Hc; [|done].
  destruct (js_trim (cr_breed b)) as [br|] eqn:Hb; [|done].
  destruct (js_trim_optional (cr_description b)) as [d|] eqn:Hd; [|done].
  apply js_trim_Some in Ht as (type & Ht & ->).
  apply js_trim_Some in Hc as (city & Hc & ->).
  apply js_trim_Some in Hb as (breed & Hb & ->).
  apply js_trim_optional_Some in Hd as (description & Hd & ->).
  unfold createAnimal.
  destruct (truthy (trim type)) eqn:Ett; [|done].
  destruct (truthy (trim name)) eqn:Etn; [|done].
  destruct (truthy (trim city)) eqn:Etc; [|done].
  destruct (truthy (trim breed)) eqn:Etb; [|done]. simpl.
  intros _. apply truthy_true in Ett, Etc, Etb.
  exists type, name, city, age, breed, description. unfold animal_fields. auto 12.
Qed.

Lemma animal_fields_inj b t n c a br d t' n' c' a' br' d' :
  animal_fields b t n c a br d → animal_fields b t' n' c' a' br' d' →
  t = t' ∧ n = n' ∧ c = c' ∧ a = a' ∧ br = br' ∧ d = d'.
Proof.
  intros (H1 & H2 & H3 & H4 & H5 & H6) (H1' & H2' & H3' & H4' & H5' & H6').
  rewrite H1 in H1'. rewrite H2 in H2'. rewrite H3 in H3'. rewrite H4 in H4'.
  rewrite H5 in H5'. rewrite H6 in H6'.
  injection H1' as <-. injection H2' as <-. injection H3' as <-.
  injection H4' as <-. injection H5' as <-. injection H6' as <-. done.
Qed.

(** X2: [POST /animals] answers 201 exactly when the type, the name, the city
    and the breed of the body are strings, its description is a string or
    left out, the type, city and breed are not blank, the trimmed name has 2
    to 50 characters and the age is a number between 1 and 30; it then stores
    the trimmed fields with status [available] under the next id, and in
    every other case it leaves the store as it was. *)
Theorem create_animal_accepts (b : CreateAnimalRequest) (db : DB) :
  (res_status (create_animal b db).1 = 201 ↔
     ∃ type name city age breed description,
       animal_fields b type name city age breed description ∧
       trim type ≠ "" ∧ trim city ≠ "" ∧ trim breed ≠ "" ∧
       (2 ≤ js_length (trim name) ≤ 50)%nat ∧ (1 ≤ age ≤ 30)%Z) ∧
  (∀ type name city age breed description,
     res_status (create_animal b db).1 = 201 →
     animal_fields b type name city age breed description →
     (create_animal b db).2 =
       animal_create (animal_of_body type name city age breed description) db) ∧
  (res_status (create_animal b db).1 ≠ 201 → (create_animal b db).2 = db).
Proof.
  assert (Hok : ∀ type name city age breed description,
            animal_fields b type name city age breed description →
            trim type ≠ "" → trim city ≠ "" → trim breed ≠ "" →
            (2 ≤ js_length (trim name) ≤ 50)%nat → (1 ≤ age ≤ 30)%Z →
            create_animal b db =
              (ok 201 "Animal créé avec succès",
               animal_create
                 (animal_of_body type name city age breed description) db)).
  { intros type name city age breed description Hf Ht Hc Hb Hvn Hva.
    assert (Hn : trim name ≠ "").
    { intros E. rewrite E in Hvn. simpl in Hvn. lia. }
    rewrite (create_animal_checked b db type name city age breed description Hf);
      try done; try by apply trim_nonempty.
    unfold createAnimal.
    apply truthy_true in Ht as Ht', Hn as Hn', Hc as Hc', Hb as Hb'.
    rewrite Ht', Hn', Hc', Hb'. simpl.
    assert (Hpos : Z.leb age 0 = false) by (apply Z.leb_gt; lia).
    rewrite Hpos. unfold animal_of_body.
    by rewrite !trim_idem, or_null_trim_idem. }
  split; [split|split].
  - apply create_animal_created.
  - intros (type & name & city & age & breed & description & Hf & Ht & Hc & Hb
            & Hvn & Hva).
    by rewrite (Hok type name city age breed description).
  - intros type name city age breed description H201 Hf.
    apply create_animal_created in H201
      as (t & n & c & a & br & d & Hf' & Ht & Hc & Hb & Hvn & Hva).
    destruct (animal_fields_inj _ _ _ _ _ _ _ _ _ _ _ _ _ Hf Hf')
      as (-> & -> & -> & -> & -> & ->).
    by rewrite (Hok t n c a br d).
  - intros Hne. destruct (create_animal_writes b db) as [H | (a & _ & H)]; [done|].
    by rewrite H in Hne.
Qed.

(** X3: a body that passes the checks of the route but whose type, city or
    breed consists of white space only is refused by the service, and the
    route answers 500 and stores nothing. *)
Theorem create_animal_blank_field (b : CreateAnimalRequest) (db : DB)
    (type name city : string) (age : Z) (breed : string)
    (description : option string) :
  animal_fields b type name city age breed description →
  type ≠ "" → name ≠ "" → city ≠ "" → breed ≠ "" →
  (2 ≤ js_length (trim name) ≤ 50)%nat → (1 ≤ age ≤ 30)%Z →
  trim type = "" ∨ trim city = "" ∨ trim breed = "" →
  create_animal b db = (failure 500 "Erreur lors de la création de l'animal", db).
Proof.
  intros Hf Ht Hn Hc Hb Hvn Hva Hblank.
  rewrite (create_animal_checked b db type name city age breed description Hf);
    try done.
  unfold createAnimal.
  destruct Hblank as [-> | [-> | ->]]; simpl.
  - done.
  - by rewrite !orb_true_r.
  - by rewrite !orb_true_r.
Qed.

Lemma updated_text_cases field v current :
  (text_field v = true ∧ ∃ x, updated_text field v current = Returns x) ∨
  (text_field v = false ∧ updated_text field v current = Throws (trim_error field v)).
Proof. destruct v; simpl; eauto. Qed.

Lemma updated_description_cases v current :
  (text_field v = true ∧ ∃ x, updated_description v current = Returns x) ∨
  (text_field v = false ∧
   updated_description v current = Throws (trim_error "description" v)).
Proof. destruct v; simpl; eauto. Qed.

(** The [catch] block answers the [TypeError] of a [trim] call with 500. *)
Lemma trim_error_caught field v :
  text_field v = false →
  In field ["type"; "name"; "city"; "breed"; "description"] →
  update_animal_caught (trim_error field v) = update_animal_error.
Proof.
  intros Hv Hf. simpl in Hf.
  destruct Hf as [<- | [<- | [<- | [<- | [<- | []]]]]];
    destruct v; try done; reflexivity.
Qed.

Lemma age_refused_none age current :
  age_refused age = None → ∃ x, updated_age age current = Returns x.
Proof.
  destruct age as [| |n]; simpl; [by eexists|done|].
  unfold isValidAge. destruct (Z.leb n 0); simpl; [done|].
  destruct (Z.ltb 30 n); simpl; [done|]. intros _. by eexists.
Qed.

Lemma updated_status_throws v current msg :
  updated_status v current = Throws msg → msg = invalid_status_message.
Proof.
  destruct v as [| |?|?| |x|]; cbn [updated_status]; try by intros [= <-].
  destruct (array_includes _ x); [done|]. by intros [= <-].
Qed.

(** What [cleanUpdateData] does behind the checks of the route: it returns
    only if the text fields can be prepared; it throws the error of an
    invalid status if they can, and an error that is answered with 500 if
    they cannot. *)
Lemma cleanUpdateData_cases u X :
  age_refused (up_age u) = None →
  (text_fields u = true ∧
   ((∃ X', cleanUpdateData u X = Returns X') ∨
    cleanUpdateData u X = Throws invalid_status_message)) ∨
  (text_fields u = false ∧
   ∃ msg, cleanUpdateData u X = Throws msg ∧
          update_animal_caught msg = update_animal_error).
Proof.
  intros Hage. unfold cleanUpdateData, text_fields, mbind, result_bind.
  destruct (updated_text_cases "type" (up_type u) (an_type X))
    as [[-> [x1 ->]]|[Hbad ->]];
    [|right; rewrite Hbad; split; [done|]; eexists; split; [done|];
      apply trim_error_caught; [done|simpl; tauto]].
  destruct (updated_text_cases "name" (up_name u) (an_name X))
    as [[-> [x2 ->]]|[Hbad ->]];
    [|right; rewrite Hbad; split; [done|]; eexists; split; [done|];
      apply trim_error_caught; [done|simpl; tauto]].
  destruct (updated_text_cases "city" (up_city u) (an_city X))
    as [[-> [x3 ->]]|[Hbad ->]];
    [|right; rewrite Hbad; split; [done|]; eexists; split; [done|];
      apply trim_error_caught; [done|simpl; tauto]].
  destruct (age_refused_none (up_age u) (an_age X) Hage) as [x4 ->].
  destruct (updated_text_cases "breed" (up_breed u) (an_breed X))
    as [[-> [x5 ->]]|[Hbad ->]];
    [|right; rewrite Hbad; split; [done|]; eexists; split; [done|];
      apply trim_error_caught; [done|simpl; tauto]].
  destruct (updated_description_cases (up_description u) (an_description X))
    as [[-> [x6 ->]]|[Hbad ->]];
    [|right; rewrite Hbad; split; [by rewrite ?andb_false_r|]; eexists;
      split; [done|]; apply trim_error_caught; [done|simpl; tauto]].
  left. split; [done|].
  destruct (updated_status (up_status u) (an_status X)) as [x7|msg] eqn:Hs.
  - left. by eexists.
  - right. by rewrite (updated_status_throws _ _ _ Hs).
Qed.

(** X4: [PUT /animals/:id] answers 200, 400, 404 or 500.  It does not answer
    500 when each of the type, name, city, breed and description is a string
    or left out (the age check of the service cannot fail behind the check
    of the route).  When one of them is another value, [null] included, it
    never answers 200, and for an animal that exists it answers 400 or 500.
    Unless it answers 200 the store is as it was, and in every case no
    adoption request and no other animal is touched. *)
Theorem update_animal_responses (animalId : option Z) (u : UpdateAnimalRequest)
    (db : DB) :
  (res_status (update_animal animalId u db).1 = 200 ∨
   res_status (update_animal animalId u db).1 = 400 ∨
   res_status (update_animal animalId u db).1 = 404 ∨
   res_status (update_animal animalId u db).1 = 500) ∧
  (text_fields u = true →
     res_status (update_animal animalId u db).1 ≠ 500) ∧
  (text_fields u = false →
     res_status (update_animal animalId u db).1 ≠ 200 ∧
     ∀ id, animalId = Some id → is_Some (animals db !! id) →
       res_status (update_animal animalId u db).1 = 400 ∨
       res_status (update_animal animalId u db).1 = 500) ∧
  (res_status (update_animal animalId u db).1 ≠ 200 →
     (update_animal animalId u db).2 = db) ∧
  adopts (update_animal animalId u db).2 = adopts db ∧
  (∀ y, animalId ≠ Some y →
     animals (update_animal animalId u db).2 !! y = animals db !! y).
Proof.
  assert (Hframe :
    (res_status (update_animal animalId u db).1 ≠ 200 →
       (update_animal animalId u db).2 = db) ∧
    adopts (update_animal animalId u db).2 = adopts db ∧
    (∀ y, animalId ≠ Some y →
       animals (update_animal animalId u db).2 !! y = animals db !! y)).
  { destruct (update_animal_writes animalId u db)
      as [H | (id & X & X' & -> & HX & Hc & H)]; rewrite H; [done|].
    simpl. split; [done|]. split; [done|].
    intros y Hy. apply lookup_insert_ne. congruence. }
  split; [|split; [|split; [|exact Hframe]]].
  all: unfold update_animal; destruct animalId as [id|];
    [|simpl; first [by auto 10 | by split]].
  all: destruct (_ && _); [simpl; first [by auto 10 | by split; [|eauto]]|].
  - destruct (name_refused (up_name u)) as [[msg|]|]; [by auto 10| |by auto 10].
    destruct (age_refused (up_age u)) eqn:Hage; [by auto 10|].
    unfold updateAnimal. destruct (animals db !! id) as [X|]; [|by auto 10].
    destruct (cleanUpdateData_cases u X Hage)
      as [[_ [[X' ->] | ->]]|[_ (msg & -> & Hm)]]; simpl.
    + by auto 10.
    + by auto 10.
    + rewrite Hm. by auto 10.
  - intros Htext.
    assert (Hname : name_refused (up_name u) ≠ None).
    { unfold name_refused, text_fields in *.
      destruct (up_name u); simpl in *; try done;
        rewrite ?andb_false_r in Htext; try done.
      by destruct (truthy s). }
    destruct (name_refused (up_name u)) as [[msg|]|]; [done| |done].
    destruct (age_refused (up_age u)) eqn:Hage; [done|].
    unfold updateAnimal. destruct (animals db !! id) as [X|]; [|done].
    destruct (cleanUpdateData_cases u X Hage)
      as [[_ [[X' ->] | ->]]|[Hbad _]]; simpl; [done|done|congruence].
  - intros Htext.
    destruct (name_refused (up_name u)) as [[msg|]|];
      [by split; [|eauto]| |by split; [|eauto]].
    destruct (age_refused (up_age u)) eqn:Hage; [by split; [|eauto]|].
    unfold updateAnimal. destruct (animals db !! id) as [X|] eqn:HX.
    + destruct (cleanUpdateData_cases u X Hage)
        as [[Hgood _]|[_ (msg & -> & Hm)]]; [congruence|]. simpl.
      rewrite Hm. by split; [|eauto].
    + simpl. split; [done|]. intros ? [= <-] [? ?]. congruence.
Qed.

(** X5: [PATCH /animals/:id/adopt] answers 404 for an animal that does not
    exist and 400 for one that is adopted already; otherwise it sets the
    status to [adopted] without touching any adoption request, and a second
    call is then refused with 400. *)
Theorem mark_adopted_cases (id : Z) (db : DB) :
  (animals db !! id = None →
     ∃ r, mark_adopted (Some id) db = (r, db) ∧ res_status r = 404) ∧
  (∀ X, animals db !! id = Some X → an_status X = "adopted" →
     ∃ r, mark_adopted (Some id) db = (r, db) ∧ res_status r = 400) ∧
  (∀ X, animals db !! id = Some X → an_status X ≠ "adopted" →
     ∃ r db', mark_adopted (Some id) db = (r, db') ∧ res_status r = 200 ∧
       animals db' = <[id := animal_with_status "adopted" X]> (animals db) ∧
       adopts db' = adopts db ∧
       ∃ r', mark_adopted (Some id) db' = (r', db') ∧ res_status r' = 400).
Proof.
  unfold mark_adopted, markAsAdopted. split; [|split].
  - intros ->. by eexists.
  - intros X -> Hs. apply String.eqb_eq in Hs. rewrite Hs. by eexists.
  - intros X -> Hs. apply String.eqb_neq in Hs. rewrite Hs. simpl.
    eexists _, _. split; [done|]. split; [done|]. split; [done|]. split; [done|].
    unfold set_animals. simpl. rewrite lookup_insert_eq. simpl. by eexists.
Qed.

(** X6: [PATCH /animals/:id/available] on an existing animal always answers
    200, touches no adoption request and is idempotent; afterwards a user
    without an active request for the animal can request it again (201, for
    a body that carries the id as a number and a first name, a last name and
    a phone that are strings), even if an approved request of someone else
    is still stored. *)
Theorem mark_available_reopens (id : Z) (X : Animal) (db : DB) :
  animals db !! id = Some X →
  ∃ db',
    mark_available (Some id) db =
      (ok 200 "Animal remis comme disponible avec succès", db') ∧
    animals db' = <[id := animal_with_status "available" X]> (animals db) ∧
    adopts db' = adopts db ∧
    (mark_available (Some id) db').2 = db' ∧
    (∀ userId b firstname lastname phone,
       car_animalId b = JsNumber id → car_firstname b = JsString firstname →
       car_lastname b = JsString lastname → car_phone b = JsString phone →
       adoption_fields_present b = true →
       (∀ i r, adopts db !! i = Some r → ad_userid r = userId →
               ad_animalid r = id →
               ad_status r ≠ "pending" ∧ ad_status r ≠ "approved") →
       res_status (create_adoption userId b db').1 = 201).
Proof.
  intros HX. unfold mark_available, markAsAvailable. rewrite HX. simpl.
  eexists. split; [done|]. split; [done|]. split; [done|]. split.
  - unfold set_animals. simpl. rewrite lookup_insert_eq. simpl.
    by rewrite insert_insert_eq.
  - intros userId b firstname lastname phone Hb H1 H2 H3 Hf Hnone.
    unfold create_adoption.
    rewrite Hf, Hb, H1, H2, H3. unfold set_animals. simpl.
    rewrite lookup_insert_eq. simpl.
    assert (E : adopt_findFirst (active_for userId id) (adopts db) = None).
    { apply adopt_findFirst_None. intros i r Hi.
      destruct (active_for userId id i r) eqn:E; [|done].
      apply active_for_true in E as (Hu & Ha & Hst).
      destruct (Hnone i r Hi Hu Ha). by destruct Hst. }
    by rewrite E.
Qed.

(** X2 on the request for Rex, on a name of one accented letter, and on a
    type that is the number 5. *)
Lemma create_animal_accepts_witness :
  let short := mkCreateAnimalRequest (JsString "chien") (JsString "é")
                 (JsString "Paris") (AgeNumber 3) (JsString "labrador") JsNull in
  let typed := mkCreateAnimalRequest (JsNumber 5) (JsString "Rex")
                 (JsString "Paris") (AgeNumber 3) (JsString "labrador") JsNull in
  res_status (create_animal rex empty_db).1 = 201 ∧
  (create_animal rex empty_db).2 =
    animal_create (animal_of_body "chien" "Rex" "Paris" 3 "labrador" None)
      empty_db ∧
  res_status (create_animal short scenario_db).1 ≠ 201 ∧
  (create_animal short scenario_db).2 = scenario_db ∧
  (create_animal typed scenario_db).2 = scenario_db.
Proof.
  intros short typed.
  destruct (create_animal_accepts rex empty_db) as (Hiff & Hstore & _).
  assert (Hf : animal_fields rex "chien" "Rex" "Paris" 3 "labrador" None)
    by (repeat split).
  assert (H : res_status (create_animal rex empty_db).1 = 201).
  { apply Hiff. exists "chien", "Rex", "Paris", 3, "labrador", None.
    split; [exact Hf|].
    repeat split; try (simpl; discriminate); try (vm_compute; lia); lia. }
  split; [exact H|]. split; [exact (Hstore _ _ _ _ _ _ H Hf)|].
  destruct (create_animal_accepts short scenario_db) as (_ & _ & Hkeep).
  destruct (create_animal_accepts typed scenario_db) as (_ & _ & Hkeep').
  assert (H' : res_status (create_animal short scenario_db).1 ≠ 201)
    by (vm_compute; discriminate).
  split; [exact H'|]. split; [exact (Hkeep H')|].
  apply Hkeep'. vm_compute; discriminate.
Defined.

(** X3 on a type made of one no-break space. *)
Lemma create_animal_blank_field_witness :
  let nbsp := String (ascii_of_nat 194) (String (ascii_of_nat 160) "") in
  create_animal
    (mkCreateAnimalRequest (JsString nbsp) (JsString "Rex") (JsString "Paris")
       (AgeNumber 3) (JsString "labrador") JsUndefined)
    empty_db = (failure 500 "Erreur lors de la création de l'animal", empty_db).
Proof.
  intros nbsp.
  apply (create_animal_blank_field _ empty_db nbsp "Rex" "Paris" 3 "labrador" None);
    try (repeat split; fail); try (simpl; discriminate);
    try (vm_compute; lia); try lia.
  left; reflexivity.
Defined.

(** X4 on an animal that does not exist, and on the animal of the scenario
    with an age and a description that is [null]. *)
Lemma update_animal_responses_witness :
  let named := mkUpdateAnimalRequest JsUndefined (JsString "Max") JsUndefined
                 AgeUndefined JsUndefined JsUndefined JsUndefined in
  let nulled := mkUpdateAnimalRequest JsUndefined JsUndefined JsUndefined
                  (AgeNumber 5) JsUndefined JsNull JsUndefined in
  res_status (update_animal (Some 9) named scenario_db).1 = 404 ∧
  (update_animal (Some 9) named scenario_db).2 = scenario_db ∧
  res_status (update_animal (Some 7) nulled scenario_db).1 = 500 ∧
  (update_animal (Some 7) nulled scenario_db).2 = scenario_db.
Proof.
  intros named nulled.
  destruct (update_animal_responses (Some 9) named scenario_db)
    as (_ & _ & _ & Hkeep & _).
  destruct (update_animal_responses (Some 7) nulled scenario_db)
    as (_ & _ & Hbad & Hkeep' & _).
  destruct (Hbad eq_refl) as [Hne H45].
  split; [vm_compute; reflexivity|].
  split; [apply Hkeep; vm_compute; discriminate|].
  split; [|exact (Hkeep' Hne)].
  destruct (H45 7 eq_refl) as [H400 | H500]; [by eexists| |exact H500].
  vm_compute in H400. discriminate.
Defined.

(** X5 on the scenario. *)
Lemma mark_adopted_cases_witness :
  (∃ r, mark_adopted (Some 9) scenario_db = (r, scenario_db) ∧ res_status r = 404) ∧
  (∃ r, mark_adopted (Some 7) settled_db = (r, settled_db) ∧ res_status r = 400) ∧
  (∃ r db', mark_adopted (Some 7) scenario_db = (r, db') ∧ res_status r = 200 ∧
            adopts db' = adopts scenario_db).
Proof.
  destruct (mark_adopted_cases 9 scenario_db) as (H404 & _).
  destruct (mark_adopted_cases 7 settled_db) as (_ & H400 & _).
  destruct (mark_adopted_cases 7 scenario_db) as (_ & _ & H200).
  split; [apply H404; reflexivity|].
  split; [apply (H400 (animal_with_status "adopted" animal_7));
          [vm_compute; reflexivity|reflexivity]|].
  destruct (H200 animal_7) as (r & db' & H1 & H2 & _ & H4 & _);
    [reflexivity|simpl; discriminate|].
  exists r, db'. auto.
Defined.

(** X6 on the scenario after the approval of 101: user 3 can request animal 7. *)
Lemma mark_available_reopens_witness :
  adopt_count (approved_for 7) (adopts settled_db) = 1%nat ∧
  ∃ db',
    mark_available (Some 7) settled_db =
      (ok 200 "Animal remis comme disponible avec succès", db') ∧
    res_status (create_adoption 3
                  (mkCreateAdoptionRequest (JsNumber 7) (JsString "Grace")
                     (JsString "Hopper") (JsString "0609")) db').1 = 201.
Proof.
  split; [vm_compute; reflexivity|].
  destruct (mark_available_reopens 7 (animal_with_status "adopted" animal_7)
              settled_db) as (db' & H1 & _ & _ & _ & H5); [vm_compute; reflexivity|].
  exists db'. split; [exact H1|].
  apply (H5 3 _ "Grace" "Hopper" "0609"); try reflexivity.
  intros i r Hi Hu Ha.
  destruct (decide (i = 101)) as [-> | H101].
  { vm_compute in Hi. injection Hi as <-. simpl in Hu. lia. }
  destruct (decide (i = 102)) as [-> | H102].
  { vm_compute in Hi. injection Hi as <-. simpl in Hu. lia. }
  exfalso. unfold settled_db in Hi.
  rewrite (decide_adoption_approved scenario_db 101 request_101 animal_7
             None eq_refl eq_refl) in Hi.
  cbn [snd] in Hi. rewrite approve_store_lookup in Hi.
  rewrite decide_False in Hi by done. simpl in Hi.
  rewrite lookup_insert_ne in Hi by done.
  rewrite lookup_singleton_ne in Hi by done. discriminate.
Defined.

(** ** Invariants of the requests and the dashboard counts *)

Lemma size_filter_split {A} (P : Z * A → Prop) `{!∀ x, Decision (P x)}
    (m : gmap Z A) :
  size m = (size (filter P m) + size (filter (λ x, ¬ P x) m))%nat.
Proof.
  rewrite <- map_size_disj_union by apply map_disjoint_filter_complement.
  by rewrite map_filter_union_complement.
Qed.

(** Three conditions of which every row satisfies exactly one split the
    table. *)
Lemma size_three_way {A} (c1 c2 c3 : A → bool) (m : gmap Z A) :
  (∀ i x, m !! i = Some x →
     (c1 x = true ∧ c2 x = false ∧ c3 x = false) ∨
     (c1 x = false ∧ c2 x = true ∧ c3 x = false) ∨
     (c1 x = false ∧ c2 x = false ∧ c3 x = true)) →
  size m = (size (filter (λ kv, c1 kv.2 = true) m) +
            size (filter (λ kv, c2 kv.2 = true) m) +
            size (filter (λ kv, c3 kv.2 = true) m))%nat.
Proof.
  intros Hx.
  rewrite (size_filter_split (λ kv, c1 kv.2 = true) m).
  rewrite (size_filter_split (λ kv, c2 kv.2 = true)
             (filter (λ kv, ¬ c1 kv.2 = true) m)).
  assert (E2 : filter (λ kv, c2 kv.2 = true) (filter (λ kv, ¬ c1 kv.2 = true) m) =
               filter (λ kv, c2 kv.2 = true) m).
  { apply map_filter_strong_ext_1. intros i x. rewrite map_lookup_filter_Some.
    simpl. split; [tauto|]. intros [H2 Hi].
    destruct (Hx i x Hi) as [(?&?&?)|[(?&?&?)|(?&?&?)]];
      (split; [done|]); (split; [done|]); congruence. }
  assert (E3 : filter (λ kv, ¬ c2 kv.2 = true)
                 (filter (λ kv, ¬ c1 kv.2 = true) m) =
               filter (λ kv, c3 kv.2 = true) m).
  { apply map_filter_strong_ext_1. intros i x. rewrite map_lookup_filter_Some.
    simpl. split.
    - intros (H2 & Hi & H1). split; [|done].
      destruct (Hx i x Hi) as [(?&?&?)|[(?&?&?)|(?&?&?)]]; congruence.
    - intros [H3 Hi].
      destruct (Hx i x Hi) as [(?&?&?)|[(?&?&?)|(?&?&?)]];
        (split; [congruence|]); (split; [done|]); congruence. }
  rewrite E2, E3. lia.
Qed.

Ltac same_store := simpl; intros ?; split; [lia | by left].

(** The update of an animal leaves the requests and their id sequence as they
    were. *)
Lemma update_animal_requests oid u db :
  adopts (update_animal oid u db).2 = adopts db ∧
  next_adopt (update_animal oid u db).2 = next_adopt db.
Proof.
  by destruct (update_animal_writes oid u db)
    as [-> | (id & X & X' & _ & _ & _ & ->)].
Qed.

(** Every row of the requests after an operation is a row as it was, or a
    row whose status was rewritten to one of the three accepted statuses, or
    the pending row just created under the next id. *)
Lemma run_adopt_rows op db i r' :
  adopts (run op db).2 !! i = Some r' →
  (next_adopt db ≤ next_adopt (run op db).2)%Z ∧
  (adopts db !! i = Some r' ∨
   (∃ r s u, adopts db !! i = Some r ∧ r' = adopt_with_status s u r ∧
             array_includes ["pending"; "approved"; "rejected"] s = true ∧
             (s = "rejected" ∨ ∃ st c, op = Decide (Some i) st c)) ∨
   (i = next_adopt db ∧ ad_status r' = "pending" ∧
    next_adopt (run op db).2 = next_adopt db + 1 ∧
    ∀ j, ¬ active_row db (ad_userid r') (ad_animalid r') j)).
Proof.
  destruct op as [userId b|oid status c|userId oid|b|oid u|oid|oid|oid|oid]; simpl.
  - destruct (create_adoption_writes userId b db)
      as [-> | (animalId & Y & f & l & p & _ & _ & _ & Hfirst & ->)];
      [same_store|]. simpl.
    intros Hi. split; [lia|].
    apply lookup_insert_Some in Hi as [[<- <-]|[_ Hi]]; [|by left].
    right; right. split; [done|]. split; [done|]. split; [done|]. simpl.
    intros j (r & Hj & Hu & Hx & Hst).
    pose proof (proj1 (adopt_findFirst_None _ _) Hfirst j r Hj) as Hno.
    assert (active_for userId animalId j r = true); [|congruence].
    by apply active_for_true.
  - destruct oid as [id|]; [|same_store]. unfold decide_adoption.
    destruct (array_includes _ status) eqn:Hs; [|same_store].
    simpl negb. cbv iota.
    destruct (adopts db !! id) as [A|] eqn:HA; [|same_store].
    unfold transaction.
    assert (Hrepl : ∀ s u, array_includes ["pending"; "approved"; "rejected"] s = true →
              <[id := adopt_with_status s u A]> (adopts db) !! i = Some r' →
              adopts db !! i = Some r' ∨
              (∃ r s u, adopts db !! i = Some r ∧ r' = adopt_with_status s u r ∧
                 array_includes ["pending"; "approved"; "rejected"] s = true ∧
                 (s = "rejected" ∨ ∃ st c', Decide (Some id) status c = Decide (Some i) st c'))).
    { intros s u Hv Hi. apply lookup_insert_Some in Hi as [[<- <-]|[_ Hi]]; [|by left].
      right. eauto 12. }
    destruct (animals db !! ad_animalid A) as [X|] eqn:HX.
    + destruct (valid_decision_status status Hs) as [-> | [-> | ->]].
      * rewrite (decide_tx_pending db id A _ c HA). simpl. intros Hi.
        split; [lia|].
        destruct (Hrepl "pending" (or_null c) eq_refl Hi); [by left|by right; left].
      * rewrite (decide_tx_approved db id A X _ c HA HX). cbn [snd].
        rewrite approve_store_lookup. intros Hi. split; [simpl; lia|].
        destruct (decide (i = id)) as [-> | Hne].
        { injection Hi as <-. right; left. eauto 12. }
        destruct (adopts db !! i) as [r|] eqn:Er; simpl in Hi; [|done].
        injection Hi as <-. destruct (other_pending _ _ _ _); [|by left].
        right; left. eauto 12.
      * rewrite (decide_tx_rejected db id A X c HA HX). cbn [snd].
        unfold reject_store.
        destruct (String.eqb (an_status X) "pending" && _); simpl; intros Hi;
          (split; [lia|]);
          (destruct (Hrepl "rejected" (or_null c) eq_refl Hi);
             [by left|by right; left]).
    + destruct (decide (status = "pending")) as [-> | Hne].
      * rewrite (decide_tx_pending db id A _ c HA). simpl. intros Hi.
        split; [lia|].
        destruct (Hrepl "pending" (or_null c) eq_refl Hi); [by left|by right; left].
      * rewrite (decide_tx_no_animal db id A status c HA Hne Hs HX).
        same_store.
  - destruct oid as [id|]; [|same_store]. unfold cancel_adoption.
    destruct (adopts db !! id); [|same_store].
    destruct (negb _); [same_store|]. destruct (negb _); [same_store|].
    simpl. intros Hi. apply lookup_delete_Some in Hi as [_ Hi]. split; [lia|by left].
  - destruct (create_animal_writes b db) as [-> | (a & _ & ->)]; same_store.
  - destruct (update_animal_requests oid u db) as [Hsame Hn].
    rewrite Hsame, Hn. intros Hi. split; [lia|by left].
  - destruct oid as [id|]; [|same_store]. unfold delete_animal, deleteAnimal.
    destruct (animals db !! id); [|same_store].
    destruct (0 <? size _)%nat; [same_store|]. simpl.
    intros Hi. apply map_lookup_filter_Some in Hi as [Hi _]. split; [lia|by left].
  - destruct oid as [id|]; [|same_store]. unfold mark_adopted, markAsAdopted.
    destruct (animals db !! id); [|same_store].
    destruct (String.eqb _ _); same_store.
  - destruct oid as [id|]; [|same_store]. unfold mark_available, markAsAvailable.
    destruct (animals db !! id); same_store.
  - destruct oid as [id|]; [|same_store]. unfold admin_delete_adoption.
    destruct (adopts db !! id); [|same_store].
    simpl. intros Hi. apply lookup_delete_Some in Hi as [_ Hi]. split; [lia|by left].
Qed.

(** In every reachable store the requests carry statuses of the data model. *)
Lemma reachable_adopt_statuses db : reachable db → adopt_statuses_valid db.
Proof.
  induction 1 as [|op db _ IH].
  - intros i r Hi. simpl in Hi. by rewrite lookup_empty in Hi.
  - intros i r' Hi. destruct (run_adopt_rows op db i r' Hi) as [_ [Hold|[Hnew|Hnew]]].
    + by apply (IH i r').
    + by destruct Hnew as (r & s & u & _ & -> & Hs & _).
    + destruct Hnew as (_ & -> & _). done.
Qed.

(** X1: whatever sequence of calls of the adoption and animal routes led to a
    store, each of its animals carries one of the statuses [available],
    [adopted] and [pending], and each of its adoption requests one of
    [pending], [approved] and [rejected]. *)
Theorem reachable_statuses_valid (db : DB) :
  reachable db → animal_statuses_valid db ∧ adopt_statuses_valid db.
Proof.
  intros Hr. split.
  - by apply reachable_animal_statuses_valid.
  - by apply reachable_adopt_statuses.
Qed.

Lemma reachable_adopt_ids_fresh db : reachable db → adopt_ids_fresh db.
Proof.
  induction 1 as [|op db _ IH].
  - intros i r Hi. simpl in Hi. by rewrite lookup_empty in Hi.
  - intros i r' Hi. destruct (run_adopt_rows op db i r' Hi) as [Hle [Hold|[Hnew|Hnew]]].
    + apply IH in Hold. lia.
    + destruct Hnew as (r & s & u & Hold & _). apply IH in Hold. lia.
    + destruct Hnew as (-> & _ & -> & _). lia.
Qed.

Lemma reachable_when_reachable guard db : reachable_when guard db → reachable db.
Proof.
  induction 1 as [|op db _ IH _]; [apply reachable_empty|by apply reachable_step].
Qed.

Lemma string_eqb_cases3 s a b c :
  s = a ∨ s = b ∨ s = c → a ≠ b → a ≠ c → b ≠ c →
  (String.eqb s a = true ∧ String.eqb s b = false ∧ String.eqb s c = false) ∨
  (String.eqb s a = false ∧ String.eqb s b = true ∧ String.eqb s c = false) ∨
  (String.eqb s a = false ∧ String.eqb s b = false ∧ String.eqb s c = true).
Proof.
  intros [-> | [-> | ->]] Hab Hac Hbc; rewrite !String.eqb_refl.
  - left. by rewrite !(proj2 (String.eqb_neq _ _)).
  - right; left. by rewrite !(proj2 (String.eqb_neq _ _)).
  - right; right. by rewrite !(proj2 (String.eqb_neq _ _)).
Qed.

(** X7: in every reachable store the counts of the adoption statistics add
    up: total = pending + approved + rejected. *)
Theorem adoption_stats_total (db : DB) :
  reachable db →
  os_total (adoption_stats db) =
    (os_pending (adoption_stats db) + os_approved (adoption_stats db) +
     os_rejected (adoption_stats db))%nat.
Proof.
  intros Hr. apply reachable_adopt_statuses in Hr.
  unfold adoption_stats, adopt_count. simpl.
  apply (size_three_way (is_status "pending") (is_status "approved")
           (is_status "rejected")).
  intros i r Hi. unfold is_status.
  apply string_eqb_cases3; try done.
  by apply valid_decision_status, (Hr i r).
Qed.

(** X8: in every reachable store the counts of the animal statistics add up:
    total = available + adopted + pending. *)
Theorem animal_stats_total (db : DB) :
  reachable db →
  as_total (getAnimalStats db) =
    (as_available (getAnimalStats db) + as_adopted (getAnimalStats db) +
     as_pending (getAnimalStats db))%nat.
Proof.
  intros Hr. apply reachable_animal_statuses_valid in Hr.
  unfold getAnimalStats, animal_count. simpl.
  apply (size_three_way (λ a, String.eqb (an_status a) "available")
           (λ a, String.eqb (an_status a) "adopted")
           (λ a, String.eqb (an_status a) "pending")).
  intros i X Hi. apply string_eqb_cases3; try done.
  by apply valid_animal_status, (Hr i X).
Qed.

(** X9: [failedDonations], computed as total - completed - pending, is the
    number of donations whose status is neither [completed] nor [pending] (so
    refunded donations count as failed), and the three counts add up to the
    total. *)
Theorem donation_stats_failed (db : DB) :
  ds_failedDonations (donation_stats db) =
    Z.of_nat (donation_count
                (λ d, negb (String.eqb (dn_status d) "completed") &&
                      negb (String.eqb (dn_status d) "pending"))
                (donations db)) ∧
  ds_totalDonations (donation_stats db) =
    ds_completedDonations (donation_stats db) +
    ds_pendingDonations (donation_stats db) +
    ds_failedDonations (donation_stats db).
Proof.
  unfold donation_stats, donation_count. simpl.
  rewrite (size_three_way (λ d, String.eqb (dn_status d) "completed")
             (λ d, String.eqb (dn_status d) "pending")
             (λ d, negb (String.eqb (dn_status d) "completed") &&
                   negb (String.eqb (dn_status d) "pending"))
             (donations db)).
  - split; lia.
  - intros i d _.
    destruct (String.eqb (dn_status d) "completed") eqn:E1;
      destruct (String.eqb (dn_status d) "pending") eqn:E2; simpl; auto.
    apply String.eqb_eq in E1, E2. congruence.
Qed.



(** X11: in a reachable store, a request that was created with 201 can be
    cancelled by its author under the id it was given, and the cancellation
    brings the requests and the animals back to what they were. *)
Theorem create_then_cancel (userId : Z) (b : CreateAdoptionRequest) (db : DB) :
  reachable db →
  res_status (create_adoption userId b db).1 = 201 →
  ∃ db',
    cancel_adoption userId (Some (next_adopt db)) (create_adoption userId b db).2 =
      (ok 200 "Demande d'adoption annulée avec succès", db') ∧
    adopts db' = adopts db ∧ animals db' = animals db.
Proof.
  intros Hr. apply reachable_adopt_ids_fresh in Hr.
  assert (Hfresh : adopts db !! next_adopt db = None).
  { destruct (adopts db !! next_adopt db) as [r|] eqn:E; [|done].
    apply Hr in E. lia. }
  destruct (create_adoption_writes userId b db)
    as [Hsame | (animalId & Y & f & l & p & _ & _ & _ & _ & ->)].
  { intros H201. exfalso. revert Hsame H201. unfold create_adoption.
    destruct (negb _); [done|].
    destruct (js_int (car_animalId b)) as [animalId|]; [|done].
    destruct (animals db !! animalId); [|done].
    destruct (negb _); [done|].
    destruct (adopt_findFirst _ _); [done|].
    destruct (js_trim (car_firstname b)); [|done].
    destruct (js_trim (car_lastname b)); [|done].
    destruct (js_trim (car_phone b)); [|done]. simpl.
    intros Hsame _. apply (f_equal next_adopt) in Hsame. simpl in Hsame. lia. }
  intros _. unfold cancel_adoption, adopt_create. simpl.
  rewrite lookup_insert_eq. simpl. rewrite Z.eqb_refl. simpl.
  eexists. split; [done|]. simpl. split; [|done].
  rewrite delete_insert_eq. by apply delete_id.
Qed.

(** X1 on the store reached by creating, requesting and approving. *)
Lemma reachable_statuses_valid_witness :
  reachable approved_db ∧ animal_statuses_valid approved_db ∧
  adopt_statuses_valid approved_db.
Proof.
  split; [exact reachable_approved_db|].
  exact (reachable_statuses_valid approved_db reachable_approved_db).
Defined.

(** X7 on the same store. *)
Lemma adoption_stats_total_witness :
  os_total (adoption_stats approved_db) = 1%nat ∧
  os_total (adoption_stats approved_db) =
    (os_pending (adoption_stats approved_db) +
     os_approved (adoption_stats approved_db) +
     os_rejected (adoption_stats approved_db))%nat.
Proof.
  split; [vm_compute; reflexivity|].
  exact (adoption_stats_total approved_db reachable_approved_db).
Defined.

(** X8 on the same store. *)
Lemma animal_stats_total_witness :
  as_adopted (getAnimalStats approved_db) = 1%nat ∧
  as_total (getAnimalStats approved_db) =
    (as_available (getAnimalStats approved_db) +
     as_adopted (getAnimalStats approved_db) +
     as_pending (getAnimalStats approved_db))%nat.
Proof.
  split; [vm_compute; reflexivity|].
  exact (animal_stats_total approved_db reachable_approved_db).
Defined.


(** X11 on a store with one animal. *)
Lemma create_then_cancel_witness :
  ∃ db',
    cancel_adoption 1 (Some 1)
      (create_adoption 1 ask_rex (run (CreateAnimal rex) empty_db).2).2 =
      (ok 200 "Demande d'adoption annulée avec succès", db') ∧
    adopts db' = adopts (run (CreateAnimal rex) empty_db).2 ∧
    animals db' = animals (run (CreateAnimal rex) empty_db).2.
Proof.
  apply (create_then_cancel 1 ask_rex (run (CreateAnimal rex) empty_db).2).
  - apply reachable_step, reachable_empty.
  - vm_compute; reflexivity.
Defined.

(** ** Reading and updating donations, reading requests, searching animals *)

(** X12: [GET /donations/:id] hands a donation out to its owner only, and an
    anonymous donation (no owner) to nobody: every user gets 403 for it. *)
Theorem get_donation_owner_only (userId id : Z) (db : DB) :
  (∀ d, dr_data (get_donation userId (Some id) db) = Some d →
        donations db !! id = Some d ∧ dn_userid d = Some userId) ∧
  (∀ d, donations db !! id = Some d → dn_userid d = Some userId →
        get_donation userId (Some id) db = mkDataResponse 200 true None (Some d)) ∧
  (∀ d, donations db !! id = Some d → dn_userid d = None →
        dr_status (get_donation userId (Some id) db) = 403 ∧
        dr_data (get_donation userId (Some id) db) = None).
Proof.
  unfold get_donation. split; [|split].
  - intros d. destruct (donations db !! id) as [d0|]; [|done].
    destruct (dn_userid d0) as [u|] eqn:Hu; [|done].
    destruct (Z.eqb u userId) eqn:E; simpl; [|done].
    apply Z.eqb_eq in E. intros [= <-]. by rewrite Hu, E.
  - intros d -> ->. by rewrite Z.eqb_refl.
  - by intros d -> ->.
Qed.

(** X13: [GET /adoptions/:id] answers 200 exactly for the requests of the
    caller and hands out only those; whenever it refuses, the cancellation of
    the same request by the same caller is refused with the same status code
    and changes nothing. *)
Theorem get_adoption_agrees_with_cancel (userId id : Z) (db : DB) :
  (dr_status (get_adoption userId (Some id) db) = 200 ↔
     ∃ A, adopts db !! id = Some A ∧ ad_userid A = userId) ∧
  (∀ A X, dr_data (get_adoption userId (Some id) db) = Some (A, X) →
     adopts db !! id = Some A ∧ ad_userid A = userId ∧
     X = animals db !! ad_animalid A) ∧
  (dr_status (get_adoption userId (Some id) db) ≠ 200 →
     dr_data (get_adoption userId (Some id) db) = None ∧
     res_status (cancel_adoption userId (Some id) db).1 =
       dr_status (get_adoption userId (Some id) db) ∧
     (cancel_adoption userId (Some id) db).2 = db).
Proof.
  unfold get_adoption, cancel_adoption.
  destruct (adopts db !! id) as [A|] eqn:HA; simpl.
  - destruct (Z.eqb (ad_userid A) userId) eqn:E; simpl.
    + apply Z.eqb_eq in E. split; [split; eauto|]. split; [|done].
      intros A' X [= <- <-]. done.
    + apply Z.eqb_neq in E. split.
      { split; [done|]. intros (A' & [= <-] & ?). done. }
      split; done.
  - split; [split; [done|by intros (A & ? & _)]|]. split; done.
Qed.

Lemma donation_status_accepted s :
  array_includes donation_statuses s = true ↔
  s = "pending" ∨ s = "completed" ∨ s = "failed" ∨ s = "refunded".
Proof.
  unfold array_includes, donation_statuses. simpl.
  rewrite !orb_true_iff, !String.eqb_eq. intuition discriminate.
Qed.

(** X14: [PUT /admin/donations/:id] answers 200 exactly when the donation
    exists and the status of the body is absent, empty, or one of [pending],
    [completed], [failed], [refunded]; a status that is given is then written
    as it is, the empty one included, and any other outcome leaves the store
    as it was. *)
Theorem update_donation_accepts (id : Z) (b : UpdateDonationRequest) (db : DB) :
  (res_status (update_donation (Some id) b db).1 = 200 ↔
     is_Some (donations db !! id) ∧
     (ud_status b = None ∨ ud_status b = Some "" ∨
      ∃ s, ud_status b = Some s ∧
           (s = "pending" ∨ s = "completed" ∨ s = "failed" ∨ s = "refunded"))) ∧
  (∀ d, res_status (update_donation (Some id) b db).1 = 200 →
     donations db !! id = Some d →
     (update_donation (Some id) b db).2 =
       set_donations (<[id := donation_updated b d]> (donations db)) db ∧
     ∀ s, ud_status b = Some s →
       dn_status <$> donations (update_donation (Some id) b db).2 !! id = Some s) ∧
  (res_status (update_donation (Some id) b db).1 ≠ 200 →
     (update_donation (Some id) b db).2 = db).
Proof.
  unfold update_donation.
  destruct (donations db !! id) as [d|] eqn:Hd.
  2: { simpl. split; [split; [done|by intros [[? ?] _]]|]. split; done. }
  destruct (ud_status b) as [s|] eqn:Hs.
  - destruct (truthy s) eqn:Ht.
    + apply truthy_true in Ht.
      destruct (array_includes donation_statuses s) eqn:Hv; simpl.
      * apply donation_status_accepted in Hv.
        split; [split; [eauto 10|done]|]. split; [|done].
        intros d' _ [= <-]. split; [done|]. intros s' [= <-].
        unfold set_donations. simpl. rewrite lookup_insert_eq. simpl. by rewrite Hs.
      * split.
        { split; [done|]. intros (_ & [?|[[= ?]|(s' & [= <-] & Hv')]]); try done.
          apply donation_status_accepted in Hv'. congruence. }
        split; done.
    + apply truthy_false in Ht. subst s. simpl. split; [split; [eauto 10|done]|].
      split; [|done]. intros d' _ [= <-]. split; [done|]. intros s' [= <-].
      unfold set_donations. simpl. rewrite lookup_insert_eq. simpl. by rewrite Hs.
  - simpl. split; [split; [eauto 10|done]|]. split; [|done].
    intros d' _ [= <-]. split; [done|]. intros s' ?. done.
Qed.

(** X15: the refusal to delete a completed donation lasts only as long as the
    status does.  Whatever the status of a donation, once it is updated to
    [pending], [failed], [refunded] or the empty status it can be deleted,
    and once it is updated to [completed] its deletion is refused. *)
Theorem completed_guard_and_update (id : Z) (d : Donation) (db : DB)
    (p m : option string) :
  donations db !! id = Some d →
  (∀ s, s = "pending" ∨ s = "failed" ∨ s = "refunded" ∨ s = "" →
     ∃ db',
       delete_donation (Some id)
         (update_donation (Some id) (mkUpdateDonationRequest (Some s) p m) db).2 =
         (ok 200 "Don supprimé avec succès", db') ∧
       donations db' = delete id (donations db)) ∧
  (∃ r, delete_donation (Some id)
          (update_donation (Some id)
             (mkUpdateDonationRequest (Some "completed") p m) db).2 =
          (r, (update_donation (Some id)
                 (mkUpdateDonationRequest (Some "completed") p m) db).2) ∧
        res_status r = 400).
Proof.
  intros Hd. split.
  - intros s Hs. unfold update_donation. rewrite Hd. cbn [ud_status].
    assert (Hok : truthy s && negb (array_includes donation_statuses s) = false)
      by (by destruct Hs as [-> | [-> | [-> | ->]]]).
    rewrite Hok. unfold delete_donation, set_donations. simpl.
    rewrite lookup_insert_eq. simpl.
    assert (Hnc : String.eqb s "completed" = false)
      by (by destruct Hs as [-> | [-> | [-> | ->]]]).
    rewrite Hnc. eexists. split; [done|]. simpl. by rewrite delete_insert_eq.
  - unfold update_donation. rewrite Hd. simpl.
    unfold delete_donation, set_donations. simpl.
    rewrite lookup_insert_eq. simpl. by eexists.
Qed.

Lemma filter_text_empty : filter_text "" = None.
Proof. reflexivity. Qed.

(** X16: a search without a status parameter only finds animals of the public
    list of available animals, and with no parameter at all it finds exactly
    that list. *)
Theorem search_defaults_to_available (ci : string → string → bool)
    (q : SearchQuery) (db : DB) :
  sq_status q = "" →
  (∀ found, dr_data (search_animals ci q db) = Some found →
     found ⊆ getAvailableAnimals db) ∧
  (sq_type q = "" → sq_city q = "" → sq_breed q = "" →
   sq_minAge q = None → sq_maxAge q = None →
   dr_status (search_animals ci q db) = 200 ∧
   dr_data (search_animals ci q db) = Some (getAvailableAnimals db)).
Proof.
  intros Hst. split.
  - intros found. unfold search_animals.
    destruct (checked_age (sq_minAge q)) as [lo|]; [|done].
    destruct (checked_age (sq_maxAge q)) as [hi|]; [|done].
    destruct (ages_crossed lo hi); [done|]. simpl. intros [= <-].
    apply map_subseteq_spec. intros i a Hi.
    unfold searchAnimals in Hi. apply map_lookup_filter_Some in Hi as [Hi Hw].
    apply map_lookup_filter_Some. split; [done|]. simpl in *.
    unfold search_where in Hw. rewrite Hst in Hw. simpl in Hw.
    by apply andb_true_iff in Hw as [_ Hw].
  - intros Ht Hc Hb Hlo Hhi. unfold search_animals.
    rewrite Hlo, Hhi, Ht, Hc, Hb, Hst. simpl. split; reflexivity.
Qed.

(** X17: with a positive minimum age, the search refuses (400) a maximum
    that is negative or positive and below the minimum, but a maximum of 0
    slips through the comparison: the answer is 200 with no animal. *)
Theorem search_age_bounds (ci : string → string → bool) (q : SearchQuery)
    (db : DB) (lo hi : Z) :
  sq_minAge q = Some (Some lo) → sq_maxAge q = Some (Some hi) → 0 < lo →
  (0 < hi < lo → dr_status (search_animals ci q db) = 400) ∧
  (hi = 0 →
     dr_status (search_animals ci q db) = 200 ∧
     dr_data (search_animals ci q db) = Some ∅ ∧
     dr_message (search_animals ci q db) = Some "0 animal(s) trouvé(s)") ∧
  (hi < 0 → dr_status (search_animals ci q db) = 400).
Proof.
  intros Hlo Hhi Hpos. unfold search_animals. rewrite Hlo, Hhi. simpl.
  assert (E : Z.ltb lo 0 = false) by (apply Z.ltb_ge; lia). rewrite E.
  split; [|split].
  - intros [H1 H2]. assert (E' : Z.ltb hi 0 = false) by (apply Z.ltb_ge; lia).
    rewrite E'. simpl.
    assert (Elo : Z.eqb lo 0 = false) by (apply Z.eqb_neq; lia).
    assert (Ehi : Z.eqb hi 0 = false) by (apply Z.eqb_neq; lia).
    assert (Ec : Z.ltb hi lo = true) by (apply Z.ltb_lt; lia).
    by rewrite Elo, Ehi, Ec.
  - intros ->. simpl. rewrite andb_false_r. simpl.
    assert (Hnone : searchAnimals ci
              (mkSearchFilters (filter_text (sq_type q)) (filter_text (sq_city q))
                 (filter_text (sq_breed q)) (Some lo) (Some 0)
                 (filter_text (sq_status q))) db = ∅).
    { apply map_empty_filter. intros i a _. simpl. unfold search_where. simpl.
      destruct (Z.leb lo (an_age a)) eqn:E1; destruct (Z.leb (an_age a) 0) eqn:E2;
        rewrite ?andb_false_r; try done.
      apply Z.leb_le in E1, E2. lia. }
    rewrite Hnone. done.
  - intros Hneg. assert (E' : Z.ltb hi 0 = true) by (apply Z.ltb_lt; lia).
    by rewrite E'.
Qed.

(** X12 on a store with a donation of user 1 and an anonymous one. *)
Lemma get_donation_owner_only_witness :
  dr_status (get_donation 1 (Some 1) donation_db) = 200 ∧
  dr_status (get_donation 2 (Some 1) donation_db) = 403 ∧
  dr_status (get_donation 1 (Some 2) donation_db) = 403 ∧
  dr_data (get_donation 1 (Some 2) donation_db) = None.
Proof.
  destruct (get_donation_owner_only 1 1 donation_db) as (_ & Hown & _).
  destruct (get_donation_owner_only 1 2 donation_db) as (_ & _ & Hanon).
  split; [rewrite (Hown _ eq_refl eq_refl); reflexivity|].
  split; [reflexivity|]. exact (Hanon _ eq_refl eq_refl).
Defined.

(** X13 on the scenario: user 2 and the request of user 1. *)
Lemma get_adoption_agrees_with_cancel_witness :
  dr_status (get_adoption 2 (Some 101) scenario_db) = 403 ∧
  res_status (cancel_adoption 2 (Some 101) scenario_db).1 = 403 ∧
  (cancel_adoption 2 (Some 101) scenario_db).2 = scenario_db.
Proof.
  destruct (get_adoption_agrees_with_cancel 2 101 scenario_db) as (_ & _ & H).
  destruct H as (_ & H1 & H2); [vm_compute; discriminate|].
  split; [reflexivity|]. split; [rewrite H1; reflexivity|exact H2].
Defined.

(** X14 on an empty status. *)
Lemma update_donation_accepts_witness :
  res_status (update_donation (Some 2) (mkUpdateDonationRequest (Some "") None None)
                donation_db).1 = 200 ∧
  dn_status <$> donations (update_donation (Some 2)
                  (mkUpdateDonationRequest (Some "") None None) donation_db).2 !! 2 =
    Some "".
Proof.
  destruct (update_donation_accepts 2 (mkUpdateDonationRequest (Some "") None None)
              donation_db) as (Hiff & Hstore & _).
  assert (H : res_status (update_donation (Some 2)
                (mkUpdateDonationRequest (Some "") None None) donation_db).1 = 200).
  { apply Hiff. split; [vm_compute; eauto|]. right; left; reflexivity. }
  split; [exact H|].
  destruct (Hstore _ H eq_refl) as [_ Hs]. exact (Hs "" eq_refl).
Defined.

(** X15 on a completed donation that is set to refunded and deleted. *)
Lemma completed_guard_and_update_witness :
  res_status (delete_donation (Some 1) donation_db).1 = 400 ∧
  ∃ db',
    delete_donation (Some 1)
      (update_donation (Some 1)
         (mkUpdateDonationRequest (Some "refunded") None None) donation_db).2 =
      (ok 200 "Don supprimé avec succès", db') ∧
    donations db' = delete 1 (donations donation_db).
Proof.
  split; [reflexivity|].
  destruct (completed_guard_and_update 1 _ donation_db None None eq_refl)
    as [H _].
  apply H. right; right; left; reflexivity.
Defined.

(** X16 on the scenario after the adoption of its only animal. *)
Lemma search_defaults_to_available_witness :
  dr_status (search_animals (λ _ _, true) (mkSearchQuery "" "" "" None None "")
               settled_db) = 200 ∧
  dr_data (search_animals (λ _ _, true) (mkSearchQuery "" "" "" None None "")
             settled_db) = Some (getAvailableAnimals settled_db) ∧
  getAvailableAnimals settled_db = ∅.
Proof.
  destruct (search_defaults_to_available (λ _ _, true)
              (mkSearchQuery "" "" "" None None "") settled_db eq_refl)
    as [_ H].
  destruct H as [H1 H2]; try reflexivity.
  split; [exact H1|]. split; [exact H2|]. vm_compute. reflexivity.
Defined.

(** X17 on the bounds 5 and 0, and 5 and 2. *)
Lemma search_age_bounds_witness :
  dr_status (search_animals (λ _ _, true)
               (mkSearchQuery "" "" "" (Some (Some 5)) (Some (Some 0)) "")
               scenario_db) = 200 ∧
  dr_status (search_animals (λ _ _, true)
               (mkSearchQuery "" "" "" (Some (Some 5)) (Some (Some 2)) "")
               scenario_db) = 400.
Proof.
  destruct (search_age_bounds (λ _ _, true)
              (mkSearchQuery "" "" "" (Some (Some 5)) (Some (Some 0)) "")
              scenario_db 5 0 eq_refl eq_refl) as (_ & H & _); [lia|].
  destruct (search_age_bounds (λ _ _, true)
              (mkSearchQuery "" "" "" (Some (Some 5)) (Some (Some 2)) "")
              scenario_db 5 2 eq_refl eq_refl) as (H' & _); [lia|].
  split; [exact (proj1 (H eq_refl))|]. apply H'. lia.
Defined.

(** ** Accounts: roles, login and registration *)

Lemma lower_ascii_idem c : lower_ascii (lower_ascii c) = lower_ascii c.
Proof. destruct c as [[] [] [] [] [] [] [] []]; reflexivity. Qed.

Lemma toLowerCase_idem s : toLowerCase (toLowerCase s) = toLowerCase s.
Proof. induction s as [|c s IH]; [done|]. simpl. by rewrite lower_ascii_idem, IH. Qed.

(** X18: the role derived from an address does not depend on its case; it is
    [admin] exactly for the two addresses of the allow list, compared in lower
    case, and [user] for every other address. *)
Theorem determineUserRole_case (email : string) :
  determineUserRole (toLowerCase email) = determineUserRole email ∧
  (determineUserRole email = "admin" ↔
     toLowerCase email = "admin@adaopte.com" ∨
     toLowerCase email = "manager@adaopte.com") ∧
  (determineUserRole email ≠ "admin" → determineUserRole email = "user").
Proof.
  unfold determineUserRole. rewrite toLowerCase_idem.
  split; [done|]. unfold array_includes, ADMIN_EMAILS. simpl.
  destruct (String.eqb (toLowerCase email) "admin@adaopte.com") eqn:E1;
    destruct (String.eqb (toLowerCase email) "manager@adaopte.com") eqn:E2; simpl;
    rewrite ?String.eqb_eq, ?String.eqb_neq in *; split; try done; try tauto.
  split; [done|]. intros [?|?]; done.
Qed.

Lemma user_findByEmail_Some e (m : gmap Z User) i u :
  user_findByEmail e m = Some (i, u) → m !! i = Some u ∧ us_email u = e.
Proof.
  unfold user_findByEmail. intros H.
  destruct (map_to_list _) as [|[j v] l] eqn:E; [done|]. injection H as -> ->.
  assert (Hin : (i, u) ∈ map_to_list (filter (λ kv, us_email kv.2 = e) m)).
  { rewrite E. apply list_elem_of_here. }
  apply elem_of_map_to_list, map_lookup_filter_Some in Hin. done.
Qed.

Lemma user_findByEmail_None e (m : gmap Z User) :
  user_findByEmail e m = None ↔ ∀ i u, m !! i = Some u → us_email u ≠ e.
Proof.
  unfold user_findByEmail. rewrite head_None, map_to_list_empty_iff, map_empty_filter.
  unfold map_Forall. done.
Qed.

Lemma user_findByEmail_unique e (m : gmap Z User) i u :
  m !! i = Some u → us_email u = e →
  (∀ j v, m !! j = Some v → us_email v = e → j = i) →
  user_findByEmail e m = Some (i, u).
Proof.
  intros Hi He Huniq. unfold user_findByEmail.
  assert (Hf : filter (λ kv, us_email kv.2 = e) m = {[i := u]}).
  { apply map_eq. intros j. destruct (decide (j = i)) as [-> | Hne].
    - rewrite lookup_singleton_eq. by apply map_lookup_filter_Some.
    - rewrite lookup_singleton_ne by done.
      apply map_lookup_filter_None. right. intros v Hj Hv. simpl in Hv.
      apply Hne. by apply (Huniq j v). }
  rewrite Hf, map_to_list_singleton. done.
Qed.

(** X19: when the service refuses a login it does so with one and the same
    message, whether the address is unknown or the password wrong, and writes
    nothing.  The route answers 400 (a field is missing), 401 with that
    message, 500 without a write, or 200 with the result of the service
    called on the trimmed, lower-cased address.  With an address and a password that are
    strings it never answers 500.  With a password that is present but no
    string, the answer tells whether the address is registered: 401 if it is
    not, 500 if it is.  The address is an ASCII string where it is a
    string. *)
Theorem login_failures_alike (comparePassword : string → string → bool)
    (email password : JsValue) (db : DB) :
  (∀ e, email = JsString e → is_ascii e = true) →
  (∀ e p msg db', login comparePassword e p db = (Throws msg, db') →
     msg = "Email ou mot de passe incorrect" ∧ db' = db) ∧
  (login_route comparePassword email password db =
     (refused 400 "Email et mot de passe requis", db) ∨
   login_route comparePassword email password db =
     (refused 401 "Email ou mot de passe incorrect", db) ∨
   (dr_status (login_route comparePassword email password db).1 = 500 ∧
    (login_route comparePassword email password db).2 = db) ∨
   ∃ e p res db',
     email = JsString e ∧ password = JsString p ∧
     login comparePassword (toLowerCase (trim e)) p db = (Returns res, db') ∧
     login_route comparePassword email password db =
       (mkDataResponse 200 true (Some "Connexion réussie") (Some res), db')) ∧
  (∀ e p, email = JsString e → password = JsString p →
     dr_status (login_route comparePassword email password db).1 ≠ 500) ∧
  (∀ e, email = JsString e → e ≠ "" → js_truthy password = true →
     (∀ p, password ≠ JsString p) →
     dr_status (login_route comparePassword email password db).1 =
       match user_findByEmail (toLowerCase (trim e)) (users db) with
       | None => 401
       | Some _ => 500
       end).
Proof.
  intros _.
  assert (Hsvc : ∀ e p msg db', login comparePassword e p db = (Throws msg, db') →
            msg = "Email ou mot de passe incorrect" ∧ db' = db).
  { intros e p msg db'. unfold login.
    destruct (user_findByEmail e (users db)) as [[id u]|]; [|by intros [= <- <-]].
    destruct (negb _); [by intros [= <- <-]|]. done. }
  split; [exact Hsvc|]. split; [|split].
  - unfold login_route. destruct (_ || _); [by left|]. right.
    destruct email as [| |?|?| |e|]; simpl; try by (right; left).
    destruct password as [| |?|?| |p|]; simpl;
      try by (destruct (user_findByEmail _ _); [right; left|left]).
    destruct (login comparePassword (toLowerCase (trim e)) p db)
      as [[res|msg] db'] eqn:E.
    + right; right. by eexists e, p, res, db'.
    + left. by destruct (Hsvc _ _ _ _ E) as [-> ->].
  - intros e p -> ->. unfold login_route. destruct (_ || _); [done|]. simpl.
    destruct (login comparePassword (toLowerCase (trim e)) p db)
      as [[res|msg] db'] eqn:E; [done|].
    by destruct (Hsvc _ _ _ _ E) as [-> ->].
  - intros e -> He Hp Hns. unfold login_route. simpl.
    apply truthy_true in He. rewrite He, Hp. simpl.
    destruct password as [| |?|?| |p|]; try by destruct (user_findByEmail _ _).
    by destruct (Hns p).
Qed.

Lemma role_differs_false e role : role_differs e role = false → role = Some e.
Proof.
  destruct role as [r|]; simpl; [|done].
  intros H. apply negb_false_iff, String.eqb_eq in H. by subst.
Qed.

(** X20: a successful login belongs to a stored user with the address given
    and a password that matches the stored hash; afterwards the stored role
    of that user is the role derived from the address, and nothing else of
    the store has changed: no other field of the user, no other user, no
    animal, request or donation. *)
Theorem login_synchronises_role (comparePassword : string → string → bool)
    (email password : string) (db db' : DB) (res : LoginResult) :
  login comparePassword email password db = (Returns res, db') →
  ∃ id u,
    users db !! id = Some u ∧ us_email u = email ∧
    comparePassword password (us_password u) = true ∧
    uv_id (lr_user res) = id ∧
    users db' !! id = Some (user_with_role (Some (determineUserRole email)) u) ∧
    (∀ j, j ≠ id → users db' !! j = users db !! j) ∧
    animals db' = animals db ∧ adopts db' = adopts db ∧
    donations db' = donations db.
Proof.
  unfold login.
  destruct (user_findByEmail email (users db)) as [[id u]|] eqn:Hf; [|done].
  apply user_findByEmail_Some in Hf as [Hid He].
  destruct (comparePassword password (us_password u)) eqn:Hpw; [|done]. simpl.
  intros [= <- <-]. exists id, u. split; [done|]. split; [done|]. split; [done|].
  split; [done|].
  destruct (role_differs (determineUserRole email) (us_role u)) eqn:Hd; simpl.
  - split; [apply lookup_insert_eq|]. split; [|done].
    intros j Hj. by apply lookup_insert_ne.
  - apply role_differs_false in Hd. split; [|done].
    rewrite Hid. f_equal. destruct u. simpl in *. by subst.
Qed.

Lemma determineUserRole_truthy e : role_or_user (Some (determineUserRole e)) = determineUserRole e.
Proof. unfold determineUserRole. by destruct (array_includes _ _). Qed.

Lemma role_differs_same e : role_differs e (Some e) = false.
Proof. simpl. by rewrite String.eqb_refl. Qed.

(** X21: a promotion to administrator of a user whose address is not on the
    allow list lasts until the next login of that user: the promotion
    succeeds and [isAdmin] holds, the login that follows writes the role
    [user] back, so that [isAdmin] fails, while the token issued by this login
    still carries [admin]. *)
Theorem promotion_undone_by_login (comparePassword : string → string → bool)
    (password : string) (db : DB) (id : Z) (u : User) :
  emails_unique (users db) →
  users db !! id = Some u →
  determineUserRole (us_email u) = "user" →
  comparePassword password (us_password u) = true →
  (promoteToAdmin id db).1 = true ∧
  isAdmin id (promoteToAdmin id db).2 = true ∧
  ∃ res db2,
    login comparePassword (us_email u) password (promoteToAdmin id db).2 =
      (Returns res, db2) ∧
    isAdmin id db2 = false ∧
    us_role <$> users db2 !! id = Some (Some "user") ∧
    tk_role (lr_token res) = "admin".
Proof.
  intros Huniq Hu Hrole Hpw. unfold promoteToAdmin. rewrite Hu. simpl.
  split; [done|].
  split; [unfold isAdmin, set_users; simpl; by rewrite lookup_insert_eq|].
  unfold login.
  rewrite (user_findByEmail_unique (us_email u) _ id
             (user_with_role (Some "admin") u)).
  - simpl. rewrite Hpw, Hrole. simpl. eexists _, _. split; [done|].
    unfold isAdmin, set_users. simpl. rewrite lookup_insert_eq. simpl.
    split; [done|]. split; [done|]. done.
  - unfold set_users. simpl. apply lookup_insert_eq.
  - done.
  - unfold set_users. simpl. intros j v Hj Hv.
    apply lookup_insert_Some in Hj as [[? _]|[Hne Hj]]; [done|].
    symmetry. apply (Huniq id j u v); done.
Qed.

Lemma register_fresh (hashPassword : string → string)
    (comparePassword : string → string → bool) (d : RegisterData) (st : AuthStore) :
  (∀ p, comparePassword p (hashPassword p) = true) →
  user_findByEmail (rd_email d) (users (au_db st)) = None →
  ∃ res st',
    register hashPassword d st = (Returns res, st') ∧
    uv_id (lr_user res) = au_next_user st ∧
    uv_email (lr_user res) = rd_email d ∧
    uv_role (lr_user res) = Some (determineUserRole (rd_email d)) ∧
    tk_role (lr_token res) = determineUserRole (rd_email d) ∧
    (∀ j, j ≠ au_next_user st →
          users (au_db st') !! j = users (au_db st) !! j) ∧
    login comparePassword (rd_email d) (rd_password d) (au_db st') =
      (Returns res, au_db st') ∧
    register hashPassword d st' =
      (Throws "Un utilisateur avec cet email existe déjà", st').
Proof.
  intros Hbcrypt Hnone. unfold register at 1. rewrite Hnone. simpl.
  eexists _, _. split; [done|]. simpl.
  split; [done|]. split; [done|]. split; [done|].
  split; [apply determineUserRole_truthy|].
  split; [intros j Hj; by apply lookup_insert_ne|].
  set (user := mkUser (rd_firstname d) (rd_lastname d) (rd_email d)
                 (hashPassword (rd_password d)) (rd_phone d)
                 (Some (determineUserRole (rd_email d)))).
  assert (Hfind : user_findByEmail (rd_email d)
                    (<[au_next_user st := user]> (users (au_db st))) =
                  Some (au_next_user st, user)).
  { apply user_findByEmail_unique; [apply lookup_insert_eq|done|].
    intros j v Hj Hv. apply lookup_insert_Some in Hj as [[? _]|[_ Hj]]; [done|].
    by destruct (proj1 (user_findByEmail_None _ _) Hnone j v Hj). }
  split.
  - unfold login. cbn [users au_db set_users]. rewrite Hfind.
    cbn [us_password us_role user]. unfold user at 1. cbn [us_password].
    rewrite Hbcrypt. cbn [negb]. unfold user at 1. cbn [us_role].
    rewrite role_differs_same. unfold user. cbn [us_role].
    by rewrite determineUserRole_truthy.
  - unfold register. simpl. by rewrite Hfind.
Qed.

(** X22: registering an address that no stored user has succeeds under the
    next user id, with the role derived from the address in the stored user
    and in the payload of the token, and leaves the other users as they were;
    a login with the same address and password then succeeds, returns the
    same user and a token with the same payload (user id, address and role)
    and changes nothing, and a second registration of the address is
    refused. *)
Theorem register_then_login (hashPassword : string → string)
    (comparePassword : string → string → bool) (d : RegisterData) (st : AuthStore) :
  (∀ p, comparePassword p (hashPassword p) = true) →
  (∀ i u, users (au_db st) !! i = Some u → us_email u ≠ rd_email d) →
  ∃ res st',
    register hashPassword d st = (Returns res, st') ∧
    uv_id (lr_user res) = au_next_user st ∧
    uv_role (lr_user res) = Some (determineUserRole (rd_email d)) ∧
    tk_role (lr_token res) = determineUserRole (rd_email d) ∧
    (∀ j, j ≠ au_next_user st →
          users (au_db st') !! j = users (au_db st) !! j) ∧
    (∃ res',
       login comparePassword (rd_email d) (rd_password d) (au_db st') =
         (Returns res', au_db st') ∧
       lr_user res' = lr_user res ∧ lr_token res' = lr_token res) ∧
    register hashPassword d st' =
      (Throws "Un utilisateur avec cet email existe déjà", st').
Proof.
  intros Hbcrypt Hfree.
  destruct (register_fresh hashPassword comparePassword d st Hbcrypt)
    as (res & st' & H1 & H2 & _ & H4 & H5 & H6 & H7 & H8).
  { by apply user_findByEmail_None. }
  exists res, st'. split; [done|]. split; [done|]. split; [done|].
  split; [done|]. split; [done|]. split; [by exists res|done].
Qed.

Lemma isValidPassword_truthy p : valid (isValidPassword p) = true → truthy p = true.
Proof.
  unfold isValidPassword. destruct (js_length p <? 6)%nat eqn:E; [done|].
  intros _. apply truthy_true. intros ->. done.
Qed.

(** X23: after a registration answered with 201 the account is stored under
    the trimmed, lower-cased address; a login with the same password and the
    address typed in any case and with any surrounding blanks is answered with
    200, the user of the registration and a token with the same payload, and
    sending the registration again is answered with 409.  The addresses are
    ASCII strings. *)
Theorem register_route_then_login (hashPassword : string → string)
    (comparePassword : string → string → bool) (b : RegisterRequest)
    (st st' : AuthStore) (r : DataResponse LoginResult) (typed : string) :
  (∀ p, comparePassword p (hashPassword p) = true) →
  is_ascii (rr_email b) = true → is_ascii typed = true →
  register_route hashPassword b st = (r, st') →
  dr_status r = 201 →
  typed ≠ "" →
  toLowerCase (trim typed) = toLowerCase (trim (rr_email b)) →
  ∃ res,
    dr_data r = Some res ∧
    uv_email (lr_user res) = toLowerCase (trim (rr_email b)) ∧
    (∃ res',
       login_route comparePassword (JsString typed) (JsString (rr_password b))
         (au_db st') =
         (mkDataResponse 200 true (Some "Connexion réussie") (Some res'),
          au_db st') ∧
       lr_user res' = lr_user res ∧ lr_token res' = lr_token res) ∧
    ∃ r', register_route hashPassword b st' = (r', st') ∧ dr_status r' = 409.
Proof.
  intros Hbcrypt _ _ Hreg Hst Htyped Hsame. unfold register_route in Hreg.
  destruct (_ || _) eqn:Hfields; [injection Hreg as <- <-; done|].
  destruct (negb (isValidEmail (rr_email b))) eqn:Hmail;
    [injection Hreg as <- <-; done|].
  destruct (negb (valid (isValidPassword (rr_password b)))) eqn:Hpw;
    [injection Hreg as <- <-; done|].
  apply negb_false_iff in Hpw.
  destruct (js_trim (rr_firstname b)) as [firstname|] eqn:Hfn;
    [|injection Hreg as <- <-; done].
  destruct (js_trim (rr_lastname b)) as [lastname|] eqn:Hln;
    [|injection Hreg as <- <-; done].
  destruct (js_trim_optional (rr_phone b)) as [phone|] eqn:Hph;
    [|injection Hreg as <- <-; done].
  set (d := mkRegisterData firstname lastname
              (toLowerCase (trim (rr_email b))) (rr_password b) phone) in *.
  destruct (user_findByEmail (rd_email d) (users (au_db st))) as [kv|] eqn:Hfind.
  { unfold register in Hreg. rewrite Hfind in Hreg. simpl in Hreg.
    injection Hreg as <- <-. done. }
  destruct (register_fresh hashPassword comparePassword d st Hbcrypt Hfind)
    as (res & st1 & H1 & _ & Hemail & _ & _ & _ & Hlogin & Hagain).
  rewrite H1 in Hreg. injection Hreg as <- <-. exists res.
  split; [done|]. split; [done|]. split.
  - exists res. split; [|done]. unfold login_route. cbn [js_truthy js_trim].
    apply truthy_true in Htyped.
    rewrite Htyped, (isValidPassword_truthy _ Hpw). simpl.
    rewrite Hsame. unfold d in Hlogin. cbn [rd_email rd_password] in Hlogin.
    by rewrite Hlogin.
  - unfold register_route. rewrite Hfields, Hmail, Hpw, Hfn, Hln, Hph. simpl.
    fold d. rewrite Hagain. simpl. by eexists.
Qed.

(** ** The shape of an accepted address *)

Lemma split_at_sign_Some l a rest :
  split_at_sign l = Some (a, rest) →
  l = (a ++ "@"%char :: rest)%list ∧ Forall (λ x, Ascii.eqb x "@" = false) a.
Proof.
  revert a. induction l as [|c l IH]; [done|]. intros a. simpl.
  destruct (Ascii.eqb c "@") eqn:E.
  - intros [= <- <-]. apply Ascii.eqb_eq in E. by subst.
  - destruct (split_at_sign l) as [[a' rest']|]; [|done].
    intros [= <- <-]. destruct (IH a' eq_refl) as [-> Hall].
    split; [done|]. by constructor.
Qed.

Lemma split_at_sign_app a rest :
  Forall (λ x, Ascii.eqb x "@" = false) a →
  split_at_sign (a ++ "@"%char :: rest) = Some (a, rest).
Proof.
  induction 1 as [|c a Hc _ IH]; [done|]. simpl. by rewrite Hc, IH.
Qed.

Lemma dot_between_spec l :
  dot_between l = true ↔
  ∃ b c, l = (b ++ "."%char :: c)%list ∧ b ≠ [] ∧ c ≠ [].
Proof.
  induction l as [|x l IH]; simpl.
  { split; [done|]. intros (b & c & H & _). by destruct b. }
  split.
  - destruct l as [|c0 [|y t]]; [done|done|].
    rewrite orb_true_iff. intros [E|E].
    + apply Ascii.eqb_eq in E. subst c0. by exists [x], (y :: t).
    + apply IH in E as (b & c & -> & Hb & Hc). by exists (x :: b), c.
  - intros (b & c & H & Hb & Hc).
    destruct b as [|x' b]; [done|]. injection H as <- ->.
    destruct b as [|c0 b].
    + destruct c as [|y t]; [done|]. reflexivity.
    + assert (Hd : dot_between ((c0 :: b) ++ "."%char :: c) = true).
      { apply IH. exists (c0 :: b), c. done. }
      simpl in *. destruct (b ++ "."%char :: c)%list eqn:E.
      * by destruct b.
      * by rewrite Hd, orb_true_r.
Qed.

Lemma forallb_Forall_eq {A} (f : A → bool) l :
  forallb f l = true ↔ Forall (λ x, f x = true) l.
Proof.
  induction l as [|x l IH]; simpl; [by split|].
  rewrite andb_true_iff, Forall_cons, IH. done.
Qed.

Lemma email_char_not_sign c : email_char c = true → Ascii.eqb c "@" = false.
Proof. unfold email_char. rewrite andb_true_iff, !negb_true_iff. tauto. Qed.

(** X24: the address check accepts exactly the strings of the shape
    [a@b.c] where [a], [b] and [c] are not empty and hold neither a blank nor
    an at sign. *)
Theorem isValidEmail_shape (email : string) :
  isValidEmail email = true ↔
  ∃ a b c : list ascii,
    list_ascii_of_string email = (a ++ "@"%char :: b ++ "."%char :: c)%list ∧
    a ≠ [] ∧ b ≠ [] ∧ c ≠ [] ∧
    Forall (λ x, is_space x = false ∧ x ≠ "@"%char) (a ++ b ++ c)%list.
Proof.
  assert (Hchar : ∀ x, email_char x = true ↔ is_space x = false ∧ x ≠ "@"%char).
  { intros x. unfold email_char.
    rewrite andb_true_iff, !negb_true_iff, Ascii.eqb_neq. done. }
  unfold isValidEmail. split.
  - destruct (split_at_sign _) as [[a rest]|] eqn:E; [|done].
    apply split_at_sign_Some in E as [-> _].
    rewrite !andb_true_iff, negb_true_iff, bool_decide_eq_false.
    intros [[[Ha Hfa] Hfr] Hdot].
    apply dot_between_spec in Hdot as (b & c & -> & Hb & Hc).
    exists a, b, c. split; [done|]. split; [done|]. split; [done|]. split; [done|].
    apply forallb_Forall_eq in Hfa, Hfr.
    rewrite Forall_app in Hfr. destruct Hfr as [Hfb Hfc].
    apply Forall_cons in Hfc as [_ Hfc].
    rewrite !Forall_app. repeat split;
      (eapply Forall_impl; [eassumption|]); intros x Hx; by apply Hchar.
  - intros (a & b & c & -> & Ha & Hb & Hc & Hall).
    rewrite !Forall_app in Hall. destruct Hall as (Hfa & Hfb & Hfc).
    rewrite split_at_sign_app.
    2: { eapply Forall_impl; [exact Hfa|]. intros x Hx.
         apply email_char_not_sign. by apply Hchar. }
    rewrite !andb_true_iff, negb_true_iff, bool_decide_eq_false.
    assert (Hf : ∀ l, Forall (λ x, is_space x = false ∧ x ≠ "@"%char) l →
              forallb email_char l = true).
    { intros l Hl. apply forallb_Forall_eq. eapply Forall_impl; [exact Hl|].
      intros x Hx. by apply Hchar. }
    split; [split; [split; [done|by apply Hf]|]|].
    + apply Hf. rewrite Forall_app. split; [done|]. by constructor.
    + apply dot_between_spec. by exists b, c.
Qed.

(** ** The account properties on concrete stores *)

Lemma plain_compare_hash p : plain_compare p (plain_hash p) = true.
Proof. unfold plain_compare. apply String.eqb_refl. Qed.

(** X18 on an address of the list in mixed case and on another address. *)
Lemma determineUserRole_case_witness :
  determineUserRole "Admin@Adaopte.COM" = "admin" ∧
  determineUserRole "bob@example.com" = "user".
Proof.
  destruct (determineUserRole_case "Admin@Adaopte.COM") as (_ & Hiff & _).
  destruct (determineUserRole_case "bob@example.com") as (_ & _ & Helse).
  split; [apply Hiff; left; reflexivity|apply Helse; vm_compute; discriminate].
Defined.

(** X19 on an unknown address, on a wrong password, on an address that is a
    number, and on a password that is a number for an unknown and for a
    registered address. *)
Lemma login_failures_alike_witness :
  login plain_compare "nobody@example.com" "secret1" legacy_db =
    (Throws "Email ou mot de passe incorrect", legacy_db) ∧
  login plain_compare "bob@example.com" "wrong" legacy_db =
    (Throws "Email ou mot de passe incorrect", legacy_db) ∧
  dr_status (login_route plain_compare (JsNumber 5) (JsString "secret1")
               legacy_db).1 = 500 ∧
  dr_status (login_route plain_compare (JsString "nobody@example.com")
               (JsNumber 1) legacy_db).1 = 401 ∧
  dr_status (login_route plain_compare (JsString "bob@example.com")
               (JsNumber 1) legacy_db).1 = 500.
Proof.
  assert (Hascii : ∀ s, is_ascii s = true →
            ∀ e, JsString s = JsString e → is_ascii e = true)
    by (by intros s Hs e [= <-]).
  destruct (login_failures_alike plain_compare (JsString "nobody@example.com")
              (JsNumber 1) legacy_db (Hascii "nobody@example.com" eq_refl))
    as (H1 & _ & _ & H401).
  destruct (login_failures_alike plain_compare (JsString "bob@example.com")
              (JsNumber 1) legacy_db (Hascii "bob@example.com" eq_refl))
    as (_ & _ & _ & H500).
  destruct (login plain_compare "nobody@example.com" "secret1" legacy_db)
    as [[res|msg] db'] eqn:E1; [vm_compute in E1; discriminate|].
  destruct (login plain_compare "bob@example.com" "wrong" legacy_db)
    as [[res|msg'] db''] eqn:E2; [vm_compute in E2; discriminate|].
  destruct (H1 _ _ _ _ E1) as [-> ->]. destruct (H1 _ _ _ _ E2) as [-> ->].
  split; [reflexivity|]. split; [reflexivity|]. split; [reflexivity|].
  split.
  - rewrite (H401 _ eq_refl); [reflexivity|discriminate|reflexivity|discriminate].
  - rewrite (H500 _ eq_refl); [reflexivity|discriminate|reflexivity|discriminate].
Defined.

(** X20 on a user stored as [user] whose address is on the list. *)
Lemma login_synchronises_role_witness :
  ∃ res db',
    login (λ _ _, true) "manager@adaopte.com" "secret" manager_db = (Returns res, db') ∧
    us_role <$> users db' !! 6 = Some (Some "admin") ∧
    animals db' = animals manager_db.
Proof.
  destruct (login (λ _ _, true) "manager@adaopte.com" "secret" manager_db)
    as [[res|msg] db'] eqn:E; [|vm_compute in E; discriminate].
  destruct (login_synchronises_role _ _ _ _ _ _ E)
    as (id & u & Hu & He & _ & _ & Hrole & _ & Ha & _).
  exists res, db'. split; [reflexivity|].
  assert (id = 6) as ->.
  { destruct (decide (id = 6)) as [|Hne]; [done|].
    unfold manager_db in Hu. simpl in Hu.
    rewrite lookup_singleton_ne in Hu by done. discriminate. }
  split; [rewrite Hrole; reflexivity|exact Ha].
Defined.

Lemma legacy_emails_unique : emails_unique (users legacy_db).
Proof.
  intros i j u v Hi Hj _. simpl in *.
  apply lookup_singleton_Some in Hi as [<- _].
  apply lookup_singleton_Some in Hj as [<- _]. done.
Qed.

(** X21 on the user of the legacy store. *)
Lemma promotion_undone_by_login_witness :
  isAdmin 5 (promoteToAdmin 5 legacy_db).2 = true ∧
  ∃ res db2,
    login (λ _ _, true) "bob@example.com" "secret" (promoteToAdmin 5 legacy_db).2 =
      (Returns res, db2) ∧
    isAdmin 5 db2 = false ∧ tk_role (lr_token res) = "admin".
Proof.
  destruct (promotion_undone_by_login (λ _ _, true) "secret" legacy_db 5 legacy_user
              legacy_emails_unique eq_refl eq_refl eq_refl)
    as (_ & H2 & res & db2 & H3 & H4 & _ & H6).
  split; [exact H2|]. exists res, db2. auto.
Defined.

(** X22 on a new address in the legacy store. *)
Lemma register_then_login_witness :
  ∃ res st',
    register plain_hash
      (mkRegisterData "Ada" "Lovelace" "ada@example.com" "secret1" None)
      (mkAuthStore legacy_db 6) = (Returns res, st') ∧
    uv_id (lr_user res) = 6 ∧
    login plain_compare "ada@example.com" "secret1" (au_db st') =
      (Returns res, au_db st').
Proof.
  destruct (register_then_login plain_hash plain_compare
              (mkRegisterData "Ada" "Lovelace" "ada@example.com" "secret1" None)
              (mkAuthStore legacy_db 6) plain_compare_hash)
    as (res & st' & H1 & H2 & _ & _ & _ & (res' & H6 & Hu & Ht) & _).
  { intros i u Hi. simpl in Hi. apply lookup_singleton_Some in Hi as [_ <-].
    simpl. discriminate. }
  exists res, st'. split; [exact H1|]. split; [exact H2|].
  cbn [rd_email rd_password] in H6. rewrite H6.
  destruct res, res'. simpl in Hu, Ht. by rewrite Hu, Ht.
Defined.

(** X23 on the same registration, with the address typed in capitals behind a
    blank at the login. *)
Lemma register_route_then_login_witness :
  dr_status (register_route plain_hash ada_request (mkAuthStore legacy_db 6)).1 = 201 ∧
  ∃ res,
    uv_email (lr_user res) = "ada@example.com" ∧
    login_route plain_compare (JsString " ADA@example.COM") (JsString "secret1")
      (au_db (register_route plain_hash ada_request (mkAuthStore legacy_db 6)).2) =
      (mkDataResponse 200 true (Some "Connexion réussie") (Some res),
       au_db (register_route plain_hash ada_request (mkAuthStore legacy_db 6)).2).
Proof.
  assert (H201 : dr_status (register_route plain_hash ada_request
                              (mkAuthStore legacy_db 6)).1 = 201)
    by (vm_compute; reflexivity).
  split; [exact H201|].
  destruct (register_route_then_login plain_hash plain_compare ada_request
              (mkAuthStore legacy_db 6) _ _ " ADA@example.COM" plain_compare_hash
              eq_refl eq_refl (surjective_pairing _) H201)
    as (res & _ & Hemail & (res' & Hlogin & Hu & Ht) & _).
  - discriminate.
  - vm_compute; reflexivity.
  - exists res. split; [exact Hemail|].
    change (rr_password ada_request) with "secret1" in Hlogin. rewrite Hlogin.
    destruct res, res'. simpl in Hu, Ht. by rewrite Hu, Ht.
Defined.

(** X24 on an address and on a string without a dot behind the at sign. *)
Lemma isValidEmail_shape_witness :
  isValidEmail "ada@example.com" = true ∧ isValidEmail "ada@example" = false.
Proof.
  split.
  - apply isValidEmail_shape.
    exists (list_ascii_of_string "ada"), (list_ascii_of_string "example"),
           (list_ascii_of_string "com").
    split; [reflexivity|]. split; [discriminate|]. split; [discriminate|].
    split; [discriminate|].
    repeat (apply Forall_cons; split; [split; [reflexivity|discriminate]|]).
    apply Forall_nil. exact I.
  - reflexivity.
Defined.
